(** * jots-google-importer: the e-mail ingestion pipeline

    A shallow embedding of the e-mail pipeline of the plugin
    ([src/utils/files.ts], [src/api/google/gmail.ts],
    [src/api/google/auth.ts] and the date selection of [src/main.ts]),
    followed by the properties its specification states about it.

    Conventions of the embedding.
    - A JavaScript string is a [string]; a character stands for one UTF-16
      code unit in the Latin-1 range (0..255).
    - [undefined]/[null] is [None]; an optional field is an [option].
    - A function that can throw returns a [Result]; a function with effects
      on the file system, the network or the Gmail service threads a world
      through the monad [M].
    - [path] is Node's POSIX implementation of the [path] module. *)

From Stdlib Require Import String Ascii List Bool Arith ZArith Lia.
From Stdlib Require Strings.Byte.
Import ListNotations.

Local Open Scope list_scope.
Local Open Scope string_scope.

(* ================================================================== *)
(** ** JavaScript strings *)

Module JsString.

(** [ToBoolean] on a string: only the empty string is falsy. *)
Definition truthy (s : string) : bool :=
  match s with EmptyString => false | String _ _ => true end.

(** [ToBoolean] on a possibly undefined string. *)
Definition truthy_opt (o : option string) : bool :=
  match o with Some s => truthy s | None => false end.

(** [a || b] on possibly undefined strings, with a string default. *)
Definition or_else (o : option string) (d : string) : string :=
  match o with
  | Some s => if truthy s then s else d
  | None => d
  end.

Definition code (c : ascii) : nat := nat_of_ascii c.

(** The class [\d]. *)
Definition is_digit (c : ascii) : bool :=
  ((48 <=? code c) && (code c <=? 57))%nat.

(** The class [\s] (and the characters removed by [trim]) in the Latin-1
    range: TAB, LF, VT, FF, CR, SPACE and NBSP. *)
Definition is_space (c : ascii) : bool :=
  (((9 <=? code c) && (code c <=? 13)) || (code c =? 32) || (code c =? 160))%nat.

Fixpoint forallb (p : ascii -> bool) (s : string) : bool :=
  match s with
  | EmptyString => true
  | String c s' => p c && forallb p s'
  end.

Fixpoint map (f : ascii -> ascii) (s : string) : string :=
  match s with
  | EmptyString => EmptyString
  | String c s' => String (f c) (map f s')
  end.

(** [String.prototype.toLowerCase], per code unit, in the Latin-1 range. *)
Definition lower (c : ascii) : ascii :=
  let n := code c in
  if (((65 <=? n) && (n <=? 90))
      || ((192 <=? n) && (n <=? 222) && negb (n =? 215)))%nat
  then ascii_of_nat (n + 32) else c.

Definition toLowerCase (s : string) : string := map lower s.

(** The canonicalisation of the [i] flag ([toUpperCase] when the result
    stays one code unit of the model). *)
Definition upper (c : ascii) : ascii :=
  let n := code c in
  if (((97 <=? n) && (n <=? 122))
      || ((224 <=? n) && (n <=? 254) && negb (n =? 247)))%nat
  then ascii_of_nat (n - 32) else c.

Fixpoint trimStart (s : string) : string :=
  match s with
  | EmptyString => EmptyString
  | String c s' => if is_space c then trimStart s' else s
  end.

Fixpoint trimEnd (s : string) : string :=
  match s with
  | EmptyString => EmptyString
  | String c s' =>
      let t := trimEnd s' in
      if is_space c && negb (truthy t) then EmptyString else String c t
  end.

(** [String.prototype.trim]. *)
Definition trim (s : string) : string := trimEnd (trimStart s).

(** [strip_prefix p s] is what follows [p] in [s] when [s] starts with
    [p]. *)
Fixpoint strip_prefix (p s : string) : option string :=
  match p, s with
  | EmptyString, _ => Some s
  | String a p', String b s' =>
      if Ascii.eqb a b then strip_prefix p' s' else None
  | String _ _, EmptyString => None
  end.

(** The first occurrence of [pat] in [s] ([StringIndexOf] from 0), as the
    text before it and the text after it. *)
Fixpoint firstOccurrence (pat s : string) : option (string * string) :=
  match strip_prefix pat s with
  | Some rest => Some (EmptyString, rest)
  | None =>
      match s with
      | EmptyString => None
      | String c s' =>
          match firstOccurrence pat s' with
          | Some (before, after) => Some (String c before, after)
          | None => None
          end
      end
  end.

(** [GetSubstitution] for a string pattern (no capture groups): [$$],
    [$&], [$`] and [$'] are expanded, every other [$] is literal. *)
Fixpoint GetSubstitution (matched before after template : string) : string :=
  match template with
  | EmptyString => EmptyString
  | String c t =>
      if Ascii.eqb c "$" then
        match t with
        | String d t' =>
            if Ascii.eqb d "$" then
              String "$" (GetSubstitution matched before after t')
            else if Ascii.eqb d "&" then
              matched ++ GetSubstitution matched before after t'
            else if Ascii.eqb d "`" then
              before ++ GetSubstitution matched before after t'
            else if Ascii.eqb d "'" then
              after ++ GetSubstitution matched before after t'
            else String "$" (GetSubstitution matched before after t)
        | EmptyString => String "$" EmptyString
        end
      else String c (GetSubstitution matched before after t)
  end.

(** [String.prototype.replace(searchString, replaceValue)] with two
    strings: only the first occurrence is replaced. *)
Definition replace (s pat repl : string) : string :=
  match firstOccurrence pat s with
  | None => s
  | Some (before, after) =>
      before ++ GetSubstitution pat before after repl ++ after
  end.

(** [Array.prototype.join] on strings. *)
Fixpoint join (sep : string) (l : list string) : string :=
  match l with
  | [] => EmptyString
  | [x] => x
  | x :: rest => x ++ sep ++ join sep rest
  end.

(** [String.prototype.split] on a one-character separator. *)
Fixpoint split (sep : ascii) (s : string) : list string :=
  match s with
  | EmptyString => [EmptyString]
  | String c s' =>
      if Ascii.eqb c sep then EmptyString :: split sep s'
      else
        match split sep s' with
        | seg :: segs => String c seg :: segs
        | [] => [String c EmptyString]
        end
  end.

Fixpoint last (s : string) : option ascii :=
  match s with
  | EmptyString => None
  | String c EmptyString => Some c
  | String _ s' => last s'
  end.

End JsString.

(* ================================================================== *)
(** ** Regular expressions

    The regular expressions of the plugin, as syntax trees run by a
    backtracking matcher in continuation-passing style. Only the operators
    that occur in the source are present; every quantifier of the source
    ranges over a character class. *)

Module RegExp.
Import JsString.

Inductive regex : Type :=
| Chars (lit : string)                  (* a run of literal characters *)
| CharsI (lit : string)                 (* the same under the [i] flag *)
| ClassPlus (p : ascii -> bool)         (* [[...]+], greedy *)
| ClassRep (p : ascii -> bool) (n : nat) (* [[...]{n}] *)
| Group (i : nat) (r : regex)           (* the i-th capturing group *)
| Seq (r1 r2 : regex)
| Alt (r1 r2 : regex)
| Bol                                   (* [^] without the [m] flag *)
| Eol.                                  (* [$] without the [m] flag *)

(** Captures, most recent first. *)
Definition Captures := list (nat * string).

Fixpoint capture (i : nat) (caps : Captures) : option string :=
  match caps with
  | [] => None
  | (j, s) :: rest => if (j =? i)%nat then Some s else capture i rest
  end.

Fixpoint strip_prefix_i (p s : string) : option string :=
  match p, s with
  | EmptyString, _ => Some s
  | String a p', String b s' =>
      if Ascii.eqb (upper a) (upper b) then strip_prefix_i p' s' else None
  | String _ _, EmptyString => None
  end.

(** [take_class p n s]: [n] characters of class [p], then the rest. *)
Fixpoint take_class (p : ascii -> bool) (n : nat) (s : string) : option string :=
  match n with
  | 0 => Some s
  | S n' =>
      match s with
      | String c s' => if p c then take_class p n' s' else None
      | EmptyString => None
      end
  end.

Section Matcher.
Context {R : Type}.

(** Zero or more characters of class [p], longest first. *)
Fixpoint class_many (p : ascii -> bool) (pos : nat) (s : string)
         (k : nat -> string -> option R) : option R :=
  match s with
  | String c s' =>
      if p c then
        match class_many p (S pos) s' k with
        | Some r => Some r
        | None => k pos s
        end
      else k pos s
  | EmptyString => k pos s
  end.

Definition class_plus (p : ascii -> bool) (pos : nat) (s : string)
           (k : nat -> string -> option R) : option R :=
  match s with
  | String c s' => if p c then class_many p (S pos) s' k else None
  | EmptyString => None
  end.

(** [rmatch r pos s caps k]: match [r] at index [pos], where [s] is the
    input from [pos] on, then continue with [k]; [None] makes the
    matcher backtrack. *)
Fixpoint rmatch (r : regex) (pos : nat) (s : string) (caps : Captures)
         (k : nat -> string -> Captures -> option R) : option R :=
  match r with
  | Chars lit =>
      match strip_prefix lit s with
      | Some s' => k (pos + String.length lit) s' caps
      | None => None
      end
  | CharsI lit =>
      match strip_prefix_i lit s with
      | Some s' => k (pos + String.length lit) s' caps
      | None => None
      end
  | ClassPlus p => class_plus p pos s (fun pos' s' => k pos' s' caps)
  | ClassRep p n =>
      match take_class p n s with
      | Some s' => k (pos + n) s' caps
      | None => None
      end
  | Group i r1 =>
      rmatch r1 pos s caps
        (fun pos' s' caps' =>
           k pos' s' ((i, substring 0 (pos' - pos) s) :: caps'))
  | Seq r1 r2 =>
      rmatch r1 pos s caps (fun pos' s' caps' => rmatch r2 pos' s' caps' k)
  | Alt r1 r2 =>
      match rmatch r1 pos s caps k with
      | Some x => Some x
      | None => rmatch r2 pos s caps k
      end
  | Bol => if (pos =? 0)%nat then k pos s caps else None
  | Eol =>
      match s with
      | EmptyString => k pos s caps
      | String _ _ => None
      end
  end.
End Matcher.

(** A successful match: where it starts and ends, the matched text
    (index 0 of the match array), the captures and the input left. *)
Record Match := {
  m_index : nat;
  m_end : nat;
  m_text : string;
  m_caps : Captures;
  m_rest : string
}.

Definition match_at (r : regex) (pos : nat) (s : string) : option Match :=
  rmatch r pos s []
    (fun pos' s' caps =>
       Some {| m_index := pos; m_end := pos';
               m_text := substring 0 (pos' - pos) s;
               m_caps := caps; m_rest := s' |}).

(** The search of [RegExp.prototype.exec]: the leftmost start index, from
    [pos] on, at which the expression matches. *)
Fixpoint search (r : regex) (pos : nat) (s : string) : option Match :=
  match match_at r pos s with
  | Some m => Some m
  | None =>
      match s with
      | String _ s' => search r (S pos) s'
      | EmptyString => None
      end
  end.

(** [str.match(re)] without the [g] flag. *)
Definition match_ (r : regex) (s : string) : option Match := search r 0 s.

(** [re.test(str)]. *)
Definition test (r : regex) (s : string) : bool :=
  match search r 0 s with Some _ => true | None => false end.

(** The loop [while ((match = re.exec(str)) !== null)] of a [g]
    expression: each round searches from [lastIndex], the end of the
    previous match. A round that does not advance would repeat for ever;
    [None] stands for that. *)
Fixpoint exec_loop (fuel : nat) (r : regex) (pos : nat) (s : string)
  : option (list Match) :=
  match fuel with
  | 0 => None
  | S fuel' =>
      match search r pos s with
      | None => Some []
      | Some m =>
          match exec_loop fuel' r (m_end m) (m_rest m) with
          | Some ms => Some (m :: ms)
          | None => None
          end
      end
  end.

End RegExp.

(* ================================================================== *)
(** ** Node's [path] module (POSIX)

    [path.join] and [path.normalize] as [lib/path.js] has them for POSIX:
    [normalizeString] drops empty and [.] segments and lets [..] remove the
    segment before it. *)

Module Path.
Import JsString.

Definition sep : ascii := "/"%char.

(** [normalizeString], segment by segment; [acc] holds the segments kept
    so far, the last one first. *)
Fixpoint normalizeSegments (allowAboveRoot : bool) (segs acc : list string)
  : list string :=
  match segs with
  | [] => rev acc
  | seg :: rest =>
      if (seg =? "") || (seg =? ".") then
        normalizeSegments allowAboveRoot rest acc
      else if seg =? ".." then
        match acc with
        | top :: acc' =>
            if top =? ".." then
              normalizeSegments allowAboveRoot rest
                (if allowAboveRoot then ".." :: acc else acc)
            else normalizeSegments allowAboveRoot rest acc'
        | [] =>
            normalizeSegments allowAboveRoot rest
              (if allowAboveRoot then [".."] else [])
        end
      else normalizeSegments allowAboveRoot rest (seg :: acc)
  end.

Definition normalizeString (path : string) (allowAboveRoot : bool) : string :=
  join "/" (normalizeSegments allowAboveRoot (split sep path) []).

Definition isAbsolute (path : string) : bool :=
  match path with
  | String c _ => Ascii.eqb c sep
  | EmptyString => false
  end.

Definition trailingSeparator (path : string) : bool :=
  match last path with
  | Some c => Ascii.eqb c sep
  | None => false
  end.

(** [path.normalize]. *)
Definition normalize (path : string) : string :=
  if negb (truthy path) then "."
  else
    let p := normalizeString path (negb (isAbsolute path)) in
    if negb (truthy p) then
      if isAbsolute path then "/"
      else if trailingSeparator path then "./" else "."
    else
      let p' := if trailingSeparator path then p ++ "/" else p in
      if isAbsolute path then "/" ++ p' else p'.

(** [path.join(...args)]: the non-empty arguments, joined by [/] and
    normalized. *)
Definition join (args : list string) : string :=
  match filter truthy args with
  | [] => "."
  | parts => normalize (JsString.join "/" parts)
  end.

End Path.

(* ================================================================== *)
(** ** [Buffer] and base64 *)

Module Base64.

Definition alphabet : string :=
  "ABCDEFGHIJKLMNOPQRSTUVWXYZabcdefghijklmnopqrstuvwxyz0123456789+/".

Definition digit (n : N) : ascii :=
  match String.get (N.to_nat n) alphabet with
  | Some c => c
  | None => "="%char
  end.

(** [buffer.toString('base64')]. *)
Fixpoint encode (bytes : list Byte.byte) : string :=
  match bytes with
  | [] => EmptyString
  | [a] =>
      let x := Byte.to_N a in
      String (digit (x / 4)) (String (digit ((x mod 4) * 16)) "==")
  | [a; b] =>
      let x := Byte.to_N a in
      let y := Byte.to_N b in
      String (digit (x / 4))
        (String (digit ((x mod 4) * 16 + y / 16))
           (String (digit ((y mod 16) * 4)) "="))
  | a :: b :: c :: rest =>
      let x := Byte.to_N a in
      let y := Byte.to_N b in
      let z := Byte.to_N c in
      String (digit (x / 4))
        (String (digit ((x mod 4) * 16 + y / 16))
           (String (digit ((y mod 16) * 4 + z / 64))
              (String (digit (z mod 64)) (encode rest))))
  end%N.

(** The value of a base64 or base64url character. *)
Definition sextet (c : ascii) : option N :=
  let n := N_of_ascii c in
  (if (65 <=? n) && (n <=? 90) then Some (n - 65)
   else if (97 <=? n) && (n <=? 122) then Some (n - 71)
   else if (48 <=? n) && (n <=? 57) then Some (n + 4)
   else if (n =? 43) || (n =? 45) then Some 62
   else if (n =? 47) || (n =? 95) then Some 63
   else None)%N.

(** The sextets of the input up to the first [=]; other characters are
    skipped, as Node's decoder does. *)
Fixpoint sextets (s : string) : list N :=
  match s with
  | EmptyString => []
  | String c s' =>
      if Ascii.eqb c "=" then []
      else
        match sextet c with
        | Some v => v :: sextets s'
        | None => sextets s'
        end
  end.

Fixpoint bytes_of_sextets (l : list N) : list N :=
  match l with
  | a :: b :: c :: d :: rest =>
      (a * 4 + b / 16) :: ((b mod 16) * 16 + c / 4) :: ((c mod 4) * 64 + d)
        :: bytes_of_sextets rest
  | [a; b; c] => [a * 4 + b / 16; (b mod 16) * 16 + c / 4]
  | [a; b] => [a * 4 + b / 16]
  | _ => []
  end%N.

(** [Buffer.from(s, 'base64')], as byte values. *)
Definition decode (s : string) : list N := bytes_of_sextets (sextets s).

(** [Buffer.from(s, 'base64').toString('utf-8')] for content whose bytes
    are all ASCII, where a byte is its own character. *)
Definition decode_to_string (s : string) : string :=
  string_of_list_ascii (List.map ascii_of_N (decode s)).

End Base64.

(* ================================================================== *)
(** ** [Date] *)

Module JsDate.
Local Open Scope Z_scope.

(** The environment of [Date]: the host's date parser (a time value in
    milliseconds, [None] for an Invalid Date) and the clock. *)
Record DateOps := {
  Date_parse : string -> option Z;
  Date_now : Z
}.

Definition msPerDay : Z := 86400000.

(** Year, month and day of a day number counted from 1970-01-01, in the
    proleptic Gregorian calendar. *)
Definition civil_from_days (day : Z) : Z * Z * Z :=
  let z := day + 719468 in
  let era := z / 146097 in
  let doe := z - era * 146097 in
  let yoe := (doe - doe / 1460 + doe / 36524 - doe / 146096) / 365 in
  let doy := doe - (365 * yoe + yoe / 4 - yoe / 100) in
  let mp := (5 * doy + 2) / 153 in
  let d := doy - (153 * mp + 2) / 5 + 1 in
  let m := if mp <? 10 then mp + 3 else mp - 9 in
  let y := yoe + era * 400 + (if m <=? 2 then 1 else 0) in
  (y, m, d).

Definition decimal_digit (n : Z) : ascii :=
  ascii_of_nat (48 + Z.to_nat (n mod 10)).

(** The last [width] decimal digits of [n], zero-padded. *)
Fixpoint pad (width : nat) (n : Z) : string :=
  match width with
  | O => EmptyString
  | S w => (pad w (n / 10) ++ String (decimal_digit n) EmptyString)%string
  end.

Definition year_string (y : Z) : string :=
  if (0 <=? y) && (y <=? 9999) then pad 4 y
  else String (if y <? 0 then "-"%char else "+"%char) (pad 6 (Z.abs y)).

(** [Date.prototype.toISOString] of a valid time value. *)
Definition toISOString (t : Z) : string :=
  let day := t / msPerDay in
  let ms := t mod msPerDay in
  let '(y, m, d) := civil_from_days day in
  (year_string y ++ "-" ++ pad 2 m ++ "-" ++ pad 2 d ++ "T"
     ++ pad 2 (ms / 3600000) ++ ":" ++ pad 2 (ms / 60000 mod 60) ++ ":"
     ++ pad 2 (ms / 1000 mod 60) ++ "." ++ pad 3 (ms mod 1000) ++ "Z")%string.

End JsDate.

(* ================================================================== *)
(** ** Exceptions and effects *)

Module Eff.

(** A thrown JavaScript error. *)
Record JsError := { err_name : string; message : string }.

Definition Error (msg : string) : JsError :=
  {| err_name := "Error"; message := msg |}.
Definition TypeError (msg : string) : JsError :=
  {| err_name := "TypeError"; message := msg |}.
Definition RangeError (msg : string) : JsError :=
  {| err_name := "RangeError"; message := msg |}.

Inductive Result (A : Type) : Type :=
| Return (a : A)
| Throw (e : JsError).
Arguments Return {A} a.
Arguments Throw {A} e.

(** A computation over a world [W]: effects done before a throw stay
    done. *)
Definition M (W A : Type) : Type := W -> Result A * W.

Definition ret {W A} (a : A) : M W A := fun w => (Return a, w).

Definition throw {W A} (e : JsError) : M W A := fun w => (Throw e, w).

Definition bind {W A B} (c : M W A) (k : A -> M W B) : M W B :=
  fun w =>
    match c w with
    | (Return a, w') => k a w'
    | (Throw e, w') => (Throw e, w')
    end.

(** [try { c } catch (e) { h e }]. *)
Definition try_catch {W A} (c : M W A) (h : JsError -> M W A) : M W A :=
  fun w =>
    match c w with
    | (Return a, w') => (Return a, w')
    | (Throw e, w') => h e w'
    end.

Declare Scope eff_scope.
Delimit Scope eff_scope with eff.
Notation "x <- c ;; k" := (bind c (fun x => k))
  (at level 61, c at next level, right associativity) : eff_scope.
Notation "c ;;; k" := (bind c (fun _ => k))
  (at level 61, right associativity) : eff_scope.

End Eff.

(* ================================================================== *)
(** ** The Gmail client library ([@googleapis/gmail]) *)

Module GmailApi.
Import Eff.

(** [Schema$MessagePartHeader]. *)
Record Header := { name : string; value : string }.

(** [Schema$MessagePartBody]: base64url content. *)
Record Body := { data : option string }.

(** [Schema$MessagePart]: a node of the MIME tree. *)
#[local] Unset Elimination Schemes.
Inductive MessagePart : Type :=
| Part (mimeType : option string) (headers : option (list Header))
       (body : option Body) (parts : option (list MessagePart)).
#[local] Set Elimination Schemes.

Definition mimeType (p : MessagePart) : option string :=
  let 'Part m _ _ _ := p in m.
Definition headers (p : MessagePart) : option (list Header) :=
  let 'Part _ h _ _ := p in h.
Definition body (p : MessagePart) : option Body :=
  let 'Part _ _ b _ := p in b.
Definition parts (p : MessagePart) : option (list MessagePart) :=
  let 'Part _ _ _ ps := p in ps.

(** [Schema$Message]. *)
Record Message := { id : option string; payload : option MessagePart }.

(** The response of [users.messages.list]. *)
Record ListResponse := {
  status : Z;
  statusText : string;
  messages : option (list Message)
}.

Inductive Format := full | metadata (metadataHeaders : list string).

Record ListParams := { list_userId : string; q : string }.
Record GetParams := { get_userId : string; get_id : string; format : Format }.

(** The service handle: each call answers or throws, and may change the
    state [S] of the service. *)
Record GmailOps (S : Type) := {
  users_messages_list : ListParams -> M S ListResponse;
  users_messages_get : GetParams -> M S Message
}.
Arguments users_messages_list {S}.
Arguments users_messages_get {S}.

End GmailApi.

(* ================================================================== *)
(** ** [src/utils/files.ts] *)

Module Files.
Import JsString RegExp Eff GmailApi.
Local Open Scope eff_scope.

Definition dquote : ascii := "034"%char.
Definition q : string := String dquote EmptyString.

Definition is_not (c : ascii) : ascii -> bool := fun x => negb (Ascii.eqb x c).

(** *** The file system ([fs]) *)

Inductive FsCall :=
| ExistsSync (path : string)
| MkdirSync (path : string)
| WriteFileSync (path data : string).

(** The host file system: [mkdirSync] is called with [recursive: true],
    [writeFileSync] with the encoding [utf8]; both may throw. *)
Record FsOps (FS : Type) := {
  fs_existsSync : FS -> string -> bool;
  fs_mkdirSync : FS -> string -> Result unit * FS;
  fs_writeFileSync : FS -> string -> string -> Result unit * FS
}.
Arguments fs_existsSync {FS}.
Arguments fs_mkdirSync {FS}.
Arguments fs_writeFileSync {FS}.

(** The disk together with the calls made on it so far. *)
Record FsWorld (FS : Type) := { disk : FS; calls : list FsCall }.
Arguments disk {FS}.
Arguments calls {FS}.

Section FileSystem.
Context {FS : Type} (fs : FsOps FS).

Definition existsSync (path : string) : M (FsWorld FS) bool :=
  fun w =>
    (Return (fs_existsSync fs (disk w) path),
     {| disk := disk w; calls := (calls w ++ [ExistsSync path])%list |}).

Definition mkdirSync (path : string) : M (FsWorld FS) unit :=
  fun w =>
    let (r, d) := fs_mkdirSync fs (disk w) path in
    (r, {| disk := d; calls := (calls w ++ [MkdirSync path])%list |}).

Definition writeFileSync (path data : string) : M (FsWorld FS) unit :=
  fun w =>
    let (r, d) := fs_writeFileSync fs (disk w) path data in
    (r, {| disk := d; calls := (calls w ++ [WriteFileSync path data])%list |}).
End FileSystem.

(** *** [removeInvalidFileNameChars] *)

Definition invalidFileNameChar (c : ascii) : bool :=
  existsb (Ascii.eqb c)
    ["<"; ">"; ":"; dquote; "/"; "\"; "|"; "?"; "*"]%char.

Definition removeInvalidFileNameChars (filename : string) : string :=
  JsString.map (fun c => if invalidFileNameChar c then "_"%char else c) filename.

(** *** [saveFileToStack] *)

(** [/^(\d{4})(\d{2})\d{2}/] *)
Definition dateRegex : regex :=
  Seq Bol
    (Seq (Group 1 (ClassRep is_digit 4))
       (Seq (Group 2 (ClassRep is_digit 2)) (ClassRep is_digit 2))).

(** [match[i]] of a group that took part in the match; a group that did
    not reads [undefined]. *)
Definition group (i : nat) (m : Match) : string :=
  match capture i (m_caps m) with
  | Some s => s
  | None => "undefined"
  end.

(** The constant [subfolder]: the template under [Chronological/Email],
    with the year put for [YYYY] and then year-month for [YYYY-MM]. *)
Definition subfolder (subfolderStructure : string) (dateMatch : Match) : string :=
  let fullSubfolderStructure :=
    Path.join ["Chronological"; "Email"; subfolderStructure] in
  let year := group 1 dateMatch in
  let month := group 2 dateMatch in
  replace (replace fullSubfolderStructure "YYYY" year)
    "YYYY-MM" (year ++ "-" ++ month).

Definition saveFileToStack {FS : Type} (fs : FsOps FS)
           (vaultRoot subfolderStructure filename content : string)
  : M (FsWorld FS) string :=
  match match_ dateRegex filename with
  | None => throw (Error "Filename does not contain a valid date.")
  | Some dateMatch =>
      let targetFolder :=
        Path.join [vaultRoot; subfolder subfolderStructure dateMatch] in
      present <- existsSync fs targetFolder ;;
      (if negb present then mkdirSync fs targetFolder else ret tt) ;;;
      let targetPath := Path.join [targetFolder; filename] in
      try_catch (writeFileSync fs targetPath content)
                (fun error => throw error) ;;;
      ret targetPath
  end.

(** *** The image inliner *)

(** The response of [axios.get(url, { responseType: 'arraybuffer' })]:
    the bytes and the [content-type] header. *)
Record AxiosResponse := {
  response_data : list Byte.byte;
  content_type : option string
}.

(** The network: a request answers or is rejected with an error. *)
Record HttpOps (N : Type) := {
  http_get : N -> string -> Result AxiosResponse * N
}.
Arguments http_get {N}.

(** The network together with the URLs requested so far. *)
Record NetWorld (N : Type) := { net : N; requests : list string }.
Arguments net {N}.
Arguments requests {N}.

(** [/(CORS|Access-Control-Allow-Origin|Network Error)/i] *)
Definition networkErrorRegex : regex :=
  Group 1 (Alt (CharsI "CORS")
             (Alt (CharsI "Access-Control-Allow-Origin")
                  (CharsI "Network Error"))).

(** The expression [<img[^>]+src=Q([^Q>]+)Q] with the [g] flag, where
    [Q] is the double quote. *)
Definition imgRegex : regex :=
  Seq (Chars "<img")
    (Seq (ClassPlus (is_not ">"))
       (Seq (Chars ("src=" ++ q))
          (Seq (Group 1 (ClassPlus (fun c => is_not dquote c && is_not ">" c)))
             (Chars q)))).

(** [extractImageUrls]: group 1 of every match, in order. The fuel
    [S (length html)] is never used up, see [extractImageUrls_fuel]. *)
Definition extractImageUrls (html : string) : list string :=
  match exec_loop (S (String.length html)) imgRegex 0 html with
  | Some ms => List.map (group 1) ms
  | None => []
  end.

(** [replaceImageUrlsWithBase64]: the [forEach] over [urls], with its
    index. *)
Fixpoint replaceImageUrls_from (index : nat) (updatedHtml : string)
         (urls base64Data : list string) : string :=
  match urls with
  | [] => updatedHtml
  | url :: rest =>
      let base64 := nth_error base64Data index in
      let updatedHtml' :=
        match base64 with
        | Some b =>
            if truthy b then replace updatedHtml url b
            else replace updatedHtml url ""
        | None => replace updatedHtml url ""
        end in
      replaceImageUrls_from (S index) updatedHtml' rest base64Data
  end.

Definition replaceImageUrlsWithBase64 (html : string)
           (urls base64Data : list string) : string :=
  replaceImageUrls_from 0 html urls base64Data.

(** The fields of an e-mail that [fetchEmailContent] returns and
    [prepareEmailContent] reads. *)
Record Email := {
  HtmlBody : option string;
  TextBody : option string;
  from : option string;
  date : option string
}.

Section Network.
Context {N : Type} (http : HttpOps N).

Definition axios_get (url : string) : M (NetWorld N) AxiosResponse :=
  fun w =>
    let (r, n) := http_get http (net w) url in
    (r, {| net := n; requests := (requests w ++ [url])%list |}).

(** [fetchImageWithFallback]: the data URI, or [null]. *)
Definition fetchImageWithFallback (url savePath : string)
  : M (NetWorld N) (option string) :=
  try_catch
    (response <- axios_get url ;;
     let base64Data := Base64.encode (response_data response) in
     let mimeType := or_else (content_type response) "image/png" in
     ret (Some ("data:" ++ mimeType ++ ";base64," ++ base64Data)))
    (fun error =>
       let errorMessage := message error in
       if test networkErrorRegex errorMessage then ret None
       else ret None).

(** [saveImagesLocally]: the loop over [imageUrls]; [base64ImageData]
    is the array built so far. *)
Fixpoint saveImages_loop (imageUrls : list string) (savePath : string)
         (base64ImageData : list string) : M (NetWorld N) (list string) :=
  match imageUrls with
  | [] => ret base64ImageData
  | url :: rest =>
      pushed <-
        try_catch
          (base64Data <- fetchImageWithFallback url savePath ;;
           match base64Data with
           | Some d =>
               if truthy d then ret (base64ImageData ++ [d])%list
               else ret base64ImageData
           | None => ret base64ImageData
           end)
          (fun error =>
             let errorMessage := message error in
             if test networkErrorRegex errorMessage then ret base64ImageData
             else ret base64ImageData) ;;
      saveImages_loop rest savePath pushed
  end.

Definition saveImagesLocally (imageUrls : list string) (savePath : string)
  : M (NetWorld N) (list string) :=
  saveImages_loop imageUrls savePath [].

Definition prepareEmailContent (email : Email) (savePath : string)
  : M (NetWorld N) string :=
  if truthy_opt (HtmlBody email) then
    let html := or_else (HtmlBody email) "" in
    let imageUrls := extractImageUrls html in
    base64ImageData <- saveImagesLocally imageUrls savePath ;;
    ret (replaceImageUrlsWithBase64 html imageUrls base64ImageData)
  else if truthy_opt (TextBody email) then
    ret ("<html><body><pre>" ++ or_else (TextBody email) ""
           ++ "</pre></body></html>")
  else ret "<html><body><p>No content available.</p></body></html>".
End Network.

(** *** [fetchEmailContent] *)

(** The classes [[^<\s]] and [[^>\s]]. *)
Definition not_lt_space (c : ascii) : bool := is_not "<" c && negb (is_space c).
Definition not_gt_space (c : ascii) : bool := is_not ">" c && negb (is_space c).

(** The expression [<([^>]+)>|^[^<\s]+@[^>\s]+$] and its two
    alternatives. *)
Definition angleAddress : regex :=
  Seq (Chars "<") (Seq (Group 1 (ClassPlus (is_not ">"))) (Chars ">")).

Definition bareAddress : regex :=
  Seq Bol
    (Seq (ClassPlus not_lt_space)
       (Seq (Chars "@") (Seq (ClassPlus not_gt_space) Eol))).

Definition fromRegex : regex := Alt angleAddress bareAddress.

(** [headers.find(header => header.name.toLowerCase() === key)]. *)
Definition findHeader (key : string) (headers : list Header) : option Header :=
  find (fun header => toLowerCase (name header) =? key) headers.

(** The sender: the text of group 1, else the whole match, trimmed;
    ['unknown'] without a header or without a match. *)
Definition extractFrom (headers : list Header) : string :=
  match findHeader "from" headers with
  | Some fromHeader =>
      match match_ fromRegex (value fromHeader) with
      | Some emailMatch =>
          trim (or_else (capture 1 (m_caps emailMatch)) (m_text emailMatch))
      | None => "unknown"
      end
  | None => "unknown"
  end.

(** The date: [new Date(value).toISOString()], which throws a
    [RangeError] on an Invalid Date; [''] without a header. *)
Definition extractDate {W : Type} (clock : JsDate.DateOps)
           (headers : list Header) : M W string :=
  match findHeader "date" headers with
  | Some dateHeader =>
      match JsDate.Date_parse clock (value dateHeader) with
      | Some t => ret (JsDate.toISOString t)
      | None => throw (RangeError "Invalid time value")
      end
  | None => ret ""
  end.

Section Bodies.
(** [Buffer.from(data, 'base64').toString('utf-8')]. *)
Variable decode : string -> string.

(** [part.body?.data || ''], decoded. *)
Definition partContent (part : MessagePart) : string :=
  decode (or_else (match body part with Some b => data b | None => None end) "").

Definition hasMimeType (mime : string) (part : MessagePart) : bool :=
  match mimeType part with
  | Some m => m =? mime
  | None => false
  end.

(** One round of the loop of [extractBodyFromParts] on [part]:
    [Some r] when the loop returns [r], [None] when it goes on to the
    next part. The inner [loop] is [extractBodyFromParts] on
    [part.parts]. *)
Fixpoint visitPart (mime : string) (part : MessagePart) : option string :=
  if hasMimeType mime part then Some (partContent part)
  else
    match parts part with
    | Some nested =>
        let nestedBody :=
          (fix loop (ps : list MessagePart) : string :=
             match ps with
             | [] => ""
             | p :: rest =>
                 match visitPart mime p with
                 | Some r => r
                 | None => loop rest
                 end
             end) nested in
        if truthy nestedBody then Some nestedBody else None
    | None => None
    end.

Fixpoint extractBodyFromParts (parts : list MessagePart) (mime : string)
  : string :=
  match parts with
  | [] => ""
  | part :: rest =>
      match visitPart mime part with
      | Some r => r
      | None => extractBodyFromParts rest mime
      end
  end.

(** The bodies of a payload: [(htmlBody, textBody)]. *)
Definition extractBodies (payload : MessagePart) : string * string :=
  match parts payload with
  | Some ps =>
      (extractBodyFromParts ps "text/html",
       extractBodyFromParts ps "text/plain")
  | None =>
      if hasMimeType "text/html" payload then (partContent payload, "")
      else if hasMimeType "text/plain" payload then ("", partContent payload)
      else ("", "")
  end.

Definition fetchEmailContent {S : Type} (service : GmailOps S)
           (clock : JsDate.DateOps) (messageId : string) : M S Email :=
  try_catch
    (response <-
       users_messages_get service
         {| get_userId := "me"; get_id := messageId; format := full |} ;;
     match payload response with
     | None =>
         throw (TypeError "Cannot read properties of undefined (reading 'headers')")
     | Some payload =>
         let headers :=
           match GmailApi.headers payload with Some hs => hs | None => [] end in
         let from := extractFrom headers in
         date <- extractDate clock headers ;;
         let '(htmlBody, textBody) := extractBodies payload in
         ret {| HtmlBody := Some htmlBody; TextBody := Some textBody;
                from := Some from; date := Some date |}
     end)
    (fun error => throw error).
End Bodies.

(** *** [sanitizeHeading] *)

(** The class of the expression of [stockIllegalSymbols]: backslash, slash,
    colon, bar, hash, caret and the square brackets. *)
Definition stockIllegalSymbol (c : ascii) : bool :=
  existsb (Ascii.eqb c) ["\"; "/"; ":"; "|"; "#"; "^"; "["; "]"]%char.

(** [text.replace(re, '')] for a [g] expression that is one character
    class. *)
Fixpoint removeAll (p : ascii -> bool) (s : string) : string :=
  match s with
  | EmptyString => EmptyString
  | String c s' => if p c then removeAll p s' else String c (removeAll p s')
  end.

Definition sanitizeHeading (text : string) : string :=
  trim (removeAll stockIllegalSymbol text).

End Files.

(* ================================================================== *)
(** ** [src/api/google/gmail.ts] *)

Module Gmail.
Import JsString Eff GmailApi.
Local Open Scope eff_scope.

Record MessageSummary := { subject : string; messageId : string }.

(** The subject of a message fetched with [format: 'metadata']. *)
Definition subjectOf (message : Message) : string :=
  let headers :=
    match payload message with
    | Some p => match GmailApi.headers p with Some hs => hs | None => [] end
    | None => []
    end in
  let subjectHeader := find (fun header => name header =? "Subject") headers in
  or_else (option_map value subjectHeader) "No Subject".

Section Service.
Context {S : Type} (service : GmailOps S).

(** The loop over [messageIds]; [messages] is the array built so far. *)
Fixpoint collectSubjects (messageIds : list (option string))
         (messages : list MessageSummary) : M S (list MessageSummary) :=
  match messageIds with
  | [] => ret messages
  | messageId :: rest =>
      if negb (truthy_opt messageId) then collectSubjects rest messages
      else
        let id := or_else messageId "" in
        pushed <-
          try_catch
            (message <-
               users_messages_get service
                 {| get_userId := "me"; get_id := id;
                    format := metadata ["Subject"] |} ;;
             ret (messages ++ [{| subject := subjectOf message;
                                  messageId := id |}])%list)
            (fun err => ret messages) ;;
        collectSubjects rest pushed
  end.

Definition fetchEmailsWithLabelSubjects (accountName : string)
  : M S (list MessageSummary) :=
  try_catch
    (response <-
       users_messages_list service
         {| list_userId := "me"; q := "label:Send2Obsidian" |} ;;
     if negb (status response =? 200)%Z then ret []
     else
       let messageIds :=
         match messages response with
         | Some ms => List.map id ms
         | None => []
         end in
       collectSubjects messageIds [])
    (fun err => ret []).
End Service.

End Gmail.

(* ================================================================== *)
(** ** [src/api/google/auth.ts] *)

Module Auth.
Import JsString Eff.

(** [GoogleCredentials], as [getGoogleCredentials] builds it. *)
Record GoogleCredentials := {
  client_id : string;
  client_secret : string;
  redirect_uris : list string;
  redirect_port : Z
}.

(** What [getAuthClient] uses of [google-auth-library] and of [JSON]:
    the constructor of [OAuth2Client], [JSON.parse] and
    [setCredentials]. *)
Record AuthLib (Client Token : Type) := {
  OAuth2Client_new : string -> string -> option string -> Result Client;
  JSON_parse : string -> Result Token;
  setCredentials : Client -> Token -> Client
}.
Arguments OAuth2Client_new {Client Token}.
Arguments JSON_parse {Client Token}.
Arguments setCredentials {Client Token}.

(** [getAuthClient]: [None] is [undefined]. *)
Definition getAuthClient {Client Token : Type} (lib : AuthLib Client Token)
           (credentials : GoogleCredentials) (token : option string)
  : option Client :=
  if negb (truthy_opt token) then None
  else
    match OAuth2Client_new lib (client_id credentials)
            (client_secret credentials) (hd_error (redirect_uris credentials))
    with
    | Throw err => None
    | Return oAuth2Client =>
        match JSON_parse lib (or_else token "") with
        | Return parsed => Some (setCredentials lib oAuth2Client parsed)
        | Throw err => Some oAuth2Client
        end
    end.

(** *** [validateTokenScopes] *)

Definition SCOPES : list string :=
  [ "https://www.googleapis.com/auth/contacts.readonly";
    "https://www.googleapis.com/auth/contacts.other.readonly";
    "https://www.googleapis.com/auth/directory.readonly";
    "https://www.googleapis.com/auth/calendar.readonly";
    "https://www.googleapis.com/auth/calendar.events.readonly";
    "https://www.googleapis.com/auth/userinfo.profile";
    "https://www.googleapis.com/auth/gmail.readonly";
    "https://www.googleapis.com/auth/gmail.modify";
    "https://www.googleapis.com/auth/gmail.labels" ].

(** [TokenInfo], as far as it is read. *)
Record TokenInfo := { scopes : list string }.

(** What [validateTokenScopes] uses of the client: the stored access token
    and the introspection call, which may throw. *)
Record TokenLib (Client : Type) := {
  access_token : Client -> option string;
  getTokenInfo : Client -> option string -> Result TokenInfo
}.
Arguments access_token {Client}.
Arguments getTokenInfo {Client}.

(** [Array.prototype.includes] on strings. *)
Definition includes (l : list string) (x : string) : bool :=
  existsb (String.eqb x) l.

Definition validateTokenScopes {Client : Type} (lib : TokenLib Client)
           (oAuth2Client : Client) : bool :=
  match getTokenInfo lib oAuth2Client (access_token lib oAuth2Client) with
  | Return tokenInfo =>
      let missingScopes :=
        filter (fun scope => negb (includes (scopes tokenInfo) scope)) SCOPES in
      if (0 <? List.length missingScopes)%nat then false else true
  | Throw err => false
  end.

End Auth.

(* ================================================================== *)
(** ** [src/main.ts]: the date of the file name *)

Module Main.
Import JsString.

(** [email?.date ? new Date(email.date) : new Date()]: the time value
    used for the file name, [None] for an Invalid Date. *)
Definition emailDate (clock : JsDate.DateOps) (email : Files.Email) : option Z :=
  if truthy_opt (Files.date email)
  then JsDate.Date_parse clock (or_else (Files.date email) "")
  else Some (JsDate.Date_now clock).

End Main.

(* ================================================================== *)
(** ** JavaScript numbers that are integers

    [NaN] and the integers; a numeral is printed and read in decimal, as
    JavaScript does for integers below 2^53. *)

Module JsNumber.
Import JsString.
Local Open Scope Z_scope.

Inductive number : Type :=
| NaN
| Num (z : Z).

(** The decimal digits of a natural number, most significant first. *)
Fixpoint digits (fuel : nat) (n : Z) : string :=
  match fuel with
  | O => EmptyString
  | S fuel' =>
      if n <? 10 then String (JsDate.decimal_digit n) EmptyString
      else (digits fuel' (n / 10) ++ String (JsDate.decimal_digit n) EmptyString)%string
  end.

(** A number has no more decimal digits than binary ones. *)
Definition decimal (n : Z) : string := digits (S (Z.to_nat (Z.log2 n))) n.

(** [String(x)] and [`${x}`] on a number. *)
Definition toString (x : number) : string :=
  match x with
  | NaN => "NaN"
  | Num z => if z <? 0 then String "-" (decimal (- z)) else decimal z
  end.

Definition digitValue (c : ascii) : Z := Z.of_nat (code c) - 48.

(** The value of the digits at the start of [s], after the value [acc] of
    the digits before. *)
Fixpoint leadingValue (acc : Z) (s : string) : Z :=
  match s with
  | String c s' =>
      if is_digit c then leadingValue (acc * 10 + digitValue c) s' else acc
  | EmptyString => acc
  end.

(** [parseInt(s, 10)]: leading whitespace, a sign, then the longest run of
    digits; [NaN] without a digit. *)
Definition parseInt (s : string) : number :=
  let trimmed := trimStart s in
  let '(sign, body) :=
    match trimmed with
    | String c rest =>
        if Ascii.eqb c "-" then (-1, rest)
        else if Ascii.eqb c "+" then (1, rest)
        else (1, trimmed)
    | EmptyString => (1, trimmed)
    end in
  match body with
  | String c _ => if is_digit c then Num (sign * leadingValue 0 body) else NaN
  | EmptyString => NaN
  end.

Fixpoint repeat (c : ascii) (n : nat) : string :=
  match n with
  | O => EmptyString
  | S n' => String c (repeat c n')
  end.

(** [s.padStart(targetLength, fill)] with a one-character filler. *)
Definition padStart (targetLength : nat) (fill : ascii) (s : string) : string :=
  (repeat fill (targetLength - String.length s) ++ s)%string.

End JsNumber.

(* ================================================================== *)
(** ** [src/settings/google-credentials.ts] *)

Module Credentials.
Import JsString.

(** What the setting [client_redirect_uri_port] can hold at run time. *)
Inductive PortValue : Type :=
| PortUndefined
| PortString (s : string)
| PortNumber (n : JsNumber.number).

(** The settings read here. *)
Record Settings := {
  client_id : option string;
  client_secret : option string;
  client_redirect_uri_port : PortValue
}.

(** The port after [typeof port === 'string' ? parseInt(port, 10) : port]:
    a number, or [undefined]. *)
Definition redirectPort (port : PortValue) : option JsNumber.number :=
  match port with
  | PortString s => Some (JsNumber.parseInt s)
  | PortNumber n => Some n
  | PortUndefined => None
  end.

(** A value in a template literal. *)
Definition interpolate (v : option JsNumber.number) : string :=
  match v with
  | Some n => JsNumber.toString n
  | None => "undefined"
  end.

Record GoogleCredentials := {
  cred_client_id : option string;
  cred_client_secret : option string;
  redirect_uris : list string;
  redirect_port : option JsNumber.number
}.

Definition getGoogleCredentials (settings : Settings) : GoogleCredentials :=
  let redirectPort := redirectPort (client_redirect_uri_port settings) in
  {| cred_client_id := client_id settings;
     cred_client_secret := client_secret settings;
     redirect_uris := ["http://127.0.0.1:" ++ interpolate redirectPort];
     redirect_port := redirectPort |}.

(** [s?.length > 0] on a possibly undefined string. *)
Definition nonEmpty (s : option string) : bool :=
  match s with
  | Some v => (0 <? String.length v)%nat
  | None => false
  end.

Definition hasGoogleCredentials (settings : Settings) : bool :=
  nonEmpty (client_id settings) && nonEmpty (client_secret settings)
  && match client_redirect_uri_port settings with
     | PortUndefined => false
     | _ => true
     end.

End Credentials.

(* ================================================================== *)
(** ** [src/main.ts]: one message of the command [process-emails] *)

Module Orchestrator.
Import JsString Eff GmailApi.
Local Open Scope eff_scope.

(** The local calendar fields of a [Date]. *)
Record LocalFields := {
  getFullYear : Z;
  getMonth : Z;
  getDate : Z;
  getHours : Z;
  getMinutes : Z;
  getSeconds : Z
}.

(** A getter of a [Date] that may be invalid: [NaN] on an Invalid Date. *)
Definition getter (f : LocalFields -> Z) (d : option LocalFields) : JsNumber.number :=
  match d with
  | Some fields => JsNumber.Num (f fields)
  | None => JsNumber.NaN
  end.

Definition plusOne (n : JsNumber.number) : JsNumber.number :=
  match n with
  | JsNumber.Num z => JsNumber.Num (z + 1)
  | JsNumber.NaN => JsNumber.NaN
  end.

Definition twoDigits (n : JsNumber.number) : string :=
  JsNumber.padStart 2 "0" (JsNumber.toString n).

(** The file name of a message: date, time, sender and subject. *)
Definition fileName (emailDate : option LocalFields) (from : option string)
           (subject : string) : string :=
  let from := or_else from "unknown" in
  let year := getter getFullYear emailDate in
  let month := twoDigits (plusOne (getter getMonth emailDate)) in
  let day := twoDigits (getter getDate emailDate) in
  let hours := twoDigits (getter getHours emailDate) in
  let minutes := twoDigits (getter getMinutes emailDate) in
  let seconds := twoDigits (getter getSeconds emailDate) in
  let datePart := JsNumber.toString year ++ month ++ day in
  let timePart := hours ++ minutes ++ seconds in
  let sanitizedSubject :=
    Files.removeInvalidFileNameChars (or_else (Some subject) "Untitled") in
  let sanitizedEmail := Files.removeInvalidFileNameChars from in
  datePart ++ "_" ++ timePart ++ " - " ++ sanitizedEmail ++ " -- "
    ++ sanitizedSubject ++ ".htm".

(** The world of a run: the Gmail service, the network, the file system
    and the notices shown to the user. *)
Record World (S N FS : Type) := {
  mail : S;
  network : Files.NetWorld N;
  storage : Files.FsWorld FS;
  notices : list string
}.
Arguments mail {S N FS}.
Arguments network {S N FS}.
Arguments storage {S N FS}.
Arguments notices {S N FS}.

Section Run.
Context {S N FS : Type}.
Variable service : GmailOps S.
Variable http : Files.HttpOps N.
Variable fs : Files.FsOps FS.
Variable clock : JsDate.DateOps.
(** The host's time zone: the local fields of a time value. *)
Variable localTime : Z -> LocalFields.
Variable decode : string -> string.

Definition onMail {A : Type} (c : M S A) : M (World S N FS) A :=
  fun w =>
    let (r, s) := c (mail w) in
    (r, {| mail := s; network := network w; storage := storage w;
           notices := notices w |}).

Definition onNetwork {A : Type} (c : M (Files.NetWorld N) A) : M (World S N FS) A :=
  fun w =>
    let (r, n) := c (network w) in
    (r, {| mail := mail w; network := n; storage := storage w;
           notices := notices w |}).

Definition onStorage {A : Type} (c : M (Files.FsWorld FS) A) : M (World S N FS) A :=
  fun w =>
    let (r, d) := c (storage w) in
    (r, {| mail := mail w; network := network w; storage := d;
           notices := notices w |}).

(** [new Notice(text)]. *)
Definition Notice (text : string) : M (World S N FS) unit :=
  fun w =>
    (Return tt, {| mail := mail w; network := network w; storage := storage w;
                   notices := (notices w ++ [text])%list |}).

(** The body of the loop over the messages of an account. *)
Definition processMessage (vaultRoot subfolderStructure : string)
           (message : Gmail.MessageSummary) : M (World S N FS) unit :=
  try_catch
    (email <- onMail (Files.fetchEmailContent decode service clock
                        (Gmail.messageId message)) ;;
     let emailDate := option_map localTime (Main.emailDate clock email) in
     let sanitizedFilename :=
       fileName emailDate (Files.from email) (Gmail.subject message) in
     emailContent <- onNetwork (Files.prepareEmailContent http email "") ;;
     targetPath <- onStorage (Files.saveFileToStack fs vaultRoot
                                subfolderStructure sanitizedFilename
                                emailContent) ;;
     ret tt)
    (fun error => Notice ("Failed to process email: " ++ Eff.message error)).

Fixpoint processMessages (vaultRoot subfolderStructure : string)
         (messages : list Gmail.MessageSummary) : M (World S N FS) unit :=
  match messages with
  | [] => ret tt
  | message :: rest =>
      processMessage vaultRoot subfolderStructure message ;;;
      processMessages vaultRoot subfolderStructure rest
  end.
End Run.

End Orchestrator.

(* ================================================================== *)
(** ** [src/models/Person.ts] *)

Module Person.
Import JsString.

(** The fields of [PersonResult] that [getContactUrl] reads. *)
Record PersonResult := {
  resourceName : option string
}.

Definition getContactUrl (person : PersonResult) : string :=
  if negb (truthy_opt (resourceName person)) then "unknown"
  else replace (or_else (resourceName person) "") "people/"
         "https://contacts.google.com/person/".

End Person.

(* ================================================================== *)
(** ** Hosts for running the pipeline on concrete inputs *)

Module Hosts.
Import JsString Eff GmailApi.

(** A file system in memory that never fails: the directories created and
    the files written, most recent first. *)
Record MemFs := { dirs : list string; files : list (string * string) }.

Definition memFs : Files.FsOps MemFs :=
  {| Files.fs_existsSync := fun d path => existsb (String.eqb path) (dirs d);
     Files.fs_mkdirSync := fun d path =>
       (Return tt, {| dirs := path :: dirs d; files := files d |});
     Files.fs_writeFileSync := fun d path data =>
       (Return tt, {| dirs := dirs d; files := (path, data) :: files d |}) |}.

Definition emptyDisk : Files.FsWorld MemFs :=
  {| Files.disk := {| dirs := []; files := [] |}; Files.calls := [] |}.

(** A network that answers the successive requests from a script; past
    the end of the script every request fails. *)
Definition scripted : Files.HttpOps (list (Result Files.AxiosResponse)) :=
  {| Files.http_get := fun script url =>
       match script with
       | r :: script' => (r, script')
       | [] => (Throw (Error "Network Error"), [])
       end |}.

Definition online (script : list (Result Files.AxiosResponse))
  : Files.NetWorld (list (Result Files.AxiosResponse)) :=
  {| Files.net := script; Files.requests := [] |}.

(** A mailbox without state: the answer of the list query and, for each
    message id, the answer of the message query. *)
Definition mailbox (listing : Result ListResponse)
           (answer : string -> Result Message) : GmailOps unit :=
  {| users_messages_list := fun _ s => (listing, s);
     users_messages_get := fun params s => (answer (get_id params), s) |}.

(** An authentication library whose tokens are the strings starting with
    an opening brace. *)
Definition authLib : Auth.AuthLib (string * option string) string :=
  {| Auth.OAuth2Client_new := fun id secret uri => Return (id, None);
     Auth.JSON_parse := fun s =>
       match s with
       | String "{" _ => Return s
       | _ => Throw {| err_name := "SyntaxError";
                       message := "Unexpected token in JSON" |}
       end;
     Auth.setCredentials := fun c t => (fst c, Some t) |}.

(** A clock that parses one date only, in the form of a mail header and
    in ISO form. *)
Definition clock : JsDate.DateOps :=
  {| JsDate.Date_parse := fun s =>
       if (s =? "Fri, 15 Mar 2024 00:00:00 +0000")
          || (s =? "2024-03-15T00:00:00.000Z")
       then Some 1710460800000%Z
       else None;
     JsDate.Date_now := 1730000000000%Z |}.

(** The local time of a host whose time zone is UTC. *)
Definition utc (t : Z) : Orchestrator.LocalFields :=
  let day := (t / JsDate.msPerDay)%Z in
  let ms := (t mod JsDate.msPerDay)%Z in
  let '(y, m, d) := JsDate.civil_from_days day in
  {| Orchestrator.getFullYear := y;
     Orchestrator.getMonth := (m - 1)%Z;
     Orchestrator.getDate := d;
     Orchestrator.getHours := (ms / 3600000)%Z;
     Orchestrator.getMinutes := (ms / 60000 mod 60)%Z;
     Orchestrator.getSeconds := (ms / 1000 mod 60)%Z |}.

End Hosts.

(* ================================================================== *)
(** ** The vocabulary of the specification *)

Module Spec.
Import JsString RegExp Eff GmailApi.

(** The pattern of the specification for a dated file name: eight digits
    at the start. *)
Definition eightDigits : regex := Seq Bol (ClassRep is_digit 8).

(** A segment that [path.normalize] keeps as it is. *)
Definition normalSegment (seg : string) : bool :=
  truthy seg && negb (seg =? ".") && negb (seg =? "..").

(** A template that is a relative path in normal form: its segments
    between slashes are non-empty and none is [.] or [..]. *)
Definition normalRelative (template : string) : bool :=
  List.forallb normalSegment (split Path.sep template).

(** The subfolder that [saveFileToStack] resolves for a file name
    ([None] when it throws before). *)
Definition resolvedSubfolder (subfolderStructure filename : string)
  : option string :=
  option_map (Files.subfolder subfolderStructure)
             (match_ Files.dateRegex filename).

(** [s] starts with [p]. *)
Definition startsWith (p s : string) : bool :=
  match strip_prefix p s with Some _ => true | None => false end.

(** The template without the one slash it may end with. *)
Definition withoutTrailingSlash (template : string) : string :=
  if Path.trailingSeparator template
  then substring 0 (String.length template - 1) template
  else template.

(** A template that [path.join] leaves as written under
    [Chronological/Email]: a relative path in normal form, which may end
    with one slash. *)
Definition joinedAsWritten (template : string) : bool :=
  normalRelative (withoutTrailingSlash template).

(** What a template is made of, read from left to right: where [YYYY-MM]
    stands, the token year-month; where [YYYY] stands and [YYYY-MM] does
    not, the token year; any other character stands for itself. *)
Inductive Token : Type :=
| Lit (c : ascii)
| Year
| YearMonth.

(** [skip] counts the characters of the last token still to pass over. *)
Fixpoint tokens (skip : nat) (template : string) : list Token :=
  match template with
  | EmptyString => []
  | String c rest =>
      match skip with
      | S k => tokens k rest
      | O =>
          if startsWith "YYYY-MM" template then YearMonth :: tokens 6 rest
          else if startsWith "YYYY" template then Year :: tokens 3 rest
          else Lit c :: tokens 0 rest
      end
  end.

Definition isToken (tok : Token) : bool :=
  match tok with
  | Lit _ => false
  | Year | YearMonth => true
  end.

(** The tokens [YYYY] and [YYYY-MM] of a template, in their order. *)
Definition kinds (template : string) : list Token :=
  List.filter isToken (tokens 0 template).

(** A template with no token, with one token [YYYY], or with one token
    [YYYY] and one token [YYYY-MM] after it. *)
Definition tokensApart (template : string) : bool :=
  match kinds template with
  | [] => true
  | [Year] => true
  | [Year; YearMonth] => true
  | _ => false
  end.

Definition substitute (year month : string) (tok : Token) : string :=
  match tok with
  | Lit c => String c EmptyString
  | Year => year
  | YearMonth => year ++ "-" ++ month
  end.

(** The template with the year put for every token [YYYY] and year-month
    for every token [YYYY-MM]. *)
Definition substituted (template year month : string) : string :=
  List.fold_right (fun tok s => substitute year month tok ++ s) ""
    (tokens 0 template).

(** The subfolder as the specification words it: the fixed prefix, then
    the template with its tokens substituted. *)
Definition claimedSubfolder (template year month : string) : string :=
  "Chronological/Email/" ++ substituted template year month.

(** An [img] tag with the given [src]. *)
Definition imgTag (src : string) : string :=
  "<img src=" ++ Files.q ++ src ++ Files.q ++ ">".

(** The data URI of a fetched image. *)
Definition dataUri (response : Files.AxiosResponse) : string :=
  "data:" ++ or_else (Files.content_type response) "image/png"
    ++ ";base64," ++ Base64.encode (Files.response_data response).

(** The data URIs that the fetch outcomes of a run leave in the array of
    [saveImagesLocally]. *)
Fixpoint fetched (outcomes : list (Result Files.AxiosResponse)) : list string :=
  match outcomes with
  | [] => []
  | Return response :: rest => dataUri response :: fetched rest
  | Throw _ :: rest => fetched rest
  end.

(** The shell around a plain-text body, and the page for no body. *)
Definition preformatted (text : string) : string :=
  "<html><body><pre>" ++ text ++ "</pre></body></html>".
Definition noContent : string :=
  "<html><body><p>No content available.</p></body></html>".

(** The parts of a MIME tree in depth-first order, a part before its
    subparts. *)
Fixpoint flatten (part : MessagePart) : list MessagePart :=
  match part with
  | Part _ _ _ ps =>
      part :: match ps with
              | Some nested => List.flat_map flatten nested
              | None => []
              end
  end.

(** The first part of the given MIME type in depth-first order. *)
Definition firstOfType (mime : string) (parts : list MessagePart)
  : option MessagePart :=
  List.find (Files.hasMimeType mime) (List.flat_map flatten parts).

(** A leaf part and a container part. *)
Definition leaf (mime data : string) : MessagePart :=
  Part (Some mime) None (Some {| GmailApi.data := Some data |}) None.
Definition container (mime : string) (nested : list MessagePart) : MessagePart :=
  Part (Some mime) None None (Some nested).

(** The summaries of the messages whose query is answered, in the order
    of the ids; ids that are missing or empty are passed over. *)
Definition summaries (answer : string -> Result Message)
           (messageIds : list (option string)) : list Gmail.MessageSummary :=
  List.flat_map
    (fun messageId =>
       match messageId with
       | Some id =>
           if truthy id then
             match answer id with
             | Return message =>
                 [{| Gmail.subject := Gmail.subjectOf message;
                     Gmail.messageId := id |}]
             | Throw _ => []
             end
           else []
       | None => []
       end)
    messageIds.

Definition messageIdsOf (response : ListResponse) : list (option string) :=
  match messages response with
  | Some ms => List.map id ms
  | None => []
  end.

Definition listQuery : ListParams :=
  {| list_userId := "me"; q := "label:Send2Obsidian" |}.

Definition fullQuery (messageId : string) : GetParams :=
  {| get_userId := "me"; get_id := messageId; format := full |}.

Definition headersOf (payload : MessagePart) : list Header :=
  match GmailApi.headers payload with Some hs => hs | None => [] end.

(** A header value with an address in angle brackets: some text, then a
    non-empty run without a closing bracket between [<] and [>]. *)
Definition angleForm (v : string) : Prop :=
  exists pre addr post,
    v = pre ++ "<" ++ addr ++ ">" ++ post
    /\ addr <> "" /\ JsString.forallb (Files.is_not ">") addr = true.

(** A header value that is a bare address token: no whitespace, a
    non-empty local part without [<], an [@], a non-empty rest without
    [>]. *)
Definition bareForm (v : string) : Prop :=
  exists local domain,
    v = local ++ "@" ++ domain
    /\ local <> "" /\ JsString.forallb Files.not_lt_space local = true
    /\ domain <> "" /\ JsString.forallb Files.not_gt_space domain = true.

(** A string with a closing bracket somewhere after its first opening
    bracket. *)
Definition bracketed (s : string) : Prop :=
  exists a r, s = a ++ "<" ++ r
              /\ JsString.forallb (Files.is_not "<") a = true
              /\ JsString.forallb (Files.is_not ">") r = false.

(** A text in which no bracketed run can start: every opening angle
    bracket is directly followed by a closing one. *)
Fixpoint emptyBrackets (s : string) : bool :=
  match s with
  | EmptyString => true
  | String c rest =>
      (if Ascii.eqb c "<" then startsWith ">" rest else true)
      && emptyBrackets rest
  end.

(** The class of the characters of a [src] value in [imgRegex]. *)
Definition srcChar (c : ascii) : bool :=
  Files.is_not Files.dquote c && Files.is_not ">" c.

(** [url] is the [src] of an [img] tag of [html]: after [<img] come
    attributes without [>], then [src=], the quoted [url]. *)
Definition imgSource (html url : string) : Prop :=
  exists pre attrs rest,
    html = pre ++ "<img" ++ attrs ++ ("src=" ++ Files.q) ++ url ++ Files.q ++ rest
    /\ attrs <> "" /\ JsString.forallb (Files.is_not ">") attrs = true.

(** A character that [removeInvalidFileNameChars] keeps. *)
Definition validFileNameChar (c : ascii) : bool :=
  negb (Files.invalidFileNameChar c).

(** A character that [sanitizeHeading] keeps. *)
Definition legalHeadingChar (c : ascii) : bool :=
  negb (Files.stockIllegalSymbol c).

(** The calls that write a file, and their number. *)
Definition isWrite (c : Files.FsCall) : bool :=
  match c with
  | Files.WriteFileSync _ _ => true
  | _ => false
  end.

Definition writes (cs : list Files.FsCall) : nat :=
  List.length (List.filter isWrite cs).

(** The notice shown for a message that could not be processed. *)
Definition failureNotice (text : string) : bool :=
  startsWith "Failed to process email: " text.

(** What one message leaves behind: no notice and one call that writes a
    file, or one failure notice and at most one call that writes. *)
Definition handled (added : list string) (new : list Files.FsCall) : bool :=
  match added with
  | [] => (writes new =? 1)%nat
  | [notice] => failureNotice notice && (writes new <=? 1)%nat
  | _ => false
  end.

(** A summary whose subject and message id are not empty. *)
Definition named (summary : Gmail.MessageSummary) : bool :=
  truthy (Gmail.subject summary) && truthy (Gmail.messageId summary).

(** The number of message ids in the answer of the list query. *)
Definition listed (answer : Result ListResponse) : nat :=
  match answer with
  | Return response => List.length (messageIdsOf response)
  | Throw _ => 0
  end.

End Spec.

(* ================================================================== *)
(** * Properties *)

Import JsString RegExp Eff GmailApi Spec.

(** ** Strings *)

Lemma append_nil_r (s : string) : s ++ "" = s.
Proof. induction s as [|c s IH]; simpl; [reflexivity | now rewrite IH]. Qed.

Lemma append_assoc (a b c : string) : (a ++ b) ++ c = a ++ (b ++ c).
Proof. induction a as [|x a IH]; simpl; [reflexivity | now rewrite IH]. Qed.

Lemma length_append (a b : string) :
  String.length (a ++ b) = String.length a + String.length b.
Proof. induction a as [|x a IH]; simpl; [reflexivity | now rewrite IH]. Qed.

Lemma substring_0_append (a b : string) :
  substring 0 (String.length a) (a ++ b) = a.
Proof. induction a as [|x a IH]; simpl; [now destruct b | now rewrite IH]. Qed.

Lemma substring_0_length (a : string) : substring 0 (String.length a) a = a.
Proof. rewrite <- (append_nil_r a) at 2. apply substring_0_append. Qed.

Lemma truthy_false (s : string) : truthy s = false -> s = "".
Proof. destruct s; [reflexivity | discriminate]. Qed.

Lemma truthy_true (s : string) : s <> "" -> truthy s = true.
Proof. destruct s; [congruence | reflexivity]. Qed.

Lemma truthy_append_l (a b : string) : truthy a = true -> truthy (a ++ b) = true.
Proof. destruct a; [discriminate | reflexivity]. Qed.

Lemma strip_prefix_append (p s : string) : strip_prefix p (p ++ s) = Some s.
Proof.
  induction p as [|c p IH]; simpl; [reflexivity|].
  now rewrite Ascii.eqb_refl.
Qed.

Lemma strip_prefix_sound (p s r : string) :
  strip_prefix p s = Some r -> s = p ++ r.
Proof.
  revert s; induction p as [|c p IH]; intros s H; simpl in *.
  - now inversion H.
  - destruct s as [|d s]; [discriminate|].
    destruct (Ascii.eqb c d) eqn:E; [|discriminate].
    apply Ascii.eqb_eq in E; subst d. now rewrite (IH _ H).
Qed.

(** ** The matcher *)

Section MatcherFacts.
Context {R : Type}.

(** A repetition of a character class hands to its continuation a suffix
    of the input, and the index of that suffix. *)
Lemma class_many_sound (p : ascii -> bool) (k : nat -> string -> option R) :
  forall s pos x,
    class_many p pos s k = Some x ->
    exists a s', s = a ++ s' /\ JsString.forallb p a = true
                 /\ k (pos + String.length a) s' = Some x.
Proof.
  induction s as [|c s IH]; intros pos x H; simpl in H.
  - exists "", "". now rewrite Nat.add_0_r.
  - destruct (p c) eqn:Hp.
    + destruct (class_many p (S pos) s k) eqn:Hm.
      * inversion H; subst r.
        destruct (IH _ _ Hm) as (a & s' & -> & Ha & Hk).
        exists (String c a), s'. simpl. rewrite Hp, Ha.
        repeat split. now rewrite Nat.add_succ_r.
      * exists "", (String c s). now rewrite Nat.add_0_r.
    + exists "", (String c s). now rewrite Nat.add_0_r.
Qed.

Lemma class_plus_sound (p : ascii -> bool) (k : nat -> string -> option R) :
  forall s pos x,
    class_plus p pos s k = Some x ->
    exists a s', s = a ++ s' /\ a <> "" /\ JsString.forallb p a = true
                 /\ k (pos + String.length a) s' = Some x.
Proof.
  intros [|c s] pos x H; simpl in H; [discriminate|].
  destruct (p c) eqn:Hp; [|discriminate].
  destruct (class_many_sound _ _ _ _ _ H) as (a & s' & -> & Ha & Hk).
  exists (String c a), s'. simpl. rewrite Hp, Ha.
  repeat split; [discriminate|]. now rewrite Nat.add_succ_r.
Qed.

(** The longest repetition is tried first: when the class stops at [c]
    and the continuation accepts there, that is the result. *)
Lemma class_many_greedy (p : ascii -> bool) (k : nat -> string -> option R)
      (c : ascii) (r : string) (x : R) :
  p c = false ->
  forall a pos,
    JsString.forallb p a = true ->
    k (pos + String.length a) (String c r) = Some x ->
    class_many p pos (a ++ String c r) k = Some x.
Proof.
  intros Hc. induction a as [|d a IH]; intros pos Ha Hk; simpl in *.
  - rewrite Hc. now rewrite Nat.add_0_r in Hk.
  - apply andb_prop in Ha as [Hd Ha]. rewrite Hd.
    rewrite (IH (S pos) Ha); [reflexivity|].
    now rewrite Nat.add_succ_r in Hk.
Qed.

(** When the continuation accepts after some repetition, the repetition
    succeeds (maybe with a longer one). *)
Lemma class_many_complete (p : ascii -> bool) (k : nat -> string -> option R) :
  forall a s' pos x,
    JsString.forallb p a = true ->
    k (pos + String.length a) s' = Some x ->
    exists y, class_many p pos (a ++ s') k = Some y.
Proof.
  induction a as [|d a IH]; intros s' pos x Ha Hk; simpl in *.
  - rewrite Nat.add_0_r in Hk.
    destruct s' as [|c s']; simpl; [eauto|].
    destruct (p c); [|eauto].
    destruct (class_many p (S pos) s' k); eauto.
  - apply andb_prop in Ha as [Hd Ha]. rewrite Hd.
    rewrite Nat.add_succ_r in Hk.
    destruct (IH s' (S pos) x Ha Hk) as [y Hy]. rewrite Hy. eauto.
Qed.

(** A repetition fails when its continuation fails on every suffix that
    keeps the property [P], which the class cannot leave. *)
Lemma class_many_none (p : ascii -> bool) (k : nat -> string -> option R)
      (P : string -> Prop) :
  (forall c s, P (String c s) -> p c = true -> P s) ->
  (forall pos s, P s -> k pos s = None) ->
  forall s pos, P s -> class_many p pos s k = None.
Proof.
  intros Hstep Hk. induction s as [|c s IH]; intros pos HP; simpl.
  - now apply Hk.
  - destruct (p c) eqn:Hp; [|now apply Hk].
    rewrite (IH (S pos) (Hstep _ _ HP Hp)). now apply Hk.
Qed.

(** At the end of the input the longest repetition is the whole input. *)
Lemma class_many_greedy_end (p : ascii -> bool) (k : nat -> string -> option R)
      (x : R) :
  forall a pos,
    JsString.forallb p a = true ->
    k (pos + String.length a) "" = Some x ->
    class_many p pos a k = Some x.
Proof.
  induction a as [|d a IH]; intros pos Ha Hk; simpl in *.
  - now rewrite Nat.add_0_r in Hk.
  - apply andb_prop in Ha as [Hd Ha]. rewrite Hd.
    rewrite (IH (Datatypes.S pos) Ha); [reflexivity|].
    now rewrite Nat.add_succ_r in Hk.
Qed.
End MatcherFacts.

Lemma take_class_add (p : ascii -> bool) (n m : nat) :
  forall s,
    take_class p (n + m) s =
    match take_class p n s with
    | Some r => take_class p m r
    | None => None
    end.
Proof.
  induction n as [|n IH]; intros s; simpl; [reflexivity|].
  destruct s as [|c s]; [reflexivity|]. destruct (p c); [apply IH | reflexivity].
Qed.

Lemma take_class_substring (p : ascii -> bool) (n m : nat) :
  forall s r, take_class p n s = Some r -> substring n m s = substring 0 m r.
Proof.
  induction n as [|n IH]; intros s r H; simpl in H.
  - now inversion H.
  - destruct s as [|c s]; [discriminate|].
    destruct (p c); [|discriminate]. simpl. now apply IH.
Qed.

(** An expression anchored at the start matches at index 0 or nowhere. *)
Lemma search_Bol_later (r : regex) :
  forall s pos, search (Seq Bol r) (S pos) s = None.
Proof.
  induction s as [|c s IH]; intros pos; simpl; [reflexivity | apply IH].
Qed.

Lemma match_Bol (r : regex) (s : string) :
  match_ (Seq Bol r) s = match_at (Seq Bol r) 0 s.
Proof.
  unfold match_. destruct s as [|c s]; simpl.
  - now destruct (match_at (Seq Bol r) 0 "").
  - destruct (match_at (Seq Bol r) 0 (String c s)); [reflexivity|].
    apply search_Bol_later.
Qed.

(** ** File placement *)

Lemma test_eightDigits (s : string) :
  test eightDigits s =
  match take_class is_digit 8 s with Some _ => true | None => false end.
Proof.
  unfold test. fold (match_ eightDigits s). unfold eightDigits.
  rewrite match_Bol. unfold match_at. cbn [rmatch Nat.eqb].
  now destruct (take_class is_digit 8 s).
Qed.

(** What [dateRegex] yields, in terms of the digits taken. *)
Lemma match_dateRegex (s : string) :
  match_ Files.dateRegex s =
  match take_class is_digit 8 s with
  | Some rest =>
      Some {| m_index := 0; m_end := 8; m_text := substring 0 8 s;
              m_caps := [(2, substring 4 2 s); (1, substring 0 4 s)];
              m_rest := rest |}
  | None => None
  end.
Proof.
  unfold Files.dateRegex. rewrite match_Bol. unfold match_at.
  cbn [rmatch Nat.eqb].
  change 8 with (4 + (2 + 2)) at 1.
  rewrite take_class_add.
  destruct (take_class is_digit 4 s) as [s1|] eqn:H1; [|reflexivity].
  rewrite take_class_add.
  destruct (take_class is_digit 2 s1) as [s2|] eqn:H2; [|reflexivity].
  destruct (take_class is_digit 2 s2) as [s3|] eqn:H3; [|reflexivity].
  cbn. rewrite (take_class_substring _ _ 2 _ _ H1). reflexivity.
Qed.

Lemma match_dateRegex_digits (s : string) :
  test eightDigits s = true ->
  exists dateMatch,
    match_ Files.dateRegex s = Some dateMatch
    /\ Files.group 1 dateMatch = substring 0 4 s
    /\ Files.group 2 dateMatch = substring 4 2 s.
Proof.
  rewrite test_eightDigits, match_dateRegex.
  destruct (take_class is_digit 8 s) as [rest|]; [|discriminate].
  intros _. eexists. split; [reflexivity|]. split; reflexivity.
Qed.

Lemma match_dateRegex_none (s : string) :
  test eightDigits s = false -> match_ Files.dateRegex s = None.
Proof.
  rewrite test_eightDigits, match_dateRegex.
  now destruct (take_class is_digit 8 s).
Qed.

(** C2. A file name that does not start with eight digits (does not match
    the pattern [^\d{8}]) makes [saveFileToStack] throw, and the throw comes
    before any call of the file system: the disk and the record of calls
    are the ones the function was started with, so no file was written and
    no directory created. *)
Theorem saveFileToStack_rejects_undated
        (FS : Type) (fs : Files.FsOps FS)
        (vaultRoot subfolderStructure filename content : string)
        (w : Files.FsWorld FS) :
  test eightDigits filename = false ->
  Files.saveFileToStack fs vaultRoot subfolderStructure filename content w
  = (Throw (Error "Filename does not contain a valid date."), w).
Proof.
  intros H. unfold Files.saveFileToStack.
  now rewrite (match_dateRegex_none _ H).
Qed.

Lemma saveFileToStack_rejects_undated_witness :
  test eightDigits "2024-03-15 note.htm" = false
  /\ Files.saveFileToStack Hosts.memFs "/vault" "YYYY/YYYY-MM"
       "2024-03-15 note.htm" "<html></html>" Hosts.emptyDisk
     = (Throw (Error "Filename does not contain a valid date."),
        Hosts.emptyDisk).
Proof.
  split; [reflexivity|].
  apply (saveFileToStack_rejects_undated _ Hosts.memFs); reflexivity.
Defined.

Ltac fs_simpl := cbn [Files.disk Files.calls negb].

(** C10. A file name that starts with any eight digits is accepted whether
    or not they are a calendar date: characters 1-4 are the year and
    characters 5-6 the month of the substitution, as they stand. The call
    can then only fail where the file system does ([mkdirSync] or
    [writeFileSync] on the paths computed from those digits), and on a file
    system that does not fail it returns the path of the file. *)
Theorem saveFileToStack_takes_digits_verbatim
        (FS : Type) (fs : Files.FsOps FS)
        (vaultRoot subfolderStructure filename content : string)
        (w : Files.FsWorld FS) :
  test eightDigits filename = true ->
  let year := substring 0 4 filename in
  let month := substring 4 2 filename in
  let subfolder :=
    replace (replace (Path.join ["Chronological"; "Email"; subfolderStructure])
               "YYYY" year) "YYYY-MM" (year ++ "-" ++ month) in
  let targetFolder := Path.join [vaultRoot; subfolder] in
  let targetPath := Path.join [targetFolder; filename] in
  match Files.saveFileToStack fs vaultRoot subfolderStructure filename content w with
  | (Return p, w') => p = targetPath
  | (Throw e, w') =>
      (exists d, Files.fs_mkdirSync fs (Files.disk w) targetFolder = (Throw e, d))
      \/ (exists d0 d, Files.fs_writeFileSync fs d0 targetPath content = (Throw e, d))
  end
  /\ ((forall d p, exists d', Files.fs_mkdirSync fs d p = (Return tt, d')) ->
      (forall d p c, exists d', Files.fs_writeFileSync fs d p c = (Return tt, d')) ->
      exists w',
        Files.saveFileToStack fs vaultRoot subfolderStructure filename content w
        = (Return targetPath, w')).
Proof.
  intros H. destruct (match_dateRegex_digits _ H) as (dm & Hm & Hy & Hmo).
  cbv zeta. unfold Files.saveFileToStack. rewrite Hm.
  unfold Files.subfolder. rewrite Hy, Hmo.
  set (targetFolder := Path.join [vaultRoot; _]).
  set (targetPath := Path.join [targetFolder; filename]).
  unfold bind, try_catch, Files.existsSync, Files.mkdirSync,
    Files.writeFileSync, ret, throw. cbn [Files.disk Files.calls].
  split.
  - destruct (Files.fs_existsSync fs (Files.disk w) targetFolder); fs_simpl.
    + destruct (Files.fs_writeFileSync fs (Files.disk w) targetPath content)
        as [[[]|e] d] eqn:Hw; [reflexivity|]. right. eauto.
    + destruct (Files.fs_mkdirSync fs (Files.disk w) targetFolder)
        as [[[]|e] d] eqn:Hd; fs_simpl; [|left; eauto].
      destruct (Files.fs_writeFileSync fs d targetPath content)
        as [[[]|e] d'] eqn:Hw; [reflexivity|]. right. eauto.
  - intros Hmk Hwr.
    destruct (Files.fs_existsSync fs (Files.disk w) targetFolder); fs_simpl.
    + destruct (Hwr (Files.disk w) targetPath content) as [d' ->]. eauto.
    + destruct (Hmk (Files.disk w) targetFolder) as [d ->]. fs_simpl.
      destruct (Hwr d targetPath content) as [d' ->]. eauto.
Qed.

Lemma saveFileToStack_takes_digits_verbatim_witness :
  test eightDigits "20241399_250000 - a@b.com -- Hi.htm" = true
  /\ exists w',
      Files.saveFileToStack Hosts.memFs "/vault" "YYYY/YYYY-MM"
        "20241399_250000 - a@b.com -- Hi.htm" "<html></html>" Hosts.emptyDisk
      = (Return "/vault/Chronological/Email/2024/2024-13/20241399_250000 - a@b.com -- Hi.htm",
         w').
Proof.
  split; [reflexivity|].
  apply (saveFileToStack_takes_digits_verbatim _ Hosts.memFs "/vault"
           "YYYY/YYYY-MM" "20241399_250000 - a@b.com -- Hi.htm"
           "<html></html>" Hosts.emptyDisk eq_refl).
  - intros d p. eexists. reflexivity.
  - intros d p c. eexists. reflexivity.
Defined.

(** ** Paths and substitution *)

Lemma join_cons2 (sep x y : string) (l : list string) :
  JsString.join sep (x :: y :: l) = x ++ sep ++ JsString.join sep (y :: l).
Proof. reflexivity. Qed.

Lemma split_nonempty (c : ascii) (s : string) : split c s <> [].
Proof.
  induction s as [|d s IH]; simpl; [discriminate|].
  destruct (Ascii.eqb d c); [discriminate|].
  destruct (split c s); [contradiction | discriminate].
Qed.

(** Joining the segments of a string gives the string back. *)
Lemma join_split (s : string) : JsString.join "/" (split "/" s) = s.
Proof.
  induction s as [|d s IH]; [reflexivity|]. simpl split.
  destruct (Ascii.eqb_spec d "/") as [->|Hd].
  - destruct (split "/" s) as [|seg segs] eqn:E;
      [now destruct (split_nonempty "/" s)|].
    rewrite join_cons2, IH. reflexivity.
  - destruct (split "/" s) as [|seg segs] eqn:E;
      [now destruct (split_nonempty "/" s)|].
    destruct segs as [|seg' segs].
    + simpl in *. now rewrite IH.
    + rewrite join_cons2 in *. cbn [append]. f_equal. exact IH.
Qed.

Lemma normalizeSegments_normal (allow : bool) :
  forall segs acc,
    List.forallb normalSegment segs = true ->
    Path.normalizeSegments allow segs acc = (rev acc ++ segs)%list.
Proof.
  induction segs as [|seg segs IH]; intros acc H; simpl in *.
  - now rewrite app_nil_r.
  - apply andb_prop in H as [Hseg H]. unfold normalSegment in Hseg.
    apply andb_prop in Hseg as [Hseg Hdd]. apply andb_prop in Hseg as [Hne Hd].
    destruct seg as [|c seg]; [discriminate|].
    apply negb_true_iff in Hd, Hdd. rewrite Hd, Hdd. cbn [String.eqb orb].
    rewrite (IH _ H). simpl. now rewrite <- app_assoc.
Qed.

Lemma last_append (a b : string) : b <> "" -> last (a ++ b) = last b.
Proof.
  intros Hb. induction a as [|c a IH]; [reflexivity|].
  simpl. rewrite IH. destruct (a ++ b) eqn:E; [|reflexivity].
  destruct a; simpl in E; [contradiction | discriminate].
Qed.

Lemma split_no_sep (s : string) :
  forall seg, In seg (split "/" s) -> JsString.forallb (Files.is_not "/") seg = true.
Proof.
  induction s as [|d s IH]; intros seg Hin; simpl in Hin.
  - destruct Hin as [<-|[]]. reflexivity.
  - destruct (Ascii.eqb d "/") eqn:Hd.
    + destruct Hin as [<-|Hin]; [reflexivity | now apply IH].
    + destruct (split "/" s) as [|seg0 segs] eqn:E.
      * destruct Hin as [<-|[]]. simpl. unfold Files.is_not. now rewrite Hd.
      * destruct Hin as [<-|Hin].
        -- simpl. unfold Files.is_not at 1. rewrite Hd. apply IH. now left.
        -- apply IH. now right.
Qed.

Lemma last_forallb (p : ascii -> bool) (s : string) (c : ascii) :
  last s = Some c -> JsString.forallb p s = true -> p c = true.
Proof.
  induction s as [|d s IH]; [discriminate|]. simpl.
  intros Hl Hp. apply andb_prop in Hp as [Hd Hp].
  destruct s; [now inversion Hl; subst | now apply IH].
Qed.

Lemma join_truthy (x : string) (l : list string) :
  truthy x = true -> truthy (JsString.join "/" (x :: l)) = true.
Proof.
  intros Hx. destruct l; simpl; [assumption | now apply truthy_append_l].
Qed.

(** A path whose segments are normal does not end with the separator. *)
Lemma last_join_normal :
  forall segs,
    segs <> [] ->
    (forall seg, In seg segs ->
                 truthy seg = true /\ JsString.forallb (Files.is_not "/") seg = true) ->
    last (JsString.join "/" segs) <> Some "/"%char.
Proof.
  induction segs as [|x l IH]; intros Hne H; [contradiction|].
  destruct l as [|y l].
  - simpl. intros Hl. destruct (H x (or_introl eq_refl)) as [_ Hx].
    now pose proof (last_forallb _ _ _ Hl Hx).
  - rewrite join_cons2.
    assert (Hy : truthy (JsString.join "/" (y :: l)) = true).
    { apply join_truthy. apply H. right. now left. }
    rewrite last_append.
    + change ("/" ++ JsString.join "/" (y :: l))
        with (String "/" (JsString.join "/" (y :: l))).
      destruct (JsString.join "/" (y :: l)) as [|c0 s0] eqn:E; [discriminate|].
      change (last (String "/" (String c0 s0))) with (last (String c0 s0)).
      apply IH; [discriminate|].
      intros seg Hin. apply H. now right.
    + discriminate.
Qed.

Lemma normalSegment_truthy (seg : string) :
  normalSegment seg = true -> truthy seg = true.
Proof.
  unfold normalSegment. intros H.
  apply andb_prop in H as [H _]. now apply andb_prop in H as [H _].
Qed.

Lemma normalRelative_truthy (t : string) :
  normalRelative t = true -> truthy t = true.
Proof. destruct t; [discriminate | reflexivity]. Qed.

Lemma normalRelative_last (t : string) :
  normalRelative t = true -> last t <> Some "/"%char.
Proof.
  intros H. rewrite <- (join_split t). apply last_join_normal.
  - apply split_nonempty.
  - intros seg Hin. split.
    + apply normalSegment_truthy.
      unfold normalRelative in H. rewrite forallb_forall in H. now apply H.
    + now apply (split_no_sep t).
Qed.

(** Under [Chronological/Email], a template in normal form is joined as it
    is. *)
Lemma join_normal_template (t : string) :
  normalRelative t = true ->
  Path.join ["Chronological"; "Email"; t] = "Chronological/Email/" ++ t.
Proof.
  intros H. pose proof (normalRelative_truthy _ H) as Ht.
  unfold Path.join. cbn [filter truthy]. rewrite Ht.
  change (JsString.join "/" ["Chronological"; "Email"; t])
    with ("Chronological/Email/" ++ t).
  unfold Path.normalize.
  change (truthy ("Chronological/Email/" ++ t)) with true.
  change (Path.isAbsolute ("Chronological/Email/" ++ t)) with false.
  cbn [negb]. unfold Path.normalizeString.
  assert (Hs : split Path.sep ("Chronological/Email/" ++ t)
               = "Chronological" :: "Email" :: split Path.sep t).
  { cbn. reflexivity. }
  rewrite Hs, normalizeSegments_normal.
  2:{ cbn [List.forallb]. exact H. }
  cbn [rev app].
  assert (Hj : JsString.join "/" ("Chronological" :: "Email" :: split Path.sep t)
               = "Chronological/Email/" ++ t).
  { pose proof (join_split t) as J. unfold Path.sep.
    destruct (split "/" t) as [|seg segs] eqn:E;
      [now destruct (split_nonempty "/" t)|].
    rewrite !join_cons2, J. reflexivity. }
  rewrite Hj.
  change (truthy ("Chronological/Email/" ++ t)) with true. cbn [negb].
  unfold Path.trailingSeparator.
  rewrite last_append by (destruct t; [discriminate | discriminate]).
  destruct (last t) as [c|] eqn:El; [|reflexivity].
  destruct (Ascii.eqb_spec c Path.sep) as [->|]; [|reflexivity].
  now destruct (normalRelative_last _ H).
Qed.

(** A replacement text without [$] is inserted as it stands. *)
Lemma GetSubstitution_literal (matched before after : string) :
  forall template,
    JsString.forallb (Files.is_not "$") template = true ->
    GetSubstitution matched before after template = template.
Proof.
  induction template as [|c t IH]; intros H; [reflexivity|].
  simpl in H. apply andb_prop in H as [Hc Ht].
  unfold Files.is_not in Hc. apply negb_true_iff in Hc.
  cbn [GetSubstitution]. rewrite Hc. now rewrite (IH Ht).
Qed.

(** An occurrence cannot start inside a prefix in which the first
    character of the pattern does not occur. *)
Lemma firstOccurrence_skip_prefix (c : ascii) (pat s : string) :
  forall pre,
    JsString.forallb (Files.is_not c) pre = true ->
    firstOccurrence (String c pat) (pre ++ s) =
    match firstOccurrence (String c pat) s with
    | Some (before, after) => Some (pre ++ before, after)
    | None => None
    end.
Proof.
  induction pre as [|d pre IH]; intros H.
  - cbn [append]. now destruct (firstOccurrence (String c pat) s) as [[b a]|].
  - simpl in H. apply andb_prop in H as [Hd Hpre].
    unfold Files.is_not in Hd. apply negb_true_iff in Hd.
    rewrite Ascii.eqb_sym in Hd.
    cbn [append firstOccurrence strip_prefix]. rewrite Hd.
    rewrite (IH Hpre).
    now destruct (firstOccurrence (String c pat) s) as [[b a]|].
Qed.

Lemma replace_skip_prefix (c : ascii) (pat s repl pre : string) :
  JsString.forallb (Files.is_not c) pre = true ->
  JsString.forallb (Files.is_not "$") repl = true ->
  replace (pre ++ s) (String c pat) repl = pre ++ replace s (String c pat) repl.
Proof.
  intros Hpre Hrepl. unfold replace.
  rewrite (firstOccurrence_skip_prefix _ _ _ _ Hpre).
  destruct (firstOccurrence (String c pat) s) as [[b a]|]; [|reflexivity].
  rewrite !GetSubstitution_literal by assumption.
  now rewrite append_assoc.
Qed.

Lemma forallb_append (p : ascii -> bool) (a b : string) :
  JsString.forallb p (a ++ b) = JsString.forallb p a && JsString.forallb p b.
Proof.
  induction a as [|c a IH]; simpl; [reflexivity|].
  now rewrite IH, andb_assoc.
Qed.

Lemma forallb_impl (p r : ascii -> bool) (s : string) :
  (forall c, p c = true -> r c = true) ->
  JsString.forallb p s = true -> JsString.forallb r s = true.
Proof.
  intros Hpr. induction s as [|c s IH]; simpl; [reflexivity|].
  intros H. apply andb_prop in H as [Hc Hs]. now rewrite (Hpr _ Hc), IH.
Qed.

Lemma is_digit_not_dollar (c : ascii) :
  is_digit c = true -> Files.is_not "$" c = true.
Proof.
  unfold Files.is_not. destruct (Ascii.eqb_spec c "$") as [->|]; [|reflexivity].
  discriminate.
Qed.

Lemma take_class_forallb (p : ascii -> bool) (n : nat) :
  forall s r, take_class p n s = Some r ->
              JsString.forallb p (substring 0 n s) = true.
Proof.
  induction n as [|n IH]; intros s r H.
  - now destruct s.
  - simpl in H. destruct s as [|c s]; [discriminate|].
    destruct (p c) eqn:Hp; [|discriminate].
    simpl. rewrite Hp. now apply (IH s r).
Qed.

(** The year and the month taken from a dated file name are digits. *)
Lemma dated_year_month_digits (filename : string) :
  test eightDigits filename = true ->
  JsString.forallb is_digit (substring 0 4 filename) = true
  /\ JsString.forallb is_digit (substring 4 2 filename) = true.
Proof.
  rewrite test_eightDigits.
  change 8 with (4 + (2 + 2)). rewrite take_class_add.
  destruct (take_class is_digit 4 filename) as [s1|] eqn:H1; [|discriminate].
  rewrite take_class_add.
  destruct (take_class is_digit 2 s1) as [s2|] eqn:H2; [|discriminate].
  intros _. split.
  - now apply (take_class_forallb _ _ _ _ H1).
  - rewrite (take_class_substring _ _ 2 _ _ H1).
    now apply (take_class_forallb _ _ _ _ H2).
Qed.

Lemma is_digit_not_Y (c : ascii) :
  is_digit c = true -> Files.is_not "Y" c = true.
Proof.
  unfold Files.is_not. destruct (Ascii.eqb_spec c "Y") as [->|]; [|reflexivity].
  discriminate.
Qed.

Lemma firstOccurrence_none (c : ascii) (pat : string) :
  forall s,
    JsString.forallb (Files.is_not c) s = true ->
    firstOccurrence (String c pat) s = None.
Proof.
  induction s as [|d s IH]; intros H; [reflexivity|].
  simpl in H. apply andb_prop in H as [Hd Hs].
  unfold Files.is_not in Hd. apply negb_true_iff in Hd.
  rewrite Ascii.eqb_sym in Hd.
  cbn [firstOccurrence strip_prefix]. now rewrite Hd, (IH Hs).
Qed.

(** Without the first character of the pattern there is nothing to
    replace. *)
Lemma replace_none (c : ascii) (pat s repl : string) :
  JsString.forallb (Files.is_not c) s = true ->
  replace s (String c pat) repl = s.
Proof. intros H. unfold replace. now rewrite firstOccurrence_none. Qed.

(** The occurrence that follows a text without the first character of the
    pattern is the one replaced. *)
Lemma replace_at (c : ascii) (pat a r repl : string) :
  JsString.forallb (Files.is_not c) a = true ->
  JsString.forallb (Files.is_not "$") repl = true ->
  replace (a ++ String c pat ++ r) (String c pat) repl = a ++ repl ++ r.
Proof.
  intros Ha Hrepl. rewrite (replace_skip_prefix _ _ _ _ _ Ha Hrepl).
  unfold replace.
  assert (E : firstOccurrence (String c pat) (String c pat ++ r) = Some ("", r)).
  { destruct (String c pat ++ r) eqn:Es; [discriminate|].
    cbn [firstOccurrence]. rewrite <- Es. now rewrite strip_prefix_append. }
  rewrite E. now rewrite GetSubstitution_literal.
Qed.

(** The mechanism on any template in normal form: the two calls of
    [String.replace] act on the template itself, one after the other, each
    on the first occurrence of its pattern. *)
Lemma resolvedSubfolder_normal (subfolderStructure filename : string) :
  normalRelative subfolderStructure = true ->
  test eightDigits filename = true ->
  resolvedSubfolder subfolderStructure filename
  = Some ("Chronological/Email/"
            ++ replace (replace subfolderStructure "YYYY" (substring 0 4 filename))
                 "YYYY-MM"
                 (substring 0 4 filename ++ "-" ++ substring 4 2 filename)).
Proof.
  intros Hn Hd.
  destruct (match_dateRegex_digits _ Hd) as (dm & Hm & Hy & Hmo).
  destruct (dated_year_month_digits _ Hd) as [Dy Dm].
  set (year := substring 0 4 filename) in *.
  set (month := substring 4 2 filename) in *.
  assert (Hyear : JsString.forallb (Files.is_not "$") year = true).
  { revert Dy. apply forallb_impl, is_digit_not_dollar. }
  assert (Hym : JsString.forallb (Files.is_not "$") (year ++ "-" ++ month) = true).
  { rewrite !forallb_append, Hyear. cbn [JsString.forallb andb].
    change (Files.is_not "$" "-") with true. cbn [andb].
    revert Dm. apply forallb_impl, is_digit_not_dollar. }
  unfold resolvedSubfolder. rewrite Hm. cbn [option_map].
  unfold Files.subfolder. rewrite Hy, Hmo, (join_normal_template _ Hn).
  f_equal.
  rewrite (replace_skip_prefix "Y" "YYY" _ _ "Chronological/Email/" eq_refl Hyear).
  now rewrite (replace_skip_prefix "Y" "YYY-MM" _ _ "Chronological/Email/" eq_refl Hym).
Qed.

(** *** Templates that end with a slash *)

Lemma split_trailing (t : string) :
  split "/" (t ++ "/") = (split "/" t ++ [""])%list.
Proof.
  induction t as [|c t IH]; [reflexivity|].
  cbn [append split]. rewrite IH.
  destruct (Ascii.eqb c "/"); [reflexivity|].
  destruct (split "/" t) as [|seg segs] eqn:E;
    [now destruct (split_nonempty "/" t) | reflexivity].
Qed.

Lemma normalizeSegments_normal_end (allow : bool) :
  forall segs acc,
    List.forallb normalSegment segs = true ->
    Path.normalizeSegments allow (segs ++ [""]) acc = (rev acc ++ segs)%list.
Proof.
  induction segs as [|seg segs IH]; intros acc H; simpl in *.
  - now rewrite app_nil_r.
  - apply andb_prop in H as [Hseg H]. unfold normalSegment in Hseg.
    apply andb_prop in Hseg as [Hseg Hdd]. apply andb_prop in Hseg as [Hne Hd].
    destruct seg as [|c seg]; [discriminate|].
    apply negb_true_iff in Hd, Hdd. rewrite Hd, Hdd. cbn [String.eqb orb].
    rewrite (IH _ H). simpl. now rewrite <- app_assoc.
Qed.

Lemma last_snoc (s : string) (c : ascii) : last (s ++ String c "") = Some c.
Proof. now rewrite last_append. Qed.

(** A string is what precedes its last character, then that character. *)
Lemma last_split (s : string) (c : ascii) :
  last s = Some c ->
  s = substring 0 (String.length s - 1) s ++ String c "".
Proof.
  induction s as [|d s IH]; [discriminate|].
  destruct s as [|e s].
  - cbn. now intros [= ->].
  - intros H. change (last (String d (String e s))) with (last (String e s)) in H.
    specialize (IH H). cbn [String.length Nat.sub] in *.
    rewrite Nat.sub_0_r in IH.
    cbn [substring append]. f_equal. exact IH.
Qed.

(** Under [Chronological/Email], a template in normal form followed by a
    slash is joined as written. *)
Lemma join_normal_template_slash (t0 : string) :
  normalRelative t0 = true ->
  Path.join ["Chronological"; "Email"; t0 ++ "/"]
  = "Chronological/Email/" ++ t0 ++ "/".
Proof.
  intros H.
  pose proof (normalRelative_truthy _ H) as Ht.
  assert (Ht' : truthy (t0 ++ "/") = true) by now apply truthy_append_l.
  unfold Path.join. cbn [filter]. change (truthy "Chronological") with true.
  change (truthy "Email") with true. cbn iota. rewrite Ht'.
  change (JsString.join "/" ["Chronological"; "Email"; t0 ++ "/"])
    with ("Chronological/Email/" ++ t0 ++ "/").
  unfold Path.normalize.
  change (truthy ("Chronological/Email/" ++ t0 ++ "/")) with true.
  change (Path.isAbsolute ("Chronological/Email/" ++ t0 ++ "/")) with false.
  cbn [negb]. unfold Path.normalizeString.
  assert (Hs : split Path.sep ("Chronological/Email/" ++ t0 ++ "/")
               = (("Chronological" :: "Email" :: split Path.sep t0) ++ [""])%list).
  { unfold Path.sep.
    change (split "/" ("Chronological/Email/" ++ t0 ++ "/"))
      with ("Chronological" :: "Email" :: split "/" (t0 ++ "/")).
    now rewrite split_trailing. }
  rewrite Hs, normalizeSegments_normal_end.
  2:{ cbn [List.forallb]. exact H. }
  cbn [rev app].
  assert (Hj : JsString.join "/" ("Chronological" :: "Email" :: split Path.sep t0)
               = "Chronological/Email/" ++ t0).
  { pose proof (join_split t0) as J. unfold Path.sep.
    destruct (split "/" t0) as [|seg segs] eqn:E;
      [now destruct (split_nonempty "/" t0)|].
    rewrite !join_cons2, J. reflexivity. }
  rewrite Hj.
  change (truthy ("Chronological/Email/" ++ t0)) with true. cbn [negb].
  unfold Path.trailingSeparator.
  rewrite <- !append_assoc, last_snoc, Ascii.eqb_refl.
  now rewrite !append_assoc.
Qed.

(** Under [Chronological/Email], a template in normal form is joined as
    written, also when it ends with a slash. *)
Lemma join_template_as_written (t : string) :
  joinedAsWritten t = true ->
  Path.join ["Chronological"; "Email"; t] = "Chronological/Email/" ++ t.
Proof.
  unfold joinedAsWritten, withoutTrailingSlash.
  destruct (Path.trailingSeparator t) eqn:Et; [|apply join_normal_template].
  unfold Path.trailingSeparator in Et.
  destruct (last t) as [c|] eqn:El; [|discriminate].
  apply Ascii.eqb_eq in Et. subst c.
  pose proof (last_split _ _ El) as Es.
  intros H. rewrite Es. now apply join_normal_template_slash.
Qed.

(** *** The tokens of a template and the two calls of [String.replace] *)

Lemma strip_prefix_longer_none (p q s : string) :
  strip_prefix p s = None -> strip_prefix (p ++ q) s = None.
Proof.
  revert s. induction p as [|c p IH]; intros s H; [discriminate|].
  destruct s as [|d s]; [reflexivity|]. cbn [append strip_prefix] in *.
  destruct (Ascii.eqb c d); [now apply IH | reflexivity].
Qed.

Lemma firstOccurrence_longer_none (p q : string) :
  forall s, firstOccurrence p s = None -> firstOccurrence (p ++ q) s = None.
Proof.
  induction s as [|c s IH]; intros H.
  - cbn [firstOccurrence] in *.
    destruct (strip_prefix p "") eqn:E; [discriminate|].
    now rewrite (strip_prefix_longer_none _ q _ E).
  - cbn [firstOccurrence] in *.
    destruct (strip_prefix p (String c s)) eqn:E; [discriminate|].
    rewrite (strip_prefix_longer_none _ q _ E).
    destruct (firstOccurrence p s) as [[b a]|]; [discriminate|].
    now rewrite IH.
Qed.

(** What [firstOccurrence] returns are the texts around the pattern. *)
Lemma firstOccurrence_sound (pat : string) :
  forall s a r, firstOccurrence pat s = Some (a, r) -> s = a ++ pat ++ r.
Proof.
  induction s as [|c s IH]; intros a r H; cbn [firstOccurrence] in H.
  - destruct (strip_prefix pat "") eqn:E; [|discriminate].
    injection H as <- <-. now apply strip_prefix_sound in E.
  - destruct (strip_prefix pat (String c s)) eqn:E.
    + injection H as <- <-. now apply strip_prefix_sound in E.
    + destruct (firstOccurrence pat s) as [[b x]|] eqn:F; [|discriminate].
      injection H as <- <-. cbn [append]. f_equal. now apply IH.
Qed.

(** Where [YYYY] does not stand although [YYYY] follows the text, no
    longer pattern stands either, whatever follows the text. *)
Lemma strip_prefix_year_text (q r w : string) :
  forall a2,
    a2 <> "" ->
    strip_prefix "YYYY" (a2 ++ "YYYY" ++ r) = None ->
    strip_prefix ("YYYY" ++ q) (a2 ++ w) = None.
Proof.
  intros a2 Hne.
  destruct a2 as [|c1 a2]; [contradiction|]. cbn [append strip_prefix].
  destruct (Ascii.eqb "Y" c1); [|reflexivity].
  destruct a2 as [|c2 a2]; [discriminate|]. cbn [append strip_prefix].
  destruct (Ascii.eqb "Y" c2); [|reflexivity].
  destruct a2 as [|c3 a2]; [discriminate|]. cbn [append strip_prefix].
  destruct (Ascii.eqb "Y" c3); [|reflexivity].
  destruct a2 as [|c4 a2]; [discriminate|]. cbn [append strip_prefix].
  destruct (Ascii.eqb "Y" c4); [discriminate | reflexivity].
Qed.

(** The text before the first [YYYY] holds no start of a longer pattern
    either, whatever is put after it. *)
Lemma firstOccurrence_after_text (q r w : string) :
  forall a,
    firstOccurrence "YYYY" (a ++ "YYYY" ++ r) = Some (a, r) ->
    firstOccurrence ("YYYY" ++ q) (a ++ w)
    = match firstOccurrence ("YYYY" ++ q) w with
      | Some (b, x) => Some (a ++ b, x)
      | None => None
      end.
Proof.
  induction a as [|c a IH]; intros H.
  - change ("" ++ w) with w.
    now destruct (firstOccurrence ("YYYY" ++ q) w) as [[b x]|].
  - change (String c a ++ "YYYY" ++ r) with (String c (a ++ "YYYY" ++ r)) in H.
    change (String c a ++ w) with (String c (a ++ w)).
    cbn [firstOccurrence] in H |- *.
    destruct (strip_prefix "YYYY" (String c (a ++ "YYYY" ++ r))) eqn:E;
      rewrite ?E in H; [discriminate|].
    pose proof (strip_prefix_year_text q r w (String c a) ltac:(discriminate) E)
      as HS.
    change (String c a ++ w) with (String c (a ++ w)) in HS. rewrite HS.
    destruct (firstOccurrence "YYYY" (a ++ "YYYY" ++ r)) as [[b x]|] eqn:F;
      [|discriminate].
    injection H as -> ->. rewrite (IH eq_refl).
    now destruct (firstOccurrence ("YYYY" ++ q) w) as [[b x]|].
Qed.

Lemma strip_prefix_app_same (p q s : string) :
  strip_prefix (p ++ q) (p ++ s) = strip_prefix q s.
Proof.
  induction p as [|c p IH]; [reflexivity|].
  cbn [append strip_prefix]. now rewrite Ascii.eqb_refl.
Qed.

(** The tokens of a template, one step of the reading. *)
Lemma tokens_step (c : ascii) (t : string) :
  tokens 0 (String c t)
  = match strip_prefix "YYYY" (String c t) with
    | Some r =>
        match strip_prefix "-MM" r with
        | Some r' => YearMonth :: tokens 0 r'
        | None => Year :: tokens 0 r
        end
    | None => Lit c :: tokens 0 t
    end.
Proof.
  cbn [tokens]. unfold startsWith.
  destruct (strip_prefix "YYYY" (String c t)) as [r|] eqn:E.
  - pose proof (strip_prefix_sound _ _ _ E) as Es.
    assert (E7 : strip_prefix "YYYY-MM" (String c t) = strip_prefix "-MM" r).
    { rewrite Es. change "YYYY-MM" with ("YYYY" ++ "-MM").
      apply strip_prefix_app_same. }
    rewrite E7.
    destruct (strip_prefix "-MM" r) as [r'|] eqn:E2.
    + apply strip_prefix_sound in E2. subst r.
      cbn [append] in Es. injection Es as -> ->. reflexivity.
    + cbn [append] in Es. injection Es as -> ->. reflexivity.
  - pose proof (strip_prefix_longer_none "YYYY" "-MM" _ E) as E7.
    change ("YYYY" ++ "-MM") with "YYYY-MM" in E7. now rewrite E7.
Qed.

(** The tokens of a template, from its first [YYYY] on. *)
Lemma kinds_first (t : string) :
  kinds t
  = match firstOccurrence "YYYY" t with
    | None => []
    | Some (a, r) =>
        match strip_prefix "-MM" r with
        | Some r' => YearMonth :: kinds r'
        | None => Year :: kinds r
        end
    end.
Proof.
  unfold kinds. induction t as [|c t IH]; [reflexivity|].
  rewrite tokens_step. cbn [firstOccurrence].
  destruct (strip_prefix "YYYY" (String c t)) as [r|].
  - now destruct (strip_prefix "-MM" r).
  - cbn [filter isToken]. rewrite IH.
    now destruct (firstOccurrence "YYYY" t) as [[a r]|].
Qed.

Lemma substituted_first (t year month : string) :
  substituted t year month
  = match firstOccurrence "YYYY" t with
    | None => t
    | Some (a, r) =>
        a ++ match strip_prefix "-MM" r with
             | Some r' => (year ++ "-" ++ month) ++ substituted r' year month
             | None => year ++ substituted r year month
             end
    end.
Proof.
  unfold substituted. induction t as [|c t IH]; [reflexivity|].
  rewrite tokens_step. cbn [firstOccurrence].
  destruct (strip_prefix "YYYY" (String c t)) as [r|].
  - now destruct (strip_prefix "-MM" r).
  - cbn [fold_right substitute append]. rewrite IH.
    now destruct (firstOccurrence "YYYY" t) as [[a r]|].
Qed.

(** A text without token is left as it is. *)
Lemma substituted_no_token (t year month : string) :
  kinds t = [] -> substituted t year month = t.
Proof.
  rewrite kinds_first, substituted_first.
  destruct (firstOccurrence "YYYY" t) as [[a r]|]; [|reflexivity].
  now destruct (strip_prefix "-MM" r).
Qed.

(** On a template whose tokens stand apart, the two calls of
    [String.replace] substitute the tokens. *)
Lemma replace_tokens_apart (t year month : string) :
  JsString.forallb is_digit year = true ->
  JsString.forallb is_digit month = true ->
  tokensApart t = true ->
  replace (replace t "YYYY" year) "YYYY-MM" (year ++ "-" ++ month)
  = substituted t year month.
Proof.
  intros Dy Dm.
  assert (Hyear : JsString.forallb (Files.is_not "$") year = true).
  { revert Dy. apply forallb_impl, is_digit_not_dollar. }
  assert (Hym : JsString.forallb (Files.is_not "$") (year ++ "-" ++ month) = true).
  { rewrite !forallb_append, Hyear. cbn [JsString.forallb andb].
    change (Files.is_not "$" "-") with true. cbn [andb].
    revert Dm. apply forallb_impl, is_digit_not_dollar. }
  assert (HyearY : JsString.forallb (Files.is_not "Y") year = true).
  { revert Dy. apply forallb_impl, is_digit_not_Y. }
  unfold tokensApart. rewrite kinds_first, substituted_first.
  destruct (firstOccurrence "YYYY" t) as [[a r]|] eqn:E.
  - destruct (strip_prefix "-MM" r) as [r'|] eqn:E2; [discriminate|].
    pose proof (firstOccurrence_sound _ _ _ _ E) as Et. subst t.
    assert (E1 : replace (a ++ "YYYY" ++ r) "YYYY" year = a ++ year ++ r).
    { unfold replace. rewrite E. now rewrite GetSubstitution_literal. }
    rewrite E1. unfold replace.
    pose proof (firstOccurrence_after_text "-MM" r (year ++ r) a E) as Fa.
    change ("YYYY" ++ "-MM") with "YYYY-MM" in Fa. rewrite Fa.
    rewrite (firstOccurrence_skip_prefix "Y" "YYY-MM" r year HyearY).
    rewrite (kinds_first r), (substituted_first r).
    destruct (firstOccurrence "YYYY" r) as [[b r2]|] eqn:E3.
    + destruct (strip_prefix "-MM" r2) as [c|] eqn:E4.
      * intros Hk. destruct (kinds c) eqn:Hc; [|discriminate].
        rewrite (substituted_no_token _ _ _ Hc).
        pose proof (firstOccurrence_sound _ _ _ _ E3) as Er. subst r.
        apply strip_prefix_sound in E4. subst r2.
        pose proof (firstOccurrence_after_text "-MM" ("-MM" ++ c)
                      ("YYYY-MM" ++ c) b E3) as F.
        change ("YYYY" ++ "-MM") with "YYYY-MM" in F.
        assert (F0 : firstOccurrence "YYYY-MM" ("YYYY-MM" ++ c) = Some ("", c)).
        { destruct ("YYYY-MM" ++ c) eqn:Es; [discriminate|].
          cbn [firstOccurrence]. rewrite <- Es. now rewrite strip_prefix_append. }
        rewrite F0 in F.
        change (b ++ "YYYY" ++ "-MM" ++ c) with (b ++ "YYYY-MM" ++ c).
        rewrite F. rewrite GetSubstitution_literal by assumption.
        now rewrite !append_nil_r, !append_assoc.
      * destruct (kinds r2) as [|k0 ks]; discriminate.
    + intros _.
      pose proof (firstOccurrence_longer_none "YYYY" "-MM" r E3) as Fn.
      change ("YYYY" ++ "-MM") with "YYYY-MM" in Fn. now rewrite Fn.
  - intros _. unfold replace at 2. rewrite E. unfold replace.
    pose proof (firstOccurrence_longer_none "YYYY" "-MM" t E) as Fn.
    change ("YYYY" ++ "-MM") with "YYYY-MM" in Fn. now rewrite Fn.
Qed.

(** For a template that is joined as written and whose tokens stand
    apart, the resolved subfolder is the claimed one. *)
Lemma resolvedSubfolder_as_claimed (template filename : string) :
  joinedAsWritten template = true ->
  tokensApart template = true ->
  test eightDigits filename = true ->
  resolvedSubfolder template filename
  = Some (claimedSubfolder template (substring 0 4 filename)
            (substring 4 2 filename)).
Proof.
  intros Hn Ht Hd.
  destruct (match_dateRegex_digits _ Hd) as (dm & Hm & Hy & Hmo).
  destruct (dated_year_month_digits _ Hd) as [Dy Dm].
  set (year := substring 0 4 filename) in *.
  set (month := substring 4 2 filename) in *.
  assert (Hyear : JsString.forallb (Files.is_not "$") year = true).
  { revert Dy. apply forallb_impl, is_digit_not_dollar. }
  assert (Hym : JsString.forallb (Files.is_not "$") (year ++ "-" ++ month) = true).
  { rewrite !forallb_append, Hyear. cbn [JsString.forallb andb].
    change (Files.is_not "$" "-") with true. cbn [andb].
    revert Dm. apply forallb_impl, is_digit_not_dollar. }
  unfold resolvedSubfolder. rewrite Hm. cbn [option_map].
  unfold Files.subfolder. rewrite Hy, Hmo, (join_template_as_written _ Hn).
  unfold claimedSubfolder. f_equal.
  rewrite (replace_skip_prefix "Y" "YYY" _ _ "Chronological/Email/" eq_refl Hyear).
  rewrite (replace_skip_prefix "Y" "YYY-MM" _ _ "Chronological/Email/" eq_refl Hym).
  f_equal. now apply replace_tokens_apart.
Qed.

(** C3, as amended. On a POSIX host, for a file name that starts with eight
    digits and a subfolder template that [path.join] leaves as written (a
    relative path whose segments between slashes are non-empty and none of
    them [.] or [..]; it may end with one slash) and that holds no token,
    or one token [YYYY], or one token [YYYY] and one token [YYYY-MM] after
    it, the subfolder resolved by [saveFileToStack] is
    [Chronological/Email/] followed by the template with the year
    (characters 1-4 of the name) put for the token [YYYY] and year-month
    (characters 5-6 for the month) put for the token [YYYY-MM]; in
    particular the template [YYYY/YYYY-MM] and a name dated 20240315 give
    [Chronological/Email/2024/2024-03]. *)
Theorem subfolder_of_normal_template (template filename : string) :
  joinedAsWritten template = true ->
  tokensApart template = true ->
  test eightDigits filename = true ->
  resolvedSubfolder template filename
  = Some (claimedSubfolder template (substring 0 4 filename)
            (substring 4 2 filename))
  /\ forall rest,
      resolvedSubfolder "YYYY/YYYY-MM" ("20240315" ++ rest)
      = Some "Chronological/Email/2024/2024-03".
Proof.
  intros Hn Ht Hd. split; [|reflexivity].
  now apply resolvedSubfolder_as_claimed.
Qed.

Lemma subfolder_of_normal_template_witness :
  joinedAsWritten "Yearly/YYYY/YYYY-MM/" = true
  /\ tokensApart "Yearly/YYYY/YYYY-MM/" = true
  /\ test eightDigits "20231102_093000 - a@b.com -- Hi.htm" = true
  /\ resolvedSubfolder "Yearly/YYYY/YYYY-MM/" "20231102_093000 - a@b.com -- Hi.htm"
     = Some "Chronological/Email/Yearly/2023/2023-11/".
Proof.
  split; [reflexivity|]. split; [reflexivity|]. split; [reflexivity|].
  exact (proj1 (subfolder_of_normal_template "Yearly/YYYY/YYYY-MM/"
                  "20231102_093000 - a@b.com -- Hi.htm"
                  eq_refl eq_refl eq_refl)).
Defined.

(** C3 as stated fails: [path.join] resolves the [..] segments of a
    template, so the result need not lie under [Chronological/Email/]. *)
Lemma subfolder_escapes_prefix :
  tokensApart "../../YYYY" = true
  /\ test eightDigits "20240315_101500 - a@b.com -- Hi.htm" = true
  /\ resolvedSubfolder "../../YYYY" "20240315_101500 - a@b.com -- Hi.htm"
     = Some "2024"
  /\ claimedSubfolder "../../YYYY" "2024" "03" = "Chronological/Email/../../2024"
  /\ Some "2024" <> Some (claimedSubfolder "../../YYYY" "2024" "03")
  /\ String.prefix "Chronological/Email/" "2024" = false.
Proof. repeat split. discriminate. Qed.

(** ** Content preparation and the image inliner *)

(** C7. Without a non-empty HTML body, a non-empty plain-text body is
    wrapped in the preformatted shell; with neither body, the result is the
    placeholder page; in both cases no request is made, so the image
    inliner runs (the network world changes) only for a non-empty HTML
    body. *)
Theorem prepareEmailContent_bodies
        (N : Type) (http : Files.HttpOps N) (email : Files.Email)
        (savePath : string) (w : Files.NetWorld N) :
  (truthy_opt (Files.HtmlBody email) = false ->
   forall text, Files.TextBody email = Some text -> text <> "" ->
     Files.prepareEmailContent http email savePath w
     = (Return (preformatted text), w))
  /\ (truthy_opt (Files.HtmlBody email) = false ->
      truthy_opt (Files.TextBody email) = false ->
      Files.prepareEmailContent http email savePath w = (Return noContent, w))
  /\ (snd (Files.prepareEmailContent http email savePath w) <> w ->
      truthy_opt (Files.HtmlBody email) = true).
Proof.
  unfold Files.prepareEmailContent. repeat split.
  - intros Hh text Ht Hne. rewrite Hh, Ht.
    cbn [truthy_opt or_else]. now rewrite (truthy_true _ Hne).
  - intros Hh Ht. now rewrite Hh, Ht.
  - intros Hw. destruct (truthy_opt (Files.HtmlBody email)); [reflexivity|].
    exfalso. apply Hw.
    now destruct (truthy_opt (Files.TextBody email)).
Qed.

Lemma prepareEmailContent_bodies_witness :
  Files.prepareEmailContent Hosts.scripted
    {| Files.HtmlBody := Some ""; Files.TextBody := Some "Hello";
       Files.from := Some "a@b.com"; Files.date := Some "" |}
    "" (Hosts.online [])
  = (Return "<html><body><pre>Hello</pre></body></html>", Hosts.online []).
Proof.
  apply (proj1 (prepareEmailContent_bodies _ Hosts.scripted
                  {| Files.HtmlBody := Some ""; Files.TextBody := Some "Hello";
                     Files.from := Some "a@b.com"; Files.date := Some "" |}
                  "" (Hosts.online [])) eq_refl "Hello" eq_refl).
  discriminate.
Defined.

(** On the scripted network, [saveImagesLocally] consumes one outcome per
    URL and keeps the data URIs of the fetches that succeeded only: a
    failed fetch leaves no entry, so what follows it moves one index down. *)
Lemma saveImages_loop_scripted (savePath : string) :
  forall urls outcomes acc requests,
    List.length outcomes = List.length urls ->
    Files.saveImages_loop Hosts.scripted urls savePath acc
      {| Files.net := outcomes; Files.requests := requests |}
    = (Return (acc ++ fetched outcomes)%list,
       {| Files.net := []; Files.requests := (requests ++ urls)%list |}).
Proof.
  induction urls as [|url urls IH]; intros outcomes acc requests Hlen.
  - destruct outcomes; [|discriminate]. cbn. now rewrite !app_nil_r.
  - destruct outcomes as [|o outcomes]; [discriminate|].
    injection Hlen as Hlen.
    cbn [Files.saveImages_loop]. unfold bind at 1.
    assert (Hstep :
      try_catch
        (bind (Files.fetchImageWithFallback Hosts.scripted url savePath)
           (fun base64Data =>
              match base64Data with
              | Some d => if truthy d then ret (acc ++ [d])%list else ret acc
              | None => ret acc
              end))
        (fun error =>
           if test Files.networkErrorRegex (message error) then ret acc
           else ret acc)
        {| Files.net := o :: outcomes; Files.requests := requests |}
      = (Return (acc ++ fetched [o])%list,
         {| Files.net := outcomes;
            Files.requests := (requests ++ [url])%list |})).
    { unfold try_catch, bind, Files.fetchImageWithFallback, try_catch, bind,
        Files.axios_get, ret. cbn [Files.net Files.requests Files.http_get Hosts.scripted].
      destruct o as [response|e]; cbn [fetched].
      - reflexivity.
      - rewrite app_nil_r.
        now destruct (test Files.networkErrorRegex (message e)). }
    rewrite Hstep. rewrite (IH outcomes _ _ Hlen).
    f_equal.
    + f_equal. rewrite <- app_assoc. f_equal. now destruct o.
    + f_equal. now rewrite <- app_assoc.
Qed.

(** The inliner on the scripted network: every URL is looked up at its own
    index in the array of the fetches that succeeded. *)
Lemma prepareEmailContent_scripted (email : Files.Email) (savePath html : string)
      (outcomes : list (Result Files.AxiosResponse)) :
  Files.HtmlBody email = Some html ->
  html <> "" ->
  List.length outcomes = List.length (Files.extractImageUrls html) ->
  Files.prepareEmailContent Hosts.scripted email savePath (Hosts.online outcomes)
  = (Return (Files.replaceImageUrlsWithBase64 html (Files.extractImageUrls html)
               (fetched outcomes)),
     {| Files.net := []; Files.requests := Files.extractImageUrls html |}).
Proof.
  intros Hh Hne Hlen. unfold Files.prepareEmailContent. rewrite Hh.
  cbn [truthy_opt or_else]. rewrite (truthy_true _ Hne).
  unfold bind, Files.saveImagesLocally, Hosts.online.
  now rewrite (saveImages_loop_scripted savePath _ outcomes [] [] Hlen).
Qed.

(** C1, at the failing input: two images, the first fetch fails and the
    second succeeds. The first tag receives the data URI of the second
    image and the second tag is emptied, where the specification has the
    first tag emptied and the second one filled. *)
Theorem inliner_shifts_after_failed_fetch :
  let png := {| Files.response_data := [Byte.x89; Byte.x50; Byte.x4e; Byte.x47];
                Files.content_type := Some "image/png" |} in
  Files.prepareEmailContent Hosts.scripted
    {| Files.HtmlBody := Some (imgTag "http://x/a.png" ++ imgTag "http://x/b.png");
       Files.TextBody := None; Files.from := None; Files.date := None |}
    ""
    (Hosts.online [Throw (Error "Network Error"); Return png])
  = (Return (imgTag (dataUri png) ++ imgTag ""),
     {| Files.net := [];
        Files.requests := ["http://x/a.png"; "http://x/b.png"] |}).
Proof. reflexivity. Qed.

(** ** Body extraction *)

(** Induction on a MIME tree: the subparts of a part satisfy the
    property. *)
Lemma MessagePart_tree_ind (P : MessagePart -> Prop) :
  (forall m h b, P (Part m h b None)) ->
  (forall m h b nested, Forall P nested -> P (Part m h b (Some nested))) ->
  forall part, P part.
Proof.
  intros Hleaf Hnode.
  fix IH 1. intros [m h b [nested|]]; [|apply Hleaf].
  apply Hnode. induction nested as [|p nested IHn]; constructor.
  - apply IH.
  - apply IHn.
Qed.

Lemma find_append {A : Type} (f : A -> bool) (l1 l2 : list A) :
  List.find f (l1 ++ l2)%list =
  match List.find f l1 with
  | Some x => Some x
  | None => List.find f l2
  end.
Proof.
  induction l1 as [|a l1 IH]; [reflexivity|]. simpl.
  destruct (f a); [reflexivity | apply IH].
Qed.

Section BodyFacts.
Variable decode : string -> string.

(** [visitPart] is the body of the loop of [extractBodyFromParts]. *)
Lemma visitPart_unfold (mime : string) (part : MessagePart) :
  Files.visitPart decode mime part =
  if Files.hasMimeType mime part then Some (Files.partContent decode part)
  else
    match parts part with
    | Some nested =>
        let nestedBody := Files.extractBodyFromParts decode nested mime in
        if truthy nestedBody then Some nestedBody else None
    | None => None
    end.
Proof.
  destruct part as [m h b [nested|]]; cbn [Files.visitPart parts];
    [|reflexivity].
  destruct (Files.hasMimeType mime (Part m h b (Some nested))); [reflexivity|].
  assert (E : (fix loop (ps : list MessagePart) : string :=
                 match ps with
                 | [] => ""
                 | p :: rest =>
                     match Files.visitPart decode mime p with
                     | Some r => r
                     | None => loop rest
                     end
                 end) nested
              = Files.extractBodyFromParts decode nested mime).
  { induction nested as [|p nested IHn]; [reflexivity|].
    cbn [Files.extractBodyFromParts]. now rewrite IHn. }
  now rewrite E.
Qed.

(** What the search finds in one part, in terms of the first part of the
    type in depth-first order: nothing without such a part, and its
    content when that content is not empty. *)
Lemma visitPart_first (mime : string) :
  forall part,
    (List.find (Files.hasMimeType mime) (flatten part) = None ->
     Files.visitPart decode mime part = None)
    /\ (forall found,
           List.find (Files.hasMimeType mime) (flatten part) = Some found ->
           truthy (Files.partContent decode found) = true ->
           Files.visitPart decode mime part
           = Some (Files.partContent decode found)).
Proof.
  induction part as [m h b | m h b nested IHn] using MessagePart_tree_ind.
  - rewrite visitPart_unfold. cbn [flatten List.find parts].
    destruct (Files.hasMimeType mime (Part m h b None)).
    + split; [discriminate|]. intros found [= <-] _. reflexivity.
    + split; [reflexivity | discriminate].
  - rewrite visitPart_unfold. cbn [flatten List.find parts].
    destruct (Files.hasMimeType mime (Part m h b (Some nested))).
    { split; [discriminate|]. intros found [= <-] _. reflexivity. }
    assert (Hl :
      (List.find (Files.hasMimeType mime) (List.flat_map flatten nested) = None ->
       Files.extractBodyFromParts decode nested mime = "")
      /\ (forall found,
             List.find (Files.hasMimeType mime) (List.flat_map flatten nested)
             = Some found ->
             truthy (Files.partContent decode found) = true ->
             Files.extractBodyFromParts decode nested mime
             = Files.partContent decode found)).
    { clear m h b. induction IHn as [|p nested [Hp1 Hp2] _ [IH1 IH2]].
      - split; [reflexivity | discriminate].
      - cbn [List.flat_map Files.extractBodyFromParts].
        split.
        + intros Hnone.
          destruct (List.find (Files.hasMimeType mime) (flatten p)) eqn:Ep.
          * rewrite find_append, Ep in Hnone. discriminate.
          * rewrite find_append, Ep in Hnone.
            rewrite (Hp1 eq_refl). now apply IH1.
        + intros found Hfound Htruthy.
          destruct (List.find (Files.hasMimeType mime) (flatten p)) eqn:Ep.
          * rewrite find_append, Ep in Hfound.
            injection Hfound as <-. now rewrite (Hp2 _ eq_refl Htruthy).
          * rewrite find_append, Ep in Hfound.
            rewrite (Hp1 eq_refl). now apply IH2. }
    destruct Hl as [Hl1 Hl2]. cbv zeta. split.
    + intros Hnone. now rewrite (Hl1 Hnone).
    + intros found Hfound Htruthy.
      now rewrite (Hl2 _ Hfound Htruthy), Htruthy.
Qed.
End BodyFacts.

Section BodySearch.
Variable decode : string -> string.

(** [extractBodyFromParts] against the depth-first order: without a part
    of the type the result is empty, and when the first part of the type
    has non-empty content, that content is the result. *)
Lemma extractBodyFromParts_first (mime : string) :
  forall ps,
    (firstOfType mime ps = None ->
     Files.extractBodyFromParts decode ps mime = "")
    /\ (forall found,
           firstOfType mime ps = Some found ->
           truthy (Files.partContent decode found) = true ->
           Files.extractBodyFromParts decode ps mime
           = Files.partContent decode found).
Proof.
  unfold firstOfType.
  induction ps as [|p ps [IH1 IH2]].
  - split; [reflexivity | discriminate].
  - destruct (visitPart_first decode mime p) as [Hp1 Hp2].
    cbn [List.flat_map Files.extractBodyFromParts]. rewrite find_append.
    destruct (List.find (Files.hasMimeType mime) (flatten p)) eqn:Ep.
    + split; [discriminate|]. intros found [= <-] Ht.
      now rewrite (Hp2 _ eq_refl Ht).
    + rewrite (Hp1 eq_refl). now split.
Qed.
End BodySearch.

(** C5, at the failing input: an empty HTML alternative nested in a
    container, followed by an HTML attachment. The first [text/html] part in
    depth-first order is the nested one, whose content is empty, yet the
    HTML body returned is the content of the attachment: an empty nested
    match is taken for no match and the search goes on to the siblings of
    its container. *)
Theorem extractBodies_passes_over_empty_nested_match :
  let alternative :=
    container "multipart/alternative"
      [leaf "text/plain" ""; leaf "text/html" ""] in
  let attachment := leaf "text/html" "PGI+SGk8L2I+" in
  let payload := container "multipart/mixed" [alternative; attachment] in
  firstOfType "text/html" [alternative; attachment] = Some (leaf "text/html" "")
  /\ Files.partContent Base64.decode_to_string (leaf "text/html" "") = ""
  /\ Files.extractBodies Base64.decode_to_string payload = ("<b>Hi</b>", "").
Proof. repeat split. Qed.

(** ** The mail query *)

Section MailQuery.
Context {S : Type} (service : GmailOps S).

Lemma collectSubjects_returns :
  forall messageIds messages s,
  exists result s',
    Gmail.collectSubjects service messageIds messages s = (Return result, s').
Proof.
  induction messageIds as [|messageId rest IH]; intros acc s.
  - cbn [Gmail.collectSubjects]. unfold ret. eauto.
  - cbn [Gmail.collectSubjects].
    destruct (negb (truthy_opt messageId)); [apply IH|].
    unfold bind at 1, try_catch, bind, ret.
    destruct (users_messages_get service _ s) as [[message|e] s1]; apply IH.
Qed.

Lemma collectSubjects_summaries (answer : string -> Result Message) :
  (forall params s, fst (users_messages_get service params s)
                    = answer (get_id params)) ->
  forall messageIds messages s,
  exists s',
    Gmail.collectSubjects service messageIds messages s
    = (Return (messages ++ summaries answer messageIds)%list, s').
Proof.
  intros Hanswer.
  induction messageIds as [|messageId rest IH]; intros acc s.
  - cbn [Gmail.collectSubjects summaries List.flat_map]. unfold ret.
    rewrite app_nil_r. eauto.
  - cbn [Gmail.collectSubjects summaries List.flat_map].
    fold (summaries answer rest).
    destruct messageId as [id|]; cbn [truthy_opt negb]; [|apply IH].
    destruct (truthy id) eqn:Hid; cbn [negb]; [|apply IH].
    cbn [or_else]. rewrite Hid.
    unfold bind at 1, try_catch, bind, ret.
    pose proof (Hanswer {| get_userId := "me"; get_id := id;
                           format := metadata ["Subject"] |} s) as Ha.
    cbn [get_id] in Ha.
    destruct (users_messages_get service _ s) as [r s1].
    cbn [fst] in Ha. subst r.
    destruct (answer id) as [message|e].
    + destruct (IH (acc ++ [{| Gmail.subject := Gmail.subjectOf message;
                               Gmail.messageId := id |}])%list s1)
        as [s' Hs'].
      rewrite Hs'. exists s'. now rewrite <- app_assoc.
    + apply IH.
Qed.
End MailQuery.

(** C6. [fetchEmailsWithLabelSubjects] never throws. When the list query
    throws or answers with a status other than 200, the result is the
    empty list. When it answers with status 200 and each message query is
    answered according to its id, the result holds, in order, one entry for
    every id whose query is answered: a query that throws removes its own
    message only (missing and empty ids are passed over). *)
Theorem fetchEmailsWithLabelSubjects_degrades
        (S : Type) (service : GmailOps S) (accountName : string) (s : S) :
  (exists result s',
      Gmail.fetchEmailsWithLabelSubjects service accountName s
      = (Return result, s'))
  /\ (forall e s1,
         users_messages_list service listQuery s = (Throw e, s1) ->
         Gmail.fetchEmailsWithLabelSubjects service accountName s
         = (Return [], s1))
  /\ (forall response s1,
         users_messages_list service listQuery s = (Return response, s1) ->
         status response <> 200%Z ->
         Gmail.fetchEmailsWithLabelSubjects service accountName s
         = (Return [], s1))
  /\ (forall response s1 answer,
         users_messages_list service listQuery s = (Return response, s1) ->
         status response = 200%Z ->
         (forall params s0, fst (users_messages_get service params s0)
                            = answer (get_id params)) ->
         exists s',
           Gmail.fetchEmailsWithLabelSubjects service accountName s
           = (Return (summaries answer (messageIdsOf response)), s')).
Proof.
  unfold Gmail.fetchEmailsWithLabelSubjects, try_catch, bind, ret.
  fold listQuery. repeat split.
  - destruct (users_messages_list service listQuery s) as [[response|e] s1];
      [|eauto].
    destruct (negb (status response =? 200)%Z); [eauto|].
    destruct (collectSubjects_returns service
                (match messages response with
                 | Some ms => List.map id ms
                 | None => []
                 end) [] s1) as (result & s' & ->). eauto.
  - intros e s1 ->. reflexivity.
  - intros response s1 -> Hstatus.
    apply Z.eqb_neq in Hstatus. now rewrite Hstatus.
  - intros response s1 answer -> Hstatus Hanswer.
    apply Z.eqb_eq in Hstatus. rewrite Hstatus. cbn [negb].
    destruct (collectSubjects_summaries service answer Hanswer
                (messageIdsOf response) [] s1) as [s' Hs'].
    unfold messageIdsOf in *. rewrite Hs'. eauto.
Qed.

Lemma fetchEmailsWithLabelSubjects_degrades_witness :
  let answer := fun id : string =>
    if id =? "m2" then Throw (Error "Request failed")
    else Return {| id := Some id;
                   payload := Some (Part None
                     (Some [{| name := "Subject"; value := "Re: " ++ id |}])
                     None None) |} in
  let response :=
    {| status := 200%Z; statusText := "OK";
       messages := Some [ {| id := Some "m1"; payload := None |};
                          {| id := Some "m2"; payload := None |};
                          {| id := None; payload := None |};
                          {| id := Some "m3"; payload := None |} ] |} in
  exists s',
    Gmail.fetchEmailsWithLabelSubjects
      (Hosts.mailbox (Return response) answer) "work" tt
    = (Return [ {| Gmail.subject := "Re: m1"; Gmail.messageId := "m1" |};
                {| Gmail.subject := "Re: m3"; Gmail.messageId := "m3" |} ], s').
Proof.
  intros answer response.
  apply (proj2 (proj2 (proj2
           (fetchEmailsWithLabelSubjects_degrades unit
              (Hosts.mailbox (Return response) answer) "work" tt)))
           response tt answer eq_refl eq_refl).
  intros params s0. reflexivity.
Defined.

(** ** The authenticated client *)

(** C4. Without a token, or with the empty token, [getAuthClient] returns
    nothing. With a non-empty token that [JSON.parse] rejects, it still
    returns the client that the constructor built (a defined handle, with
    no credentials set), not nothing. *)
Theorem getAuthClient_token_cases
        (Client Token : Type) (lib : Auth.AuthLib Client Token)
        (credentials : Auth.GoogleCredentials) :
  Auth.getAuthClient lib credentials None = None
  /\ Auth.getAuthClient lib credentials (Some "") = None
  /\ (forall token client e,
         token <> "" ->
         Auth.OAuth2Client_new lib (Auth.client_id credentials)
           (Auth.client_secret credentials)
           (hd_error (Auth.redirect_uris credentials)) = Return client ->
         Auth.JSON_parse lib token = Throw e ->
         Auth.getAuthClient lib credentials (Some token) = Some client).
Proof.
  repeat split.
  intros token client e Hne Hnew Hparse. unfold Auth.getAuthClient.
  cbn [truthy_opt or_else]. rewrite (truthy_true _ Hne). cbn [negb].
  now rewrite Hnew, Hparse.
Qed.

Lemma getAuthClient_token_cases_witness :
  let credentials :=
    {| Auth.client_id := "id.apps.example"; Auth.client_secret := "secret";
       Auth.redirect_uris := ["http://127.0.0.1:42601"];
       Auth.redirect_port := 42601%Z |} in
  Auth.getAuthClient Hosts.authLib credentials (Some "not json")
  = Some ("id.apps.example", None).
Proof.
  intros credentials.
  refine (proj2 (proj2 (getAuthClient_token_cases _ _ Hosts.authLib credentials))
            "not json" ("id.apps.example", None)
            {| err_name := "SyntaxError"; message := "Unexpected token in JSON" |}
            _ eq_refl eq_refl).
  discriminate.
Defined.

(** ** The date of a message *)

Lemma truthy_append_r (a b : string) : truthy b = true -> truthy (a ++ b) = true.
Proof. destruct a; [auto | reflexivity]. Qed.

(** An ISO timestamp is never the empty string. *)
Lemma toISOString_truthy (t : Z) : truthy (JsDate.toISOString t) = true.
Proof.
  unfold JsDate.toISOString.
  destruct (JsDate.civil_from_days (t / JsDate.msPerDay)) as [[y m] d].
  now apply truthy_append_r.
Qed.

Section MessageDate.
Context {S : Type} (service : GmailOps S) (clock : JsDate.DateOps).
Variable decode : string -> string.

(** C9. When the message has a [Date] header whose value the host cannot
    parse, [fetchEmailContent] throws the [RangeError] of [toISOString], so
    there is no e-mail to take a date for.  When the header is there and
    is parsed, the e-mail carries its ISO form and the date taken for the
    file name is [new Date] of that ISO text, not the current time.  The
    current time is taken when the message has no [Date] header, and only
    then: an e-mail for which [emailDate] does not read its [date] field
    comes from a message without the header. *)
Theorem fetchEmailContent_malformed_date (messageId : string) (s : S) :
  (forall message s1 payload header,
      users_messages_get service (fullQuery messageId) s = (Return message, s1) ->
      GmailApi.payload message = Some payload ->
      Files.findHeader "date" (headersOf payload) = Some header ->
      JsDate.Date_parse clock (value header) = None ->
      Files.fetchEmailContent decode service clock messageId s
      = (Throw (RangeError "Invalid time value"), s1))
  /\ (forall message s1 payload header t,
         users_messages_get service (fullQuery messageId) s = (Return message, s1) ->
         GmailApi.payload message = Some payload ->
         Files.findHeader "date" (headersOf payload) = Some header ->
         JsDate.Date_parse clock (value header) = Some t ->
         exists email,
           Files.fetchEmailContent decode service clock messageId s
           = (Return email, s1)
           /\ Files.date email = Some (JsDate.toISOString t)
           /\ Main.emailDate clock email
              = JsDate.Date_parse clock (JsDate.toISOString t))
  /\ (forall message s1 payload,
         users_messages_get service (fullQuery messageId) s = (Return message, s1) ->
         GmailApi.payload message = Some payload ->
         Files.findHeader "date" (headersOf payload) = None ->
         exists email,
           Files.fetchEmailContent decode service clock messageId s
           = (Return email, s1)
           /\ Main.emailDate clock email = Some (JsDate.Date_now clock))
  /\ (forall email s1,
         Files.fetchEmailContent decode service clock messageId s
         = (Return email, s1) ->
         Main.emailDate clock email
         <> JsDate.Date_parse clock (or_else (Files.date email) "") ->
         exists message payload,
           users_messages_get service (fullQuery messageId) s
           = (Return message, s1)
           /\ GmailApi.payload message = Some payload
           /\ Files.findHeader "date" (headersOf payload) = None
           /\ Main.emailDate clock email = Some (JsDate.Date_now clock)).
Proof.
  unfold Files.fetchEmailContent, try_catch, bind, fullQuery, headersOf.
  repeat split.
  - intros message s1 payload header -> Hp Hh Hd. rewrite Hp.
    unfold Files.extractDate. now rewrite Hh, Hd.
  - intros message s1 payload header t -> Hp Hh Hd. rewrite Hp.
    unfold Files.extractDate. rewrite Hh, Hd. unfold ret.
    destruct (Files.extractBodies decode payload) as [h x].
    eexists. split; [reflexivity|]. split; [reflexivity|].
    unfold Main.emailDate. cbn [Files.date truthy_opt or_else].
    now rewrite toISOString_truthy.
  - intros message s1 payload -> Hp Hh. rewrite Hp.
    unfold Files.extractDate. rewrite Hh. unfold ret.
    destruct (Files.extractBodies decode payload) as [h x].
    eexists. split; reflexivity.
  - intros email s1.
    destruct (users_messages_get service _ s) as [[message|e] s0];
      [|discriminate].
    destruct (GmailApi.payload message) as [payload|] eqn:Hp; [|discriminate].
    unfold Files.extractDate.
    destruct (Files.findHeader "date" _) as [header|] eqn:Hh.
    + destruct (JsDate.Date_parse clock (value header)) as [t|];
        [|discriminate].
      unfold ret. destruct (Files.extractBodies decode payload) as [h x].
      intros [= <- <-]. unfold Main.emailDate.
      cbn [Files.date truthy_opt or_else].
      rewrite toISOString_truthy. intros Hne. now destruct Hne.
    + unfold ret. destruct (Files.extractBodies decode payload) as [h x].
      intros [= <- <-] _. exists message, payload.
      split; [reflexivity|]. split; [exact Hp|]. split; [exact Hh | reflexivity].
Qed.
End MessageDate.

Lemma fetchEmailContent_malformed_date_witness :
  let malformed :=
    Part (Some "text/plain")
      (Some [ {| name := "From"; value := "a@b.com" |};
              {| name := "Date"; value := "yesterday" |} ])
      (Some {| data := Some "SGk=" |}) None in
  let dated :=
    Part (Some "text/plain")
      (Some [ {| name := "From"; value := "a@b.com" |};
              {| name := "Date"; value := "Fri, 15 Mar 2024 00:00:00 +0000" |} ])
      (Some {| data := Some "SGk=" |}) None in
  let answering payload :=
    Hosts.mailbox (Throw (Error "unused"))
      (fun _ => Return {| id := Some "m1"; payload := Some payload |}) in
  Files.fetchEmailContent Base64.decode_to_string (answering malformed)
    Hosts.clock "m1" tt
  = (Throw (RangeError "Invalid time value"), tt)
  /\ exists email,
      Files.fetchEmailContent Base64.decode_to_string (answering dated)
        Hosts.clock "m1" tt
      = (Return email, tt)
      /\ Files.date email = Some "2024-03-15T00:00:00.000Z"
      /\ Main.emailDate Hosts.clock email = Some 1710460800000%Z.
Proof.
  intros malformed dated answering. split.
  - exact (proj1 (fetchEmailContent_malformed_date
                    (answering malformed) Hosts.clock Base64.decode_to_string
                    "m1" tt)
             {| id := Some "m1"; payload := Some malformed |} tt malformed
             {| name := "Date"; value := "yesterday" |}
             eq_refl eq_refl eq_refl eq_refl).
  - exact (proj1 (proj2 (fetchEmailContent_malformed_date
                           (answering dated) Hosts.clock Base64.decode_to_string
                           "m1" tt))
             {| id := Some "m1"; payload := Some dated |} tt dated
             {| name := "Date"; value := "Fri, 15 Mar 2024 00:00:00 +0000" |}
             1710460800000%Z eq_refl eq_refl eq_refl eq_refl).
Defined.

(** ** Sender extraction *)

Section SenderFacts.
Context {R : Type}.
Variable k : nat -> string -> Captures -> option R.

(** The first alternative at an opening bracket: the group takes the run
    up to the first closing bracket. *)
Lemma angleAddress_match (pos : nat) (addr post : string) (caps : Captures)
      (x : R) :
  addr <> "" ->
  JsString.forallb (Files.is_not ">") addr = true ->
  k (pos + String.length addr + 2) post ((1, addr) :: caps) = Some x ->
  rmatch Files.angleAddress pos ("<" ++ addr ++ ">" ++ post) caps k = Some x.
Proof.
  intros Hne Haddr Hk. destruct addr as [|c addr]; [contradiction|].
  simpl in Haddr. apply andb_prop in Haddr as [Hc Haddr].
  unfold Files.angleAddress. cbn [rmatch append strip_prefix String.length].
  rewrite Ascii.eqb_refl. cbn [class_plus]. rewrite Hc.
  apply class_many_greedy; [reflexivity | assumption |].
  cbn [strip_prefix]. rewrite Ascii.eqb_refl.
  replace (Datatypes.S (pos + 1) + String.length addr - (pos + 1))
    with (Datatypes.S (String.length addr)) by lia.
  cbn [substring]. rewrite substring_0_append.
  replace (Datatypes.S (pos + 1) + String.length addr + 1)
    with (pos + String.length (String c addr) + 2) by (cbn; lia).
  exact Hk.
Qed.

Lemma angleAddress_sound (pos : nat) (s : string) (caps : Captures) (x : R) :
  rmatch Files.angleAddress pos s caps k = Some x ->
  exists addr post,
    s = "<" ++ addr ++ ">" ++ post
    /\ addr <> "" /\ JsString.forallb (Files.is_not ">") addr = true.
Proof.
  unfold Files.angleAddress. cbn [rmatch].
  destruct (strip_prefix "<" s) as [s1|] eqn:E1; [|discriminate].
  apply strip_prefix_sound in E1. intros H.
  apply class_plus_sound in H as (addr & s2 & -> & Hne & Haddr & H).
  destruct (strip_prefix ">" s2) as [post|] eqn:E2; [|discriminate].
  apply strip_prefix_sound in E2. subst. eauto.
Qed.

Lemma angleAddress_other_start (pos : nat) (c : ascii) (s : string)
      (caps : Captures) :
  Files.is_not "<" c = true ->
  rmatch Files.angleAddress pos (String c s) caps k = None.
Proof.
  unfold Files.is_not. intros H. apply negb_true_iff in H.
  unfold Files.angleAddress. cbn [rmatch strip_prefix].
  rewrite Ascii.eqb_sym in H. now rewrite H.
Qed.

(** Nor at an opening bracket that a closing one follows at once. *)
Lemma angleAddress_empty_run (pos : nat) (s : string) (caps : Captures) :
  rmatch Files.angleAddress pos (String "<" (String ">" s)) caps k = None.
Proof. reflexivity. Qed.

(** The second alternative hands the end of the input to its
    continuation, and only for a bare address at index 0. *)
Lemma bareAddress_sound (pos : nat) (s : string) (caps : Captures) (x : R) :
  rmatch Files.bareAddress pos s caps k = Some x ->
  pos = 0 /\ bareForm s /\ k (String.length s) "" caps = Some x.
Proof.
  unfold Files.bareAddress. cbn [rmatch].
  destruct (Nat.eqb_spec pos 0) as [->|]; [|discriminate]. intros H.
  apply class_plus_sound in H as (local & s1 & -> & Hl & Hlocal & H).
  destruct (strip_prefix "@" s1) as [s2|] eqn:E1; [|discriminate].
  apply strip_prefix_sound in E1. subst s1.
  apply class_plus_sound in H as (domain & s3 & -> & Hd & Hdomain & H).
  destruct s3; [|discriminate]. rewrite append_nil_r in *.
  split; [reflexivity|]. split.
  - exists local, domain. auto.
  - rewrite <- H. f_equal. rewrite !length_append. cbn. lia.
Qed.

Lemma bareAddress_complete (local domain : string) (caps : Captures) (x : R) :
  local <> "" -> JsString.forallb Files.not_lt_space local = true ->
  domain <> "" -> JsString.forallb Files.not_gt_space domain = true ->
  k (String.length (local ++ "@" ++ domain)) "" caps = Some x ->
  rmatch Files.bareAddress 0 (local ++ "@" ++ domain) caps k = Some x.
Proof.
  intros Hl Hlocal Hd Hdomain Hk.
  assert (He : exists y,
             rmatch Files.bareAddress 0 (local ++ "@" ++ domain) caps k = Some y).
  { unfold Files.bareAddress. cbn [rmatch Nat.eqb].
    destruct local as [|c local]; [contradiction|].
    simpl in Hlocal. apply andb_prop in Hlocal as [Hc Hlocal].
    cbn [append class_plus]. rewrite Hc.
    apply (class_many_complete _ _ local ("@" ++ domain) 1 x Hlocal).
    cbn [append strip_prefix]. rewrite Ascii.eqb_refl.
    destruct domain as [|d domain]; [contradiction|].
    simpl in Hdomain. apply andb_prop in Hdomain as [Hdc Hdomain].
    cbn [class_plus]. rewrite Hdc.
    apply class_many_greedy_end; [assumption|].
    rewrite <- Hk. f_equal. cbn. rewrite !length_append. cbn. lia. }
  destruct He as [y Hy]. rewrite Hy.
  apply bareAddress_sound in Hy as (_ & _ & Hy). congruence.
Qed.
End SenderFacts.

Section SenderSearch.
Context {R : Type}.
Variable k : nat -> string -> Captures -> option R.

Lemma class_plus_eol_none (p : ascii -> bool) (caps : Captures) :
  forall s pos,
    JsString.forallb p s = false ->
    class_plus p pos s (fun pos' s' => rmatch Eol pos' s' caps k) = None.
Proof.
  assert (Hmany : forall s pos,
             JsString.forallb p s = false ->
             class_many p pos s (fun pos' s' => rmatch Eol pos' s' caps k)
             = None).
  { induction s as [|c s IH]; intros pos H; [discriminate|].
    simpl in H. cbn [class_many]. destruct (p c); [|reflexivity].
    now rewrite (IH _ H). }
  intros [|c s] pos H; [discriminate|].
  simpl in H. cbn [class_plus]. destruct (p c); [|reflexivity].
  now apply Hmany.
Qed.

Lemma not_gt_space_false (a r : string) :
  JsString.forallb (Files.is_not ">") r = false ->
  JsString.forallb Files.not_gt_space (a ++ r) = false.
Proof.
  intros H. rewrite forallb_append.
  destruct (JsString.forallb Files.not_gt_space r) eqn:E;
    [|apply andb_false_r].
  rewrite (forallb_impl Files.not_gt_space (Files.is_not ">") r) in H;
    [discriminate | | assumption].
  intros c Hc. unfold Files.not_gt_space in Hc.
  now apply andb_prop in Hc as [Hc _].
Qed.

Lemma bracketed_step (c : ascii) (s : string) :
  bracketed (String c s) -> Files.not_lt_space c = true -> bracketed s.
Proof.
  intros (a & r & E & Ha & Hr) Hc. destruct a as [|d a].
  - cbn in E. injection E as -> _. discriminate.
  - cbn in E. injection E as -> ->. simpl in Ha.
    apply andb_prop in Ha as [_ Ha]. exists a, r. auto.
Qed.

(** The second alternative fails on such a string: the local part
    cannot pass the opening bracket and the rest cannot pass the closing
    one. *)
Lemma bareAddress_bracketed (pos : nat) (s : string) (caps : Captures) :
  bracketed s -> rmatch Files.bareAddress pos s caps k = None.
Proof.
  intros Hs. unfold Files.bareAddress. cbn [rmatch].
  destruct (pos =? 0)%nat; [|reflexivity].
  assert (Hk : forall pos' s',
             bracketed s' ->
             rmatch (Seq (Chars "@") (Seq (ClassPlus Files.not_gt_space) Eol))
               pos' s' caps k = None).
  { intros pos' s' (a & r & -> & Ha & Hr). cbn [rmatch].
    destruct a as [|d a]; [reflexivity|]. cbn [append strip_prefix].
    destruct (Ascii.eqb "@" d); [|reflexivity].
    apply class_plus_eol_none. apply not_gt_space_false.
    simpl. exact Hr. }
  destruct s as [|c s].
  - reflexivity.
  - cbn [class_plus]. destruct (Files.not_lt_space c) eqn:Hc; [|reflexivity].
    apply (class_many_none _ _ bracketed).
    + apply bracketed_step.
    + intros pos' s' Hs'. now apply Hk.
    + now apply (bracketed_step c).
Qed.
End SenderSearch.

(** The search stops at the first index at which the expression matches. *)
Lemma search_sound (r : regex) :
  forall s pos m,
    search r pos s = Some m ->
    exists skipped s',
      s = skipped ++ s' /\ match_at r (pos + String.length skipped) s' = Some m.
Proof.
  induction s as [|c s IH]; intros pos m H; cbn [search] in H.
  - destruct (match_at r pos "") eqn:E; [|discriminate].
    exists "", "". now rewrite Nat.add_0_r, E.
  - destruct (match_at r pos (String c s)) eqn:E.
    + exists "", (String c s). now rewrite Nat.add_0_r, E.
    + destruct (IH _ _ H) as (skipped & s' & -> & Hm).
      exists (String c skipped), s'. split; [reflexivity|].
      cbn [String.length]. now rewrite Nat.add_succ_r.
Qed.

(** A closing bracket after an opening one makes a text bracketed,
    whatever stands before. *)
Lemma bracketed_intro (r : string) :
  JsString.forallb (Files.is_not ">") r = false ->
  forall u, bracketed (u ++ "<" ++ r).
Proof.
  intros Hr. induction u as [|d u IH].
  - exists "", r. auto.
  - destruct IH as (a & r' & E & Ha & Hr').
    destruct (Ascii.eqb_spec d "<") as [->|Hd].
    + exists "", (u ++ "<" ++ r). repeat split.
      rewrite forallb_append. cbn [append JsString.forallb].
      rewrite Hr. now rewrite !andb_false_r.
    + exists (String d a), r'.
      change (String d u ++ "<" ++ r) with (String d (u ++ "<" ++ r)).
      rewrite E. split; [reflexivity|]. split; [|exact Hr'].
      cbn [JsString.forallb]. rewrite Ha. unfold Files.is_not.
      apply Ascii.eqb_neq in Hd. now rewrite Hd.
Qed.

Lemma startsWith_append (p a b : string) :
  startsWith p a = true -> startsWith p (a ++ b) = true.
Proof.
  unfold startsWith. destruct (strip_prefix p a) as [r|] eqn:E; [|discriminate].
  apply strip_prefix_sound in E. subst a. intros _.
  now rewrite append_assoc, strip_prefix_append.
Qed.

Lemma emptyBrackets_append (a b : string) :
  emptyBrackets a = true -> emptyBrackets b = true ->
  emptyBrackets (a ++ b) = true.
Proof.
  intros Ha Hb. induction a as [|c a IH]; [exact Hb|].
  cbn [append emptyBrackets] in *. apply andb_prop in Ha as [Hc Ha].
  rewrite (IH Ha), andb_true_r.
  destruct (Ascii.eqb c "<"); [now apply startsWith_append | reflexivity].
Qed.

(** In a value of the form [pre<addr>post], where no bracketed run can
    start in [pre] and [addr] holds no closing bracket, the search finds
    the bracketed address and group 1 is [addr]. *)
Lemma search_angle (addr post : string) :
  addr <> "" ->
  JsString.forallb (Files.is_not ">") addr = true ->
  forall pre pos,
    emptyBrackets pre = true ->
    exists m,
      search Files.fromRegex pos (pre ++ "<" ++ addr ++ ">" ++ post) = Some m
      /\ m_caps m = [(1, addr)].
Proof.
  intros Hne Haddr. induction pre as [|c pre IH]; intros pos Hpre.
  - cbn [append search]. unfold match_at, Files.fromRegex. cbn [rmatch].
    change (String "<" (addr ++ String ">" post)) with ("<" ++ addr ++ ">" ++ post).
    rewrite (angleAddress_match _ pos addr post [] _ Hne Haddr eq_refl).
    eexists. split; reflexivity.
  - cbn [emptyBrackets] in Hpre. apply andb_prop in Hpre as [Hc Hpre].
    cbn [append search].
    assert (Hnone : match_at Files.fromRegex pos
                      (String c (pre ++ "<" ++ addr ++ ">" ++ post)) = None).
    { unfold match_at, Files.fromRegex. cbn [rmatch].
      assert (Ha : forall k : nat -> string -> Captures -> option Match,
                 rmatch Files.angleAddress pos
                   (String c (pre ++ "<" ++ addr ++ ">" ++ post)) [] k = None).
      { intros k. destruct (Ascii.eqb_spec c "<") as [->|Hd].
        - unfold startsWith in Hc.
          destruct (strip_prefix ">" pre) as [pre'|] eqn:E; [|discriminate].
          apply strip_prefix_sound in E. subst pre.
          apply angleAddress_empty_run.
        - apply angleAddress_other_start. unfold Files.is_not.
          apply Ascii.eqb_neq in Hd. now rewrite Hd. }
      rewrite Ha. apply bareAddress_bracketed.
      apply (bracketed_intro (addr ++ ">" ++ post)) with (u := String c pre).
      rewrite forallb_append. simpl. apply andb_false_r. }
    cbn [append] in Hnone. rewrite Hnone. apply IH. assumption.
Qed.

Lemma trimEnd_no_space (s : string) :
  JsString.forallb (fun c => negb (is_space c)) s = true -> trimEnd s = s.
Proof.
  induction s as [|c s IH]; [reflexivity|]. simpl. intros H.
  apply andb_prop in H as [Hc Hs]. apply negb_true_iff in Hc.
  now rewrite Hc, (IH Hs).
Qed.

Lemma trim_no_space (s : string) :
  JsString.forallb (fun c => negb (is_space c)) s = true -> trim s = s.
Proof.
  intros H. unfold trim.
  assert (Hs : trimStart s = s).
  { destruct s as [|c s]; [reflexivity|]. simpl in *.
    apply andb_prop in H as [Hc _]. apply negb_true_iff in Hc. now rewrite Hc. }
  rewrite Hs. now apply trimEnd_no_space.
Qed.

Lemma bareForm_no_space (v : string) :
  bareForm v -> JsString.forallb (fun c => negb (is_space c)) v = true.
Proof.
  intros (local & domain & -> & _ & Hl & _ & Hd).
  assert (Hl' : JsString.forallb (fun c => negb (is_space c)) local = true).
  { revert Hl. apply forallb_impl. intros c Hc.
    unfold Files.not_lt_space in Hc. now apply andb_prop in Hc as [_ Hc]. }
  assert (Hd' : JsString.forallb (fun c => negb (is_space c)) domain = true).
  { revert Hd. apply forallb_impl. intros c Hc.
    unfold Files.not_gt_space in Hc. now apply andb_prop in Hc as [_ Hc]. }
  rewrite !forallb_append. cbn [JsString.forallb]. now rewrite Hl', Hd'.
Qed.

(** A bare address is matched whole by the second alternative, without
    any group. *)
Lemma match_bare (v : string) :
  bareForm v ->
  match_ Files.fromRegex v
  = Some {| m_index := 0; m_end := String.length v; m_text := v;
            m_caps := []; m_rest := "" |}.
Proof.
  intros (local & domain & -> & Hl & Hlocal & Hd & Hdomain).
  set (v := local ++ "@" ++ domain).
  assert (Hm : match_at Files.fromRegex 0 v
               = Some {| m_index := 0; m_end := String.length v; m_text := v;
                         m_caps := []; m_rest := "" |}).
  { unfold match_at, Files.fromRegex. cbn [rmatch].
    assert (Ha : forall k : nat -> string -> Captures -> option Match,
               rmatch Files.angleAddress 0 v [] k = None).
    { intros k. subst v. destruct local as [|c local]; [contradiction|].
      simpl in Hlocal. apply andb_prop in Hlocal as [Hc _].
      unfold Files.not_lt_space in Hc. apply andb_prop in Hc as [Hc _].
      now apply angleAddress_other_start. }
    rewrite Ha. subst v. apply bareAddress_complete; auto.
    now rewrite Nat.sub_0_r, substring_0_length. }
  unfold match_. destruct v; cbn [search]; now rewrite Hm.
Qed.

(** What a match of [fromRegex] says about the value. *)
Lemma match_fromRegex_forms (v : string) (m : Match) :
  match_ Files.fromRegex v = Some m -> angleForm v \/ bareForm v.
Proof.
  intros H. apply search_sound in H as (skipped & s' & -> & H).
  unfold match_at, Files.fromRegex in H. cbn [rmatch] in H.
  destruct (rmatch Files.angleAddress _ s' [] _) eqn:Ea.
  - left. apply angleAddress_sound in Ea as (addr & post & -> & Hne & Haddr).
    exists skipped, addr, post. auto.
  - right. apply bareAddress_sound in H as (Hpos & Hb & _).
    destruct skipped; [assumption | discriminate].
Qed.

(** C8, as amended. With a [From] header of the form [Name <addr>], where
    the address is the first bracketed run of the value (every opening
    bracket of the name is directly followed by a closing one; a name
    without opening bracket is the usual case) and is not empty and holds
    no closing bracket, the sender is exactly the address between the
    brackets, trimmed. With a bare address token, the sender is that token.
    Without a [From] header, or with one whose value has neither form, the
    sender is ['unknown']. *)
Theorem sender_extraction (headers : list Header) :
  (forall header name addr,
      Files.findHeader "from" headers = Some header ->
      value header = name ++ " <" ++ addr ++ ">" ->
      emptyBrackets name = true ->
      addr <> "" ->
      JsString.forallb (Files.is_not ">") addr = true ->
      Files.extractFrom headers = trim addr)
  /\ (forall header,
         Files.findHeader "from" headers = Some header ->
         bareForm (value header) ->
         Files.extractFrom headers = value header)
  /\ (Files.findHeader "from" headers = None ->
      Files.extractFrom headers = "unknown")
  /\ (forall header,
         Files.findHeader "from" headers = Some header ->
         ~ angleForm (value header) -> ~ bareForm (value header) ->
         Files.extractFrom headers = "unknown").
Proof.
  unfold Files.extractFrom. repeat split.
  - intros header name addr -> Hv Hname Hne Haddr. rewrite Hv.
    destruct (search_angle addr "" Hne Haddr (name ++ " ") 0) as (m & Hm & Hc).
    { now apply emptyBrackets_append. }
    unfold match_. rewrite append_assoc in Hm. cbn [append] in Hm |- *.
    rewrite Hm, Hc. cbn [capture Nat.eqb or_else].
    now rewrite (truthy_true _ Hne).
  - intros header -> Hb. rewrite (match_bare _ Hb).
    cbn [m_caps capture or_else m_text]. apply trim_no_space.
    now apply bareForm_no_space.
  - now intros ->.
  - intros header -> Ha Hb.
    destruct (match_ Files.fromRegex (value header)) as [m|] eqn:E;
      [|reflexivity].
    destruct (match_fromRegex_forms _ _ E); contradiction.
Qed.

Lemma sender_extraction_witness :
  Files.extractFrom [ {| name := "Subject"; value := "Hi" |};
                      {| name := "FROM"; value := "Ann <> Lee <ann@example.org>" |} ]
  = "ann@example.org".
Proof.
  refine (proj1 (sender_extraction
                   [ {| name := "Subject"; value := "Hi" |};
                     {| name := "FROM"; value := "Ann <> Lee <ann@example.org>" |} ])
            {| name := "FROM"; value := "Ann <> Lee <ann@example.org>" |}
            "Ann <> Lee" "ann@example.org" eq_refl eq_refl eq_refl _ eq_refl).
  discriminate.
Defined.

(** C8 as stated fails: the expression takes the first bracketed run of
    the value, so a display name that holds one (here in a quoted string)
    is taken for the address. *)
Lemma sender_takes_first_bracket :
  let display := Files.q ++ "Support <noreply>" ++ Files.q in
  let header :=
    {| name := "From"; value := display ++ " <" ++ "support@example.com" ++ ">" |} in
  emptyBrackets display = false
  /\ Files.extractFrom [header] = "noreply"
  /\ Files.extractFrom [header] <> "support@example.com".
Proof. repeat split. discriminate. Qed.

(** ** Termination of the image scan *)

Lemma strip_prefix_i_sound (p : string) :
  forall s r, strip_prefix_i p s = Some r ->
              exists a, s = a ++ r /\ String.length a = String.length p.
Proof.
  induction p as [|c p IH]; intros s r H; simpl in H.
  - exists "". now inversion H.
  - destruct s as [|d s]; [discriminate|].
    destruct (Ascii.eqb (upper c) (upper d)); [|discriminate].
    destruct (IH _ _ H) as (a & -> & Hlen).
    exists (String d a). simpl. now rewrite Hlen.
Qed.

Lemma take_class_sound (p : ascii -> bool) (n : nat) :
  forall s r, take_class p n s = Some r ->
              exists a, s = a ++ r /\ String.length a = n.
Proof.
  induction n as [|n IH]; intros s r H; simpl in H.
  - exists "". now inversion H.
  - destruct s as [|d s]; [discriminate|].
    destruct (p d); [|discriminate].
    destruct (IH _ _ H) as (a & -> & Hlen).
    exists (String d a). simpl. now rewrite Hlen.
Qed.

(** A match hands to its continuation the input left after what it
    consumed, and the index of that point. *)
Lemma rmatch_sound {R : Type} (r : regex) :
  forall pos s caps (k : nat -> string -> Captures -> option R) x,
    rmatch r pos s caps k = Some x ->
    exists consumed s' caps',
      s = consumed ++ s' /\ k (pos + String.length consumed) s' caps' = Some x.
Proof.
  induction r as [lit|lit|p|p n|i r IH|r1 IH1 r2 IH2|r1 IH1 r2 IH2| |];
    intros pos s caps k x H; cbn [rmatch] in H.
  - destruct (strip_prefix lit s) as [s'|] eqn:E; [|discriminate].
    apply strip_prefix_sound in E. eauto.
  - destruct (strip_prefix_i lit s) as [s'|] eqn:E; [|discriminate].
    apply strip_prefix_i_sound in E as (a & -> & Hlen).
    rewrite <- Hlen in H. eauto.
  - apply class_plus_sound in H as (a & s' & -> & _ & _ & H). eauto.
  - destruct (take_class p n s) as [s'|] eqn:E; [|discriminate].
    apply take_class_sound in E as (a & -> & Hlen).
    rewrite <- Hlen in H. eauto.
  - apply IH in H as (consumed & s' & caps' & -> & H). eauto.
  - apply IH1 in H as (c1 & s1 & caps1 & -> & H).
    apply IH2 in H as (c2 & s2 & caps2 & -> & H).
    exists (c1 ++ c2), s2, caps2. split; [now rewrite append_assoc|].
    now rewrite length_append, Nat.add_assoc.
  - destruct (rmatch r1 pos s caps k) eqn:E.
    + inversion H; subst. now apply IH1 in E.
    + now apply IH2 in H.
  - destruct (pos =? 0)%nat; [|discriminate].
    exists "", s, caps. now rewrite Nat.add_0_r.
  - destruct s; [|discriminate].
    exists "", "", caps. now rewrite Nat.add_0_r.
Qed.

(** A match of [imgRegex] leaves less input than it was given. *)
Lemma search_imgRegex_shorter :
  forall s pos m,
    search Files.imgRegex pos s = Some m ->
    String.length (m_rest m) < String.length s.
Proof.
  intros s pos m H.
  apply search_sound in H as (skipped & s1 & -> & H).
  unfold match_at, Files.imgRegex in H.
  match type of H with
  | context [Seq (Chars "<img") ?t] => remember t as tail
  end.
  cbn [rmatch] in H.
  destruct (strip_prefix "<img" s1) as [s2|] eqn:E; [|discriminate].
  apply strip_prefix_sound in E. subst s1.
  apply rmatch_sound in H as (consumed & s' & caps' & -> & H).
  injection H as <-. cbn [m_rest].
  rewrite (length_append skipped), (length_append "<img"),
    (length_append consumed).
  cbn [String.length]. lia.
Qed.

Lemma exec_loop_imgRegex_total :
  forall fuel s pos,
    String.length s < fuel ->
    exists ms, exec_loop fuel Files.imgRegex pos s = Some ms.
Proof.
  induction fuel as [|fuel IH]; intros s pos Hlen; [lia|].
  cbn [exec_loop].
  destruct (search Files.imgRegex pos s) as [m|] eqn:E; [|eauto].
  pose proof (search_imgRegex_shorter _ _ _ E) as Hshort.
  destruct (IH (m_rest m) (m_end m)) as [ms ->]; [lia | eauto].
Qed.

(** The scan of [extractImageUrls] comes to an end within its fuel: the
    result is the list of the groups 1 of all the matches. *)
Lemma extractImageUrls_fuel (html : string) :
  exists ms,
    exec_loop (Datatypes.S (String.length html)) Files.imgRegex 0 html = Some ms
    /\ Files.extractImageUrls html = List.map (Files.group 1) ms.
Proof.
  destruct (exec_loop_imgRegex_total (Datatypes.S (String.length html)) html 0)
    as [ms Hms]; [lia|].
  exists ms. split; [assumption|].
  unfold Files.extractImageUrls. now rewrite Hms.
Qed.

(** When the constructor of the client throws, nothing is returned,
    whatever the token. *)
Lemma getAuthClient_constructor_throws
      (Client Token : Type) (lib : Auth.AuthLib Client Token)
      (credentials : Auth.GoogleCredentials) (token : option string)
      (e : JsError) :
  Auth.OAuth2Client_new lib (Auth.client_id credentials)
    (Auth.client_secret credentials)
    (hd_error (Auth.redirect_uris credentials)) = Throw e ->
  Auth.getAuthClient lib credentials token = None.
Proof.
  intros H. unfold Auth.getAuthClient. rewrite H.
  now destruct (negb (truthy_opt token)).
Qed.

(** ** The model on sample inputs *)

Example ex_join_default_template :
  Path.join ["Chronological"; "Email"; "YYYY/YYYY-MM"]
  = "Chronological/Email/YYYY/YYYY-MM".
Proof. reflexivity. Qed.

Example ex_join_normalizes :
  List.map (fun t => Path.join ["Chronological"; "Email"; t])
    [""; "a//b/./c"; "../x"; "YYYY/"]
  = ["Chronological/Email"; "Chronological/Email/a/b/c"; "Chronological/x";
     "Chronological/Email/YYYY/"].
Proof. reflexivity. Qed.

Example ex_join_vault :
  Path.join ["/home/ann/vault"; "Chronological/Email/2024/2024-03"]
  = "/home/ann/vault/Chronological/Email/2024/2024-03".
Proof. reflexivity. Qed.

Example ex_replace_first_only :
  replace "YYYY/YYYY-MM" "YYYY" "2024" = "2024/YYYY-MM".
Proof. reflexivity. Qed.

Example ex_year_month_alone :
  resolvedSubfolder "YYYY-MM" "20240315_101500 - a@b.com -- Hi.htm"
  = Some "Chronological/Email/2024-MM".
Proof. reflexivity. Qed.

(** Templates that are joined as written and whose tokens stand apart. *)
Example ex_templates_covered :
  List.map (fun t => joinedAsWritten t && tokensApart t)
    ["YYYY/YYYY-MM"; "Yearly/YYYY/YYYY-MM"; "YYYY/"; "Mail"; "YYYYY";
     "YYYYYYYY-MM"; "By year YYYY"]
  = [true; true; true; true; true; true; true].
Proof. reflexivity. Qed.

(** Templates whose tokens do not stand apart: there the two calls of
    [String.replace] leave a token, or a part of one, in place. *)
Example ex_templates_tokens_left :
  List.map
    (fun t =>
       (tokensApart t,
        resolvedSubfolder t "20240315_101500 - a@b.com -- Hi.htm",
        claimedSubfolder t "2024" "03"))
    ["YYYY-MM"; "YYYY/YYYY"; "YYYY-MM/YYYY"]
  = [ (false, Some "Chronological/Email/2024-MM", "Chronological/Email/2024-03");
      (false, Some "Chronological/Email/2024/YYYY", "Chronological/Email/2024/2024");
      (false, Some "Chronological/Email/2024-MM/YYYY",
       "Chronological/Email/2024-03/2024") ].
Proof. reflexivity. Qed.

(** Templates that [path.join] does not leave as written. *)
Example ex_templates_normalized :
  List.map
    (fun t =>
       (joinedAsWritten t,
        resolvedSubfolder t "20240315_101500 - a@b.com -- Hi.htm",
        claimedSubfolder t "2024" "03"))
    [""; "/YYYY"; "YYYY//YYYY-MM"; "./YYYY"; "YYYY/.."]
  = [ (false, Some "Chronological/Email", "Chronological/Email/");
      (false, Some "Chronological/Email/2024", "Chronological/Email//2024");
      (false, Some "Chronological/Email/2024/2024-03",
       "Chronological/Email/2024//2024-03");
      (false, Some "Chronological/Email/2024", "Chronological/Email/./2024");
      (false, Some "Chronological/Email", "Chronological/Email/2024/..") ].
Proof. reflexivity. Qed.

Example ex_toISOString :
  List.map JsDate.toISOString [0; 1710460800000; -1]%Z
  = ["1970-01-01T00:00:00.000Z"; "2024-03-15T00:00:00.000Z";
     "1969-12-31T23:59:59.999Z"].
Proof. reflexivity. Qed.

Example ex_base64 :
  Base64.encode [Byte.x4d; Byte.x61; Byte.x6e] = "TWFu"
  /\ Base64.encode [Byte.x4d; Byte.x61] = "TWE="
  /\ Base64.decode_to_string "PGI+SGk8L2I+" = "<b>Hi</b>".
Proof. repeat split. Qed.

Example ex_extractImageUrls :
  Files.extractImageUrls
    ("<p>" ++ imgTag "http://x/a.png" ++ "</p><img alt=" ++ Files.q ++ "b"
       ++ Files.q ++ " src=" ++ Files.q ++ "http://x/b.png" ++ Files.q ++ ">")
  = ["http://x/a.png"; "http://x/b.png"].
Proof. reflexivity. Qed.

Example ex_extractFrom :
  List.map (fun v => Files.extractFrom [{| name := "From"; value := v |}])
    ["Ann Lee <ann@example.org>"; "ann@example.org"; "nobody"; "< ann@example.org >"]
  = ["ann@example.org"; "ann@example.org"; "unknown"; "ann@example.org"].
Proof. reflexivity. Qed.

(** A single image whose fetch succeeds: the data URI stands where the URL
    was. *)
Example ex_inline_one_image :
  let png := {| Files.response_data := [Byte.x89; Byte.x50; Byte.x4e; Byte.x47];
                Files.content_type := Some "image/png" |} in
  fst (Files.prepareEmailContent Hosts.scripted
         {| Files.HtmlBody := Some (imgTag "http://x/a.png");
            Files.TextBody := None; Files.from := None; Files.date := None |}
         "" (Hosts.online [Return png]))
  = Return (imgTag "data:image/png;base64,iVBORw==").
Proof. reflexivity. Qed.

(** A message with a plain-text part only. *)
Example ex_fetch_text_only :
  let message :=
    {| id := Some "m1";
       payload := Some (Part (Some "text/plain")
                          (Some [ {| name := "From"; value := "Ann <ann@example.org>" |};
                                  {| name := "Date";
                                     value := "Fri, 15 Mar 2024 00:00:00 +0000" |} ])
                          (Some {| data := Some "SGVsbG8=" |}) None) |} in
  fst (Files.fetchEmailContent Base64.decode_to_string
         (Hosts.mailbox (Throw (Error "unused")) (fun _ => Return message))
         Hosts.clock "m1" tt)
  = Return {| Files.HtmlBody := Some ""; Files.TextBody := Some "Hello";
              Files.from := Some "ann@example.org";
              Files.date := Some "2024-03-15T00:00:00.000Z" |}.
Proof. reflexivity. Qed.

(* ================================================================== *)
(** * Further properties of the code *)

(** ** File names and headings *)

Lemma map_length (f : ascii -> ascii) (s : string) :
  String.length (JsString.map f s) = String.length s.
Proof. induction s as [|c s IH]; simpl; [reflexivity | now rewrite IH]. Qed.

Lemma removeInvalidFileNameChars_clean_aux (filename : string) :
  JsString.forallb validFileNameChar (Files.removeInvalidFileNameChars filename)
  = true.
Proof.
  unfold Files.removeInvalidFileNameChars.
  induction filename as [|c s IH]; [reflexivity|].
  cbn [JsString.map JsString.forallb]. rewrite IH, andb_true_r.
  unfold validFileNameChar.
  destruct (Files.invalidFileNameChar c) eqn:E; [reflexivity | now rewrite E].
Qed.

(** X1. [removeInvalidFileNameChars] keeps the length of a name and leaves
    none of the nine characters [< > : dquote / \ | ? *] in it. *)
Theorem removeInvalidFileNameChars_clean (filename : string) :
  String.length (Files.removeInvalidFileNameChars filename) = String.length filename
  /\ JsString.forallb validFileNameChar (Files.removeInvalidFileNameChars filename)
     = true.
Proof.
  split; [apply map_length | apply removeInvalidFileNameChars_clean_aux].
Qed.

(** X2. A name without these characters is left as it is, so sanitising
    twice is sanitising once. *)
Theorem removeInvalidFileNameChars_fixed (filename : string) :
  (JsString.forallb validFileNameChar filename = true ->
   Files.removeInvalidFileNameChars filename = filename)
  /\ Files.removeInvalidFileNameChars (Files.removeInvalidFileNameChars filename)
     = Files.removeInvalidFileNameChars filename.
Proof.
  assert (Hfix : forall s, JsString.forallb validFileNameChar s = true ->
                           Files.removeInvalidFileNameChars s = s).
  { unfold Files.removeInvalidFileNameChars.
    induction s as [|c s IH]; [reflexivity|].
    cbn [JsString.map JsString.forallb]. intros H.
    apply andb_prop in H as [Hc Hs]. unfold validFileNameChar in Hc.
    apply negb_true_iff in Hc. now rewrite Hc, (IH Hs). }
  split; [apply Hfix|].
  apply Hfix. apply removeInvalidFileNameChars_clean_aux.
Qed.

Lemma removeInvalidFileNameChars_fixed_witness :
  Files.removeInvalidFileNameChars "Re_ plan (v2).htm" = "Re_ plan (v2).htm".
Proof.
  apply (proj1 (removeInvalidFileNameChars_fixed "Re_ plan (v2).htm")).
  reflexivity.
Defined.

Lemma removeAll_clean (p : ascii -> bool) (s : string) :
  JsString.forallb (fun c => negb (p c)) (Files.removeAll p s) = true.
Proof.
  induction s as [|c s IH]; [reflexivity|]. cbn [Files.removeAll].
  destruct (p c) eqn:E; [assumption|]. cbn [JsString.forallb]. now rewrite E, IH.
Qed.

Lemma removeAll_fixed (p : ascii -> bool) (s : string) :
  JsString.forallb (fun c => negb (p c)) s = true -> Files.removeAll p s = s.
Proof.
  induction s as [|c s IH]; [reflexivity|]. cbn [JsString.forallb Files.removeAll].
  intros H. apply andb_prop in H as [Hc Hs]. apply negb_true_iff in Hc.
  now rewrite Hc, (IH Hs).
Qed.

Lemma trimStart_forallb (p : ascii -> bool) (s : string) :
  JsString.forallb p s = true -> JsString.forallb p (trimStart s) = true.
Proof.
  induction s as [|c s IH]; [reflexivity|]. cbn [trimStart]. intros H.
  destruct (is_space c); [|assumption].
  simpl in H. apply andb_prop in H as [_ Hs]. now apply IH.
Qed.

Lemma trimEnd_forallb (p : ascii -> bool) (s : string) :
  JsString.forallb p s = true -> JsString.forallb p (trimEnd s) = true.
Proof.
  induction s as [|c s IH]; [reflexivity|]. cbn [trimEnd JsString.forallb].
  intros H. apply andb_prop in H as [Hc Hs].
  destruct (is_space c && negb (truthy (trimEnd s))); [reflexivity|].
  cbn [JsString.forallb]. now rewrite Hc, (IH Hs).
Qed.

(** What is left by [trimStart] does not start with whitespace. *)
Lemma trimStart_head (s : string) (c : ascii) (r : string) :
  trimStart s = String c r -> is_space c = false.
Proof.
  induction s as [|d s IH]; [discriminate|]. cbn [trimStart].
  destruct (is_space d) eqn:E; [exact IH|]. now intros [= <- _].
Qed.

Lemma trimEnd_head (s : string) (c : ascii) (r : string) :
  trimEnd s = String c r -> exists r0, s = String c r0.
Proof.
  destruct s as [|d s]; [discriminate|]. cbn [trimEnd].
  destruct (is_space d && negb (truthy (trimEnd s))); [discriminate|].
  intros [= -> _]. eauto.
Qed.

(** What is left by [trimEnd] does not end with whitespace. *)
Lemma trimEnd_last (s : string) (c : ascii) :
  last (trimEnd s) = Some c -> is_space c = false.
Proof.
  induction s as [|d s IH]; [discriminate|]. cbn [trimEnd].
  destruct (trimEnd s) as [|e t] eqn:Et.
  - cbn [truthy negb]. rewrite andb_true_r.
    destruct (is_space d) eqn:Ed; [discriminate|]. now intros [= <-].
  - cbn [truthy negb]. rewrite andb_false_r.
    change (last (String d (String e t))) with (last (String e t)). exact IH.
Qed.

Lemma trimEnd_idempotent (s : string) : trimEnd (trimEnd s) = trimEnd s.
Proof.
  induction s as [|d s IH]; [reflexivity|]. cbn [trimEnd].
  destruct (is_space d && negb (truthy (trimEnd s))) eqn:E; [reflexivity|].
  cbn [trimEnd]. now rewrite IH, E.
Qed.

Lemma trimStart_fixed (s : string) :
  (forall c r, s = String c r -> is_space c = false) -> trimStart s = s.
Proof.
  destruct s as [|c s]; [reflexivity|]. intros H. cbn [trimStart].
  now rewrite (H c s eq_refl).
Qed.

Lemma trim_head (s : string) (c : ascii) (r : string) :
  trim s = String c r -> is_space c = false.
Proof.
  unfold trim. intros H. destruct (trimEnd_head _ _ _ H) as [r0 H0].
  now apply (trimStart_head s c r0).
Qed.

Lemma trim_idempotent (s : string) : trim (trim s) = trim s.
Proof.
  unfold trim at 1. rewrite trimStart_fixed.
  - unfold trim. apply trimEnd_idempotent.
  - intros c r. apply trim_head.
Qed.

(** X3. A heading sanitised by [sanitizeHeading] holds none of the symbols
    [\ / : | # ^ [ ]] and neither starts nor ends with whitespace. *)
Theorem sanitizeHeading_clean (text : string) :
  JsString.forallb legalHeadingChar (Files.sanitizeHeading text) = true
  /\ (forall c rest, Files.sanitizeHeading text = String c rest ->
                     is_space c = false)
  /\ (forall c, last (Files.sanitizeHeading text) = Some c -> is_space c = false).
Proof.
  unfold Files.sanitizeHeading. repeat split.
  - unfold trim. apply trimEnd_forallb, trimStart_forallb.
    apply (removeAll_clean Files.stockIllegalSymbol).
  - intros c rest. apply trim_head.
  - intros c. unfold trim. apply trimEnd_last.
Qed.

(** X4. [sanitizeHeading] is idempotent: a sanitised heading is left as it
    is. *)
Theorem sanitizeHeading_idempotent (text : string) :
  Files.sanitizeHeading (Files.sanitizeHeading text) = Files.sanitizeHeading text.
Proof.
  unfold Files.sanitizeHeading at 1.
  rewrite removeAll_fixed.
  - apply trim_idempotent.
  - unfold Files.sanitizeHeading, trim. apply trimEnd_forallb, trimStart_forallb.
    apply (removeAll_clean Files.stockIllegalSymbol).
Qed.

Lemma sanitizeHeading_clean_witness :
  Files.sanitizeHeading " [Ann]: a/b " = "Ann ab" /\ is_space "A" = false.
Proof.
  split; [reflexivity|].
  apply (proj1 (proj2 (sanitizeHeading_clean " [Ann]: a/b ")) "A"%char "nn ab").
  reflexivity.
Defined.

(** ** The image scan *)

(** A match of [imgRegex], read back on the input. *)
Lemma imgRegex_match_sound (pos : nat) (s : string) (m : Match) :
  match_at Files.imgRegex pos s = Some m ->
  exists attrs url,
    s = "<img" ++ attrs ++ ("src=" ++ Files.q) ++ url ++ Files.q ++ m_rest m
    /\ attrs <> "" /\ JsString.forallb (Files.is_not ">") attrs = true
    /\ url <> "" /\ JsString.forallb srcChar url = true
    /\ Files.group 1 m = url.
Proof.
  unfold match_at, Files.imgRegex. cbn [rmatch]. intros H.
  destruct (strip_prefix "<img" s) as [s1|] eqn:E1; [|discriminate].
  apply strip_prefix_sound in E1. subst s.
  apply class_plus_sound in H as (attrs & s2 & -> & Hne & Hattrs & H).
  destruct (strip_prefix ("src=" ++ Files.q) s2) as [s3|] eqn:E2; [|discriminate].
  apply strip_prefix_sound in E2. subst s2.
  apply class_plus_sound in H as (url & s4 & -> & Hune & Hurl & H).
  destruct (strip_prefix Files.q s4) as [s5|] eqn:E3; [|discriminate].
  apply strip_prefix_sound in E3. subst s4.
  injection H as <-. exists attrs, url. cbn [m_rest].
  repeat split; try assumption.
  unfold Files.group. cbn [m_caps capture Nat.eqb].
  rewrite Nat.add_comm, Nat.add_sub. apply substring_0_append.
Qed.

Lemma exec_loop_imgRegex_sound :
  forall fuel s pos ms,
    exec_loop fuel Files.imgRegex pos s = Some ms ->
    forall m, In m ms ->
      imgSource s (Files.group 1 m)
      /\ Files.group 1 m <> ""
      /\ JsString.forallb srcChar (Files.group 1 m) = true.
Proof.
  induction fuel as [|fuel IH]; intros s pos ms H m Hin; [discriminate|].
  cbn [exec_loop] in H.
  destruct (search Files.imgRegex pos s) as [m0|] eqn:E.
  2:{ injection H as <-. contradiction. }
  destruct (exec_loop fuel Files.imgRegex (m_end m0) (m_rest m0)) as [ms'|] eqn:E';
    [|discriminate].
  injection H as <-.
  apply search_sound in E as (skipped & s1 & -> & E).
  apply imgRegex_match_sound in E
    as (attrs & url & -> & Hne & Hattrs & Hune & Hurl & Hg).
  destruct Hin as [<-|Hin].
  - rewrite Hg. repeat split; try assumption.
    exists skipped, attrs, (m_rest m0). auto.
  - destruct (IH _ _ _ E' m Hin) as ((pre & attrs' & rest & Hs & Hne' & Hattrs') & Hu).
    split; [|exact Hu].
    exists (skipped ++ "<img" ++ attrs ++ ("src=" ++ Files.q) ++ url ++ Files.q ++ pre),
      attrs', rest.
    split; [|auto]. rewrite Hs. now rewrite !append_assoc.
Qed.

(** X5. Every URL that [extractImageUrls] returns is non-empty, holds no
    double quote and no [>], and is the quoted [src] value of an [img] tag
    of the HTML. *)
Theorem extractImageUrls_sound (html url : string) :
  In url (Files.extractImageUrls html) ->
  url <> "" /\ JsString.forallb srcChar url = true /\ imgSource html url.
Proof.
  unfold Files.extractImageUrls.
  destruct (exec_loop (Datatypes.S (String.length html)) Files.imgRegex 0 html)
    as [ms|] eqn:E; [|contradiction].
  intros Hin. apply in_map_iff in Hin as (m & <- & Hm).
  destruct (exec_loop_imgRegex_sound _ _ _ _ E m Hm) as (Hs & Hne & Hc). auto.
Qed.

Lemma extractImageUrls_sound_witness :
  "http://x/a.png" <> ""
  /\ JsString.forallb srcChar "http://x/a.png" = true
  /\ imgSource ("<p>" ++ imgTag "http://x/a.png" ++ "</p>") "http://x/a.png".
Proof.
  apply (extractImageUrls_sound ("<p>" ++ imgTag "http://x/a.png" ++ "</p>")).
  left. reflexivity.
Defined.

Lemma firstOccurrence_none_inv (pat : string) (c : ascii) (s : string) :
  firstOccurrence pat (String c s) = None ->
  strip_prefix pat (String c s) = None /\ firstOccurrence pat s = None.
Proof.
  cbn [firstOccurrence].
  destruct (strip_prefix pat (String c s)); [discriminate|].
  destruct (firstOccurrence pat s) as [[b a]|]; [discriminate | auto].
Qed.

(** Without the text [<img] there is no match. *)
Lemma search_imgRegex_none :
  forall s pos,
    firstOccurrence "<img" s = None -> search Files.imgRegex pos s = None.
Proof.
  assert (Hat : forall s pos, strip_prefix "<img" s = None ->
                              match_at Files.imgRegex pos s = None).
  { intros s pos H. unfold match_at, Files.imgRegex.
    match goal with
    | |- context [Seq (Chars "<img") ?t] => generalize t; intros tail
    end.
    cbn [rmatch]. now rewrite H. }
  induction s as [|c s IH]; intros pos H.
  - cbn [search]. now rewrite Hat.
  - apply firstOccurrence_none_inv in H as [Hp Hs].
    cbn [search]. rewrite (Hat _ _ Hp). now apply IH.
Qed.

(** X6. An HTML body without the text [<img] is returned as it is, and no
    request is made. *)
Theorem prepareEmailContent_without_images
        (N : Type) (http : Files.HttpOps N) (email : Files.Email)
        (savePath html : string) (w : Files.NetWorld N) :
  Files.HtmlBody email = Some html ->
  html <> "" ->
  firstOccurrence "<img" html = None ->
  Files.extractImageUrls html = []
  /\ Files.prepareEmailContent http email savePath w = (Return html, w).
Proof.
  intros Hh Hne Hno.
  assert (Hu : Files.extractImageUrls html = []).
  { unfold Files.extractImageUrls. cbn [exec_loop].
    now rewrite (search_imgRegex_none _ 0 Hno). }
  split; [exact Hu|].
  unfold Files.prepareEmailContent. rewrite Hh. cbn [truthy_opt or_else].
  rewrite (truthy_true _ Hne), Hu. reflexivity.
Qed.

Lemma prepareEmailContent_without_images_witness :
  Files.prepareEmailContent Hosts.scripted
    {| Files.HtmlBody := Some "<p>Hello <b>Ann</b></p>"; Files.TextBody := Some "Hello Ann";
       Files.from := None; Files.date := None |}
    "" (Hosts.online [])
  = (Return "<p>Hello <b>Ann</b></p>", Hosts.online []).
Proof.
  refine (proj2 (prepareEmailContent_without_images _ Hosts.scripted
                   {| Files.HtmlBody := Some "<p>Hello <b>Ann</b></p>";
                      Files.TextBody := Some "Hello Ann";
                      Files.from := None; Files.date := None |}
                   "" "<p>Hello <b>Ann</b></p>" (Hosts.online [])
                   eq_refl _ eq_refl)).
  discriminate.
Defined.

(** ** The image fetches *)

(** [fetchImageWithFallback] does not throw: it returns the data URI of
    the response, or [null] when the request is rejected. *)
Lemma fetchImageWithFallback_run {N : Type} (http : Files.HttpOps N)
      (url savePath : string) (w : Files.NetWorld N) :
  Files.fetchImageWithFallback http url savePath w
  = (Return match fst (Files.http_get http (Files.net w) url) with
            | Return response => Some (dataUri response)
            | Throw _ => None
            end,
     {| Files.net := snd (Files.http_get http (Files.net w) url);
        Files.requests := (Files.requests w ++ [url])%list |}).
Proof.
  unfold Files.fetchImageWithFallback, try_catch, bind, Files.axios_get, ret.
  destruct (Files.http_get http (Files.net w) url) as [[response|e] n1];
    cbn [fst snd]; [reflexivity|].
  now destruct (test Files.networkErrorRegex (message e)).
Qed.

Lemma dataUri_truthy (response : Files.AxiosResponse) :
  truthy (dataUri response) = true.
Proof. reflexivity. Qed.

(** The loop of [saveImagesLocally] on any network: one request per URL,
    no throw, at most one data URI more per URL. *)
Lemma saveImages_loop_sound {N : Type} (http : Files.HttpOps N) (savePath : string) :
  forall urls acc w,
  exists added n,
    Files.saveImages_loop http urls savePath acc w
    = (Return (acc ++ added)%list,
       {| Files.net := n; Files.requests := (Files.requests w ++ urls)%list |})
    /\ List.length added <= List.length urls
    /\ Forall (fun d => startsWith "data:" d = true) added.
Proof.
  induction urls as [|url urls IH]; intros acc w.
  - exists [], (Files.net w). cbn [Files.saveImages_loop]. unfold ret.
    rewrite !app_nil_r. destruct w. auto.
  - cbn [Files.saveImages_loop]. unfold bind at 1.
    unfold try_catch at 1. unfold bind at 1.
    rewrite fetchImageWithFallback_run.
    destruct (Files.http_get http (Files.net w) url) as [[response|e] n1];
      cbn [fst snd].
    + rewrite dataUri_truthy. unfold ret at 1.
      destruct (IH (acc ++ [dataUri response])%list
                  {| Files.net := n1;
                     Files.requests := (Files.requests w ++ [url])%list |})
        as (added & n & Hrun & Hlen & Hall).
      rewrite Hrun. cbn [Files.requests].
      exists (dataUri response :: added), n. rewrite <- !app_assoc. cbn [app].
      repeat split; [cbn; lia|]. constructor; [reflexivity | assumption].
    + unfold ret at 1.
      destruct (IH acc {| Files.net := n1;
                          Files.requests := (Files.requests w ++ [url])%list |})
        as (added & n & Hrun & Hlen & Hall).
      rewrite Hrun. cbn [Files.requests].
      exists added, n. rewrite <- !app_assoc. cbn [app].
      repeat split; [cbn; lia | assumption].
Qed.

(** X7. On any network, [saveImagesLocally] does not throw, requests every
    URL once and in order (a repeated URL is requested again), and returns
    at most one entry per URL, each of them a [data:] URI. *)
Theorem saveImagesLocally_requests
        (N : Type) (http : Files.HttpOps N) (imageUrls : list string)
        (savePath : string) (w : Files.NetWorld N) :
  exists base64ImageData n,
    Files.saveImagesLocally http imageUrls savePath w
    = (Return base64ImageData,
       {| Files.net := n; Files.requests := (Files.requests w ++ imageUrls)%list |})
    /\ List.length base64ImageData <= List.length imageUrls
    /\ Forall (fun d => startsWith "data:" d = true) base64ImageData.
Proof.
  unfold Files.saveImagesLocally.
  destruct (saveImages_loop_sound http savePath imageUrls [] w)
    as (added & n & Hrun & Hlen & Hall).
  exists added, n. auto.
Qed.

Lemma fetched_all_succeed (responses : list Files.AxiosResponse) :
  fetched (List.map Return responses) = List.map dataUri responses.
Proof.
  induction responses as [|r rs IH]; [reflexivity|]. cbn. now rewrite IH.
Qed.

(** X8. Given one outcome per URL, [saveImagesLocally] returns the data URIs
    of the fetches that succeeded, in order, with no entry for a failed one;
    when every fetch succeeds, entry [i] is the data URI of URL [i]. *)
Theorem saveImagesLocally_keeps_successes
        (imageUrls : list string) (savePath : string)
        (outcomes : list (Result Files.AxiosResponse)) :
  List.length outcomes = List.length imageUrls ->
  Files.saveImagesLocally Hosts.scripted imageUrls savePath (Hosts.online outcomes)
  = (Return (fetched outcomes),
     {| Files.net := []; Files.requests := imageUrls |})
  /\ forall responses i,
      outcomes = List.map Return responses ->
      nth_error (fetched outcomes) i = option_map dataUri (nth_error responses i).
Proof.
  intros Hlen. split.
  - unfold Files.saveImagesLocally, Hosts.online.
    now rewrite (saveImages_loop_scripted savePath _ outcomes [] [] Hlen).
  - intros responses i ->. rewrite fetched_all_succeed. apply nth_error_map.
Qed.

Lemma saveImagesLocally_keeps_successes_witness :
  let gif := {| Files.response_data := [Byte.x47; Byte.x49; Byte.x46];
                Files.content_type := None |} in
  Files.saveImagesLocally Hosts.scripted ["http://x/a.gif"; "http://x/b.gif"] ""
    (Hosts.online [Throw (Error "timeout"); Return gif])
  = (Return ["data:image/png;base64,R0lG"],
     {| Files.net := []; Files.requests := ["http://x/a.gif"; "http://x/b.gif"] |}).
Proof.
  intros gif.
  exact (proj1 (saveImagesLocally_keeps_successes
                  ["http://x/a.gif"; "http://x/b.gif"] ""
                  [Throw (Error "timeout"); Return gif] eq_refl)).
Defined.

(** ** Token scopes *)

Lemma includes_In (l : list string) (x : string) :
  Auth.includes l x = true <-> In x l.
Proof.
  unfold Auth.includes. rewrite existsb_exists. split.
  - intros (y & Hy & E). apply String.eqb_eq in E. now subst.
  - intros H. exists x. split; [assumption | apply String.eqb_refl].
Qed.

Lemma filter_nil {A : Type} (f : A -> bool) (l : list A) :
  filter f l = [] <-> forall x, In x l -> f x = false.
Proof.
  induction l as [|a l IH]; cbn [filter].
  - split; [intros _ x [] | reflexivity].
  - destruct (f a) eqn:E.
    + split; [discriminate|]. intros H. specialize (H a (or_introl eq_refl)).
      congruence.
    + rewrite IH. split.
      * intros H x [<-|Hx]; auto.
      * intros H x Hx. apply H. now right.
Qed.

(** X9. [validateTokenScopes] answers [true] exactly when the introspection
    call returns and every one of the nine required scopes is among the
    scopes of the token (their order and any further scopes do not matter);
    a token that lacks one scope, or an introspection that throws, gives
    [false]. *)
Theorem validateTokenScopes_all_required
        (Client : Type) (lib : Auth.TokenLib Client) (oAuth2Client : Client) :
  Auth.validateTokenScopes lib oAuth2Client = true
  <-> exists tokenInfo,
        Auth.getTokenInfo lib oAuth2Client (Auth.access_token lib oAuth2Client)
        = Return tokenInfo
        /\ forall scope, In scope Auth.SCOPES -> In scope (Auth.scopes tokenInfo).
Proof.
  unfold Auth.validateTokenScopes.
  destruct (Auth.getTokenInfo lib oAuth2Client (Auth.access_token lib oAuth2Client))
    as [tokenInfo|e].
  2:{ split; [discriminate|]. intros (t & H & _). discriminate. }
  set (missing := filter (fun scope => negb (Auth.includes (Auth.scopes tokenInfo) scope))
                    Auth.SCOPES).
  assert (Hm : missing = [] <->
               forall scope, In scope Auth.SCOPES -> In scope (Auth.scopes tokenInfo)).
  { unfold missing. rewrite filter_nil. split; intros H scope Hs.
    - apply includes_In. specialize (H scope Hs). now apply negb_false_iff in H.
    - apply negb_false_iff, includes_In. now apply H. }
  split.
  - intros H. exists tokenInfo. split; [reflexivity|]. apply Hm.
    destruct missing; [reflexivity | discriminate].
  - intros (t & [= <-] & H). apply Hm in H. now rewrite H.
Qed.

Lemma validateTokenScopes_all_required_witness :
  let lib : Auth.TokenLib unit :=
    {| Auth.access_token := fun _ => Some "ya29.token";
       Auth.getTokenInfo := fun _ _ =>
         Return {| Auth.scopes := ("openid" :: rev Auth.SCOPES)%list |} |} in
  Auth.validateTokenScopes lib tt = true.
Proof.
  intros lib. apply (proj2 (validateTokenScopes_all_required unit lib tt)).
  eexists. split; [reflexivity|].
  intros scope H. right. apply in_rev. now rewrite rev_involutive.
Defined.

(** ** The contact link *)

(** X10. [getContactUrl] gives ['unknown'] without a resource name, the
    contact page of [id] for the resource name [people/id], and the resource
    name itself when it does not contain [people/]. *)
Theorem getContactUrl_cases :
  Person.getContactUrl {| Person.resourceName := None |} = "unknown"
  /\ Person.getContactUrl {| Person.resourceName := Some "" |} = "unknown"
  /\ (forall id,
         Person.getContactUrl {| Person.resourceName := Some ("people/" ++ id) |}
         = "https://contacts.google.com/person/" ++ id)
  /\ (forall name,
         name <> "" -> firstOccurrence "people/" name = None ->
         Person.getContactUrl {| Person.resourceName := Some name |} = name).
Proof.
  repeat split.
  intros name Hne Hno. unfold Person.getContactUrl.
  cbn [Person.resourceName truthy_opt or_else].
  rewrite (truthy_true _ Hne). cbn [negb]. unfold replace. now rewrite Hno.
Qed.

Lemma getContactUrl_cases_witness :
  Person.getContactUrl {| Person.resourceName := Some "otherContacts/c42" |}
  = "otherContacts/c42".
Proof.
  apply (proj2 (proj2 (proj2 getContactUrl_cases)) "otherContacts/c42");
    [discriminate | reflexivity].
Defined.

(** ** The bodies of a message *)

(** X11. For a payload with parts: when no part of a type exists the body
    of that type is empty, and when the first part of the type in
    depth-first order has non-empty content, that content is the body (no
    other part is merged in). For a payload without parts, the payload's
    own content is the body of its type. *)
Theorem extractBodies_first_nonempty (decode : string -> string)
        (payload : MessagePart) :
  (forall ps,
      parts payload = Some ps ->
      (firstOfType "text/html" ps = None ->
       fst (Files.extractBodies decode payload) = "")
      /\ (firstOfType "text/plain" ps = None ->
          snd (Files.extractBodies decode payload) = "")
      /\ (forall found,
             firstOfType "text/html" ps = Some found ->
             Files.partContent decode found <> "" ->
             fst (Files.extractBodies decode payload) = Files.partContent decode found)
      /\ (forall found,
             firstOfType "text/plain" ps = Some found ->
             Files.partContent decode found <> "" ->
             snd (Files.extractBodies decode payload) = Files.partContent decode found))
  /\ (parts payload = None ->
      Files.extractBodies decode payload
      = if Files.hasMimeType "text/html" payload
        then (Files.partContent decode payload, "")
        else if Files.hasMimeType "text/plain" payload
             then ("", Files.partContent decode payload)
             else ("", "")).
Proof.
  unfold Files.extractBodies. split.
  - intros ps ->. cbn [fst snd].
    destruct (extractBodyFromParts_first decode "text/html" ps) as [H1 H2].
    destruct (extractBodyFromParts_first decode "text/plain" ps) as [P1 P2].
    repeat split; auto.
    + intros found Hf Hne. apply H2; [assumption | now apply truthy_true].
    + intros found Hf Hne. apply P2; [assumption | now apply truthy_true].
  - now intros ->.
Qed.

Lemma extractBodies_first_nonempty_witness :
  let payload :=
    container "multipart/mixed"
      [ container "multipart/alternative"
          [leaf "text/plain" "SGk="; leaf "text/html" "PGI+SGk8L2I+"];
        leaf "text/html" "PGk+bm90ZTwvaT4=" ] in
  fst (Files.extractBodies Base64.decode_to_string payload) = "<b>Hi</b>".
Proof.
  intros payload.
  refine (proj1 (proj2 (proj2 (proj1
            (extractBodies_first_nonempty Base64.decode_to_string payload) _ eq_refl)))
            (leaf "text/html" "PGI+SGk8L2I+") eq_refl _).
  discriminate.
Defined.

(** ** The calls of file placement *)

(** X12. When the file name is dated, [saveFileToStack] first asks whether
    the target folder exists, creates it only when it does not, and then
    writes once, to the file's path in that folder; when [mkdirSync] throws,
    nothing is written. It makes no other call. *)
Theorem saveFileToStack_calls
        (FS : Type) (fs : Files.FsOps FS)
        (vaultRoot subfolderStructure filename content subfolder : string)
        (w : Files.FsWorld FS) :
  resolvedSubfolder subfolderStructure filename = Some subfolder ->
  let targetFolder := Path.join [vaultRoot; subfolder] in
  let targetPath := Path.join [targetFolder; filename] in
  Files.calls
    (snd (Files.saveFileToStack fs vaultRoot subfolderStructure filename content w))
  = (Files.calls w
       ++ Files.ExistsSync targetFolder
       :: (if Files.fs_existsSync fs (Files.disk w) targetFolder
           then [Files.WriteFileSync targetPath content]
           else Files.MkdirSync targetFolder
                  :: match fst (Files.fs_mkdirSync fs (Files.disk w) targetFolder) with
                     | Return _ => [Files.WriteFileSync targetPath content]
                     | Throw _ => []
                     end))%list.
Proof.
  unfold resolvedSubfolder, Files.saveFileToStack.
  destruct (match_ Files.dateRegex filename) as [dm|]; [|discriminate].
  cbn [option_map]. intros [= <-]. cbv zeta.
  set (targetFolder := Path.join [vaultRoot; _]).
  set (targetPath := Path.join [targetFolder; filename]).
  unfold bind, try_catch, Files.existsSync, Files.mkdirSync,
    Files.writeFileSync, ret, throw. fs_simpl.
  destruct (Files.fs_existsSync fs (Files.disk w) targetFolder); fs_simpl.
  - destruct (Files.fs_writeFileSync fs (Files.disk w) targetPath content)
      as [[[]|e] d]; cbn [snd Files.calls]; now rewrite <- app_assoc.
  - destruct (Files.fs_mkdirSync fs (Files.disk w) targetFolder)
      as [[[]|e] d]; fs_simpl; cbn [fst].
    + destruct (Files.fs_writeFileSync fs d targetPath content)
        as [[[]|e] d']; cbn [snd Files.calls]; now rewrite <- !app_assoc.
    + cbn [snd Files.calls]. now rewrite <- !app_assoc.
Qed.

Lemma saveFileToStack_calls_witness :
  Files.calls
    (snd (Files.saveFileToStack Hosts.memFs "/vault" "YYYY/YYYY-MM"
            "20240315_101500 - a@b.com -- Hi.htm" "<html></html>" Hosts.emptyDisk))
  = [ Files.ExistsSync "/vault/Chronological/Email/2024/2024-03";
      Files.MkdirSync "/vault/Chronological/Email/2024/2024-03";
      Files.WriteFileSync
        "/vault/Chronological/Email/2024/2024-03/20240315_101500 - a@b.com -- Hi.htm"
        "<html></html>" ].
Proof.
  exact (saveFileToStack_calls _ Hosts.memFs "/vault" "YYYY/YYYY-MM"
           "20240315_101500 - a@b.com -- Hi.htm" "<html></html>"
           "Chronological/Email/2024/2024-03" Hosts.emptyDisk eq_refl).
Defined.

(** ** Numerals *)

Lemma decimal_digit_code (n : Z) :
  code (JsDate.decimal_digit n) = 48 + Z.to_nat (n mod 10).
Proof.
  unfold code, JsDate.decimal_digit. apply nat_ascii_embedding.
  pose proof (Z.mod_pos_bound n 10 eq_refl). lia.
Qed.

Lemma decimal_digit_is_digit (n : Z) : is_digit (JsDate.decimal_digit n) = true.
Proof.
  unfold is_digit. rewrite decimal_digit_code.
  pose proof (Z.mod_pos_bound n 10 eq_refl).
  apply andb_true_intro. split; apply Nat.leb_le; lia.
Qed.

Lemma decimal_digit_value (n : Z) :
  JsNumber.digitValue (JsDate.decimal_digit n) = (n mod 10)%Z.
Proof.
  unfold JsNumber.digitValue. rewrite decimal_digit_code.
  pose proof (Z.mod_pos_bound n 10 eq_refl). lia.
Qed.

Lemma digits_all_digit (fuel : nat) :
  forall n, JsString.forallb is_digit (JsNumber.digits fuel n) = true.
Proof.
  induction fuel as [|fuel IH]; intros n; [reflexivity|].
  cbn [JsNumber.digits]. destruct (n <? 10)%Z.
  - cbn [JsString.forallb]. now rewrite decimal_digit_is_digit.
  - rewrite forallb_append, IH. cbn [JsString.forallb].
    now rewrite decimal_digit_is_digit.
Qed.

Lemma pad_all_digit (width : nat) :
  forall n, JsString.forallb is_digit (JsDate.pad width n) = true.
Proof.
  induction width as [|width IH]; intros n; [reflexivity|].
  cbn [JsDate.pad]. rewrite forallb_append, IH. cbn [JsString.forallb].
  now rewrite decimal_digit_is_digit.
Qed.

Lemma pad_length (width : nat) :
  forall n, String.length (JsDate.pad width n) = width.
Proof.
  induction width as [|width IH]; intros n; [reflexivity|].
  cbn [JsDate.pad]. rewrite length_append, IH. cbn. lia.
Qed.

Lemma digits_S (f : nat) (n : Z) :
  JsNumber.digits (Datatypes.S f) n
  = if (n <? 10)%Z then String (JsDate.decimal_digit n) ""
    else JsNumber.digits f (n / 10) ++ String (JsDate.decimal_digit n) "".
Proof. reflexivity. Qed.

(** With enough fuel the digits do not depend on the fuel. *)
Lemma digits_fuel (f : nat) :
  forall g n,
    (0 <= n < 10 ^ Z.of_nat (Datatypes.S f))%Z ->
    (n < 10 ^ Z.of_nat (Datatypes.S g))%Z ->
    JsNumber.digits (Datatypes.S f) n = JsNumber.digits (Datatypes.S g) n.
Proof.
  induction f as [|f IH]; intros g n Hf Hg.
  - cbn in Hf. cbn [JsNumber.digits].
    destruct (Z.ltb_spec n 10); [reflexivity | lia].
  - rewrite (digits_S (Datatypes.S f)), (digits_S g).
    destruct (Z.ltb_spec n 10) as [Hn|Hn]; [reflexivity|].
    destruct g as [|g]; [cbn in Hg; lia|].
    rewrite (Nat2Z.inj_succ (Datatypes.S f)), Z.pow_succ_r in Hf by lia.
    rewrite (Nat2Z.inj_succ (Datatypes.S g)), Z.pow_succ_r in Hg by lia.
    rewrite (IH g (n / 10)%Z); [reflexivity | |].
    + split; [apply Z.div_pos; lia | apply Z.div_lt_upper_bound; lia].
    + apply Z.div_lt_upper_bound; lia.
Qed.

Lemma decimal_fuel_enough (n : Z) :
  (0 <= n)%Z -> (n < 10 ^ Z.of_nat (Datatypes.S (Z.to_nat (Z.log2 n))))%Z.
Proof.
  intros Hn. rewrite Nat2Z.inj_succ, Z2Nat.id by apply Z.log2_nonneg.
  destruct (Z.eq_dec n 0) as [->|Hz]; [reflexivity|].
  pose proof (Z.log2_spec n ltac:(lia)) as [_ Hlt].
  pose proof (Z.log2_nonneg n).
  apply Z.lt_le_trans with (2 ^ Z.succ (Z.log2 n))%Z; [assumption|].
  apply Z.pow_le_mono_l. lia.
Qed.

Lemma decimal_digits (f : nat) (n : Z) :
  (0 <= n < 10 ^ Z.of_nat (Datatypes.S f))%Z ->
  JsNumber.decimal n = JsNumber.digits (Datatypes.S f) n.
Proof.
  intros H. unfold JsNumber.decimal. symmetry. apply digits_fuel; [assumption|].
  apply decimal_fuel_enough. lia.
Qed.

Lemma decimal_pad1 (n : Z) : (0 <= n < 10)%Z -> JsNumber.decimal n = JsDate.pad 1 n.
Proof.
  intros H. rewrite (decimal_digits 0) by (cbn; lia).
  cbn [JsNumber.digits JsDate.pad append].
  destruct (Z.ltb_spec n 10); [reflexivity | lia].
Qed.

Lemma decimal_pad2 (n : Z) : (10 <= n < 100)%Z -> JsNumber.decimal n = JsDate.pad 2 n.
Proof.
  intros H. rewrite (decimal_digits 1) by (cbn; lia).
  cbn [JsNumber.digits JsDate.pad append].
  destruct (Z.ltb_spec n 10); [lia|].
  assert (n / 10 < 10)%Z by (apply Z.div_lt_upper_bound; lia).
  destruct (Z.ltb_spec (n / 10) 10); [reflexivity | lia].
Qed.

Lemma decimal_pad3 (n : Z) : (100 <= n < 1000)%Z -> JsNumber.decimal n = JsDate.pad 3 n.
Proof.
  intros H. rewrite (decimal_digits 2) by (cbn; lia).
  cbn [JsNumber.digits JsDate.pad append].
  assert (10 <= n / 10 < 100)%Z
    by (split; [apply Z.div_le_lower_bound | apply Z.div_lt_upper_bound]; lia).
  assert (n / 10 / 10 < 10)%Z by (apply Z.div_lt_upper_bound; lia).
  destruct (Z.ltb_spec n 10); [lia|].
  destruct (Z.ltb_spec (n / 10) 10); [lia|].
  destruct (Z.ltb_spec (n / 10 / 10) 10); [reflexivity | lia].
Qed.

Lemma decimal_pad4 (n : Z) : (1000 <= n < 10000)%Z -> JsNumber.decimal n = JsDate.pad 4 n.
Proof.
  intros H. rewrite (decimal_digits 3) by (cbn; lia).
  cbn [JsNumber.digits JsDate.pad append].
  assert (100 <= n / 10 < 1000)%Z
    by (split; [apply Z.div_le_lower_bound | apply Z.div_lt_upper_bound]; lia).
  assert (10 <= n / 10 / 10 < 100)%Z
    by (split; [apply Z.div_le_lower_bound | apply Z.div_lt_upper_bound]; lia).
  assert (n / 10 / 10 / 10 < 10)%Z by (apply Z.div_lt_upper_bound; lia).
  destruct (Z.ltb_spec n 10); [lia|].
  destruct (Z.ltb_spec (n / 10) 10); [lia|].
  destruct (Z.ltb_spec (n / 10 / 10) 10); [lia|].
  destruct (Z.ltb_spec (n / 10 / 10 / 10) 10); [reflexivity | lia].
Qed.

Lemma is_digit_code (c : ascii) : is_digit c = true -> 48 <= code c <= 57.
Proof.
  unfold is_digit. intros H. apply andb_prop in H as [H1 H2].
  apply Nat.leb_le in H1, H2. lia.
Qed.

Lemma is_digit_not_space (c : ascii) : is_digit c = true -> is_space c = false.
Proof.
  intros H. apply is_digit_code in H. unfold is_space.
  destruct (Nat.leb_spec 9 (code c)); destruct (Nat.leb_spec (code c) 13);
    destruct (Nat.eqb_spec (code c) 32); destruct (Nat.eqb_spec (code c) 160);
    cbn; try reflexivity; lia.
Qed.

Lemma is_digit_not (c d : ascii) :
  is_digit d = false -> is_digit c = true -> Ascii.eqb c d = false.
Proof.
  intros Hd Hc. destruct (Ascii.eqb_spec c d) as [->|]; [congruence | reflexivity].
Qed.

Lemma leadingValue_append (a b : string) :
  forall acc,
    JsString.forallb is_digit a = true ->
    JsNumber.leadingValue acc (a ++ b)
    = JsNumber.leadingValue (JsNumber.leadingValue acc a) b.
Proof.
  induction a as [|c a IH]; intros acc H.
  - cbn. now destruct b.
  - simpl in H. apply andb_prop in H as [Hc Ha].
    cbn [append JsNumber.leadingValue]. rewrite Hc. now apply IH.
Qed.

(** Reading the digits of a number gives the number back. *)
Lemma leadingValue_digits (f : nat) :
  forall n,
    (0 <= n < 10 ^ Z.of_nat (Datatypes.S f))%Z ->
    JsNumber.leadingValue 0 (JsNumber.digits (Datatypes.S f) n) = n.
Proof.
  induction f as [|f IH]; intros n H; rewrite digits_S.
  - cbn in H. destruct (Z.ltb_spec n 10); [|lia].
    cbn [JsNumber.leadingValue]. rewrite decimal_digit_is_digit, decimal_digit_value.
    rewrite Z.mod_small; lia.
  - destruct (Z.ltb_spec n 10) as [Hn|Hn].
    + cbn [JsNumber.leadingValue].
      rewrite decimal_digit_is_digit, decimal_digit_value.
      rewrite Z.mod_small; lia.
    + rewrite (Nat2Z.inj_succ (Datatypes.S f)), Z.pow_succ_r in H by lia.
      rewrite leadingValue_append by apply digits_all_digit.
      rewrite IH.
      * cbn [JsNumber.leadingValue].
        rewrite decimal_digit_is_digit, decimal_digit_value.
        pose proof (Z.div_mod n 10 ltac:(lia)). lia.
      * split; [apply Z.div_pos; lia | apply Z.div_lt_upper_bound; lia].
Qed.

Lemma digits_head (f : nat) (n : Z) :
  exists c r, JsNumber.digits (Datatypes.S f) n = String c r /\ is_digit c = true.
Proof.
  pose proof (digits_all_digit (Datatypes.S f) n) as H.
  destruct (JsNumber.digits (Datatypes.S f) n) as [|c r] eqn:E.
  - rewrite digits_S in E. destruct (n <? 10)%Z; [discriminate|].
    destruct (JsNumber.digits f (n / 10)); discriminate.
  - simpl in H. apply andb_prop in H as [Hc _]. eauto.
Qed.

(** [parseInt] reads back what [String] prints. *)
Lemma parseInt_decimal (n : Z) :
  (0 <= n)%Z -> JsNumber.parseInt (JsNumber.decimal n) = JsNumber.Num n.
Proof.
  intros Hn. unfold JsNumber.decimal.
  pose proof (leadingValue_digits (Z.to_nat (Z.log2 n)) n
                (conj Hn (decimal_fuel_enough n Hn))) as Hv.
  destruct (digits_head (Z.to_nat (Z.log2 n)) n) as (c & r & E & Hc).
  rewrite E in *. unfold JsNumber.parseInt. cbn [trimStart].
  rewrite (is_digit_not_space _ Hc).
  rewrite (is_digit_not c "-" eq_refl Hc), (is_digit_not c "+" eq_refl Hc).
  rewrite Hc, Hv. f_equal. lia.
Qed.

(** ** The credentials *)

(** X13. A port kept as a decimal string and the same port kept as a number
    give the same credentials, with the single redirect URI
    [http://127.0.0.1:<port>]. *)
Theorem getGoogleCredentials_port
        (id secret : option string) (port : Z) :
  (0 <= port < 2 ^ 53)%Z ->
  Credentials.getGoogleCredentials
    {| Credentials.client_id := id; Credentials.client_secret := secret;
       Credentials.client_redirect_uri_port :=
         Credentials.PortString (JsNumber.decimal port) |}
  = Credentials.getGoogleCredentials
      {| Credentials.client_id := id; Credentials.client_secret := secret;
         Credentials.client_redirect_uri_port :=
           Credentials.PortNumber (JsNumber.Num port) |}
  /\ Credentials.redirect_uris
       (Credentials.getGoogleCredentials
          {| Credentials.client_id := id; Credentials.client_secret := secret;
             Credentials.client_redirect_uri_port :=
               Credentials.PortString (JsNumber.decimal port) |})
     = ["http://127.0.0.1:" ++ JsNumber.decimal port].
Proof.
  intros [H0 _]. unfold Credentials.getGoogleCredentials.
  cbn [Credentials.client_redirect_uri_port Credentials.redirectPort
       Credentials.client_id Credentials.client_secret Credentials.redirect_uris].
  rewrite (parseInt_decimal _ H0). split; [reflexivity|].
  cbn [Credentials.interpolate JsNumber.toString].
  destruct (Z.ltb_spec port 0); [lia | reflexivity].
Qed.

Lemma getGoogleCredentials_port_witness :
  Credentials.redirect_uris
    (Credentials.getGoogleCredentials
       {| Credentials.client_id := Some "id"; Credentials.client_secret := Some "s";
          Credentials.client_redirect_uri_port := Credentials.PortString "42601" |})
  = ["http://127.0.0.1:42601"].
Proof.
  refine (proj2 (getGoogleCredentials_port (Some "id") (Some "s") 42601 _)).
  split; [discriminate | reflexivity].
Defined.

(** X14. [hasGoogleCredentials] does not look at what the port holds: with
    a client id and a secret, a port string from which [parseInt] reads no
    number (an empty field, say) passes the check, and the redirect URI of
    the credentials is [http://127.0.0.1:NaN]. *)
Theorem hasGoogleCredentials_ignores_port (id secret port : string) :
  id <> "" -> secret <> "" ->
  JsNumber.parseInt port = JsNumber.NaN ->
  let settings :=
    {| Credentials.client_id := Some id; Credentials.client_secret := Some secret;
       Credentials.client_redirect_uri_port := Credentials.PortString port |} in
  Credentials.hasGoogleCredentials settings = true
  /\ Credentials.redirect_uris (Credentials.getGoogleCredentials settings)
     = ["http://127.0.0.1:NaN"].
Proof.
  intros Hid Hs Hp settings. split.
  - unfold Credentials.hasGoogleCredentials, settings.
    cbn [Credentials.client_id Credentials.client_secret
         Credentials.client_redirect_uri_port Credentials.nonEmpty].
    destruct id; [contradiction|]. destruct secret; [contradiction|]. reflexivity.
  - unfold Credentials.getGoogleCredentials, settings.
    cbn [Credentials.client_redirect_uri_port Credentials.redirectPort
         Credentials.redirect_uris Credentials.interpolate].
    now rewrite Hp.
Qed.

Lemma hasGoogleCredentials_ignores_port_witness :
  let settings :=
    {| Credentials.client_id := Some "id"; Credentials.client_secret := Some "s";
       Credentials.client_redirect_uri_port := Credentials.PortString "" |} in
  Credentials.hasGoogleCredentials settings = true
  /\ Credentials.redirect_uris (Credentials.getGoogleCredentials settings)
     = ["http://127.0.0.1:NaN"].
Proof.
  apply (hasGoogleCredentials_ignores_port "id" "s" "");
    [discriminate | discriminate | reflexivity].
Defined.

(** ** The file name of a message *)

Lemma toString_nonneg (z : Z) :
  (0 <= z)%Z -> JsNumber.toString (JsNumber.Num z) = JsNumber.decimal z.
Proof.
  intros H. cbn [JsNumber.toString]. destruct (Z.ltb_spec z 0); [lia | reflexivity].
Qed.

(** Two digits for a number below 100. *)
Lemma twoDigits_pad (z : Z) :
  (0 <= z < 100)%Z ->
  Orchestrator.twoDigits (JsNumber.Num z) = JsDate.pad 2 z.
Proof.
  intros H. unfold Orchestrator.twoDigits. rewrite toString_nonneg by lia.
  unfold JsNumber.padStart. destruct (Z.ltb_spec z 10) as [Hz|Hz].
  - rewrite decimal_pad1 by lia. rewrite pad_length.
    cbn [Nat.sub JsNumber.repeat JsDate.pad append].
    rewrite (Z.div_small z 10) by lia. reflexivity.
  - rewrite decimal_pad2 by lia. rewrite pad_length. reflexivity.
Qed.

Lemma take_class_append (p : ascii -> bool) (a b : string) :
  JsString.forallb p a = true ->
  take_class p (String.length a) (a ++ b) = Some b.
Proof.
  induction a as [|c a IH]; intros H; [reflexivity|].
  simpl in H. apply andb_prop in H as [Hc Ha].
  cbn [String.length append take_class]. rewrite Hc. now apply IH.
Qed.

(** Fewer characters of the class than asked for. *)
Lemma take_class_short (p : ascii -> bool) (c : ascii) (b : string) :
  p c = false ->
  forall a n, (String.length a < n)%nat -> take_class p n (a ++ String c b) = None.
Proof.
  intros Hc. induction a as [|x a IH]; intros n Hn.
  - destruct n; [inversion Hn|]. cbn. now rewrite Hc.
  - destruct n; [inversion Hn|]. cbn [append take_class].
    destruct (p x); [|reflexivity]. apply IH. simpl in Hn. lia.
Qed.

Lemma substring_skip (a b : string) (n : nat) :
  substring (String.length a) n (a ++ b) = substring 0 n b.
Proof. induction a as [|c a IH]; [reflexivity | exact IH]. Qed.

(** The name of a message with calendar fields starts with the year, the
    month and the day, and an underscore follows. *)
Lemma fileName_parts (fields : Orchestrator.LocalFields)
      (from : option string) (subject : string) :
  (0 <= Orchestrator.getMonth fields <= 11)%Z ->
  (1 <= Orchestrator.getDate fields <= 31)%Z ->
  exists rest,
    Orchestrator.fileName (Some fields) from subject
    = JsNumber.toString (JsNumber.Num (Orchestrator.getFullYear fields))
        ++ JsDate.pad 2 (Orchestrator.getMonth fields + 1)
        ++ JsDate.pad 2 (Orchestrator.getDate fields)
        ++ String "_" rest.
Proof.
  intros Hm Hd. unfold Orchestrator.fileName.
  cbn [Orchestrator.getter Orchestrator.plusOne].
  rewrite (twoDigits_pad (Orchestrator.getMonth fields + 1)) by lia.
  rewrite (twoDigits_pad (Orchestrator.getDate fields)) by lia.
  eexists. rewrite !append_assoc. reflexivity.
Qed.

Lemma is_digit_valid (c : ascii) :
  is_digit c = true -> validFileNameChar c = true.
Proof.
  intros H. unfold validFileNameChar, Files.invalidFileNameChar.
  cbn [existsb].
  rewrite !(fun d Hd => is_digit_not c d Hd H) by reflexivity. reflexivity.
Qed.

Lemma toString_valid (n : JsNumber.number) :
  JsString.forallb validFileNameChar (JsNumber.toString n) = true.
Proof.
  destruct n as [|z]; [reflexivity|]. cbn [JsNumber.toString].
  destruct (z <? 0)%Z; [cbn [JsString.forallb]; rewrite andb_true_iff; split;
                        [reflexivity|] |];
    apply (forallb_impl is_digit); auto using is_digit_valid;
    apply digits_all_digit.
Qed.

Lemma repeat_valid (c : ascii) (n : nat) :
  validFileNameChar c = true ->
  JsString.forallb validFileNameChar (JsNumber.repeat c n) = true.
Proof.
  intros H. induction n as [|n IH]; [reflexivity|].
  cbn [JsNumber.repeat JsString.forallb]. now rewrite H, IH.
Qed.

Lemma twoDigits_valid (n : JsNumber.number) :
  JsString.forallb validFileNameChar (Orchestrator.twoDigits n) = true.
Proof.
  unfold Orchestrator.twoDigits, JsNumber.padStart.
  rewrite forallb_append, toString_valid, repeat_valid; reflexivity.
Qed.

(** The name of a message with a four-digit year starts with eight
    digits: the year, then the month counted from 1. *)
Lemma fileName_eightDigits (fields : Orchestrator.LocalFields)
      (from : option string) (subject : string) :
  (1000 <= Orchestrator.getFullYear fields <= 9999)%Z ->
  (0 <= Orchestrator.getMonth fields <= 11)%Z ->
  (1 <= Orchestrator.getDate fields <= 31)%Z ->
  let name := Orchestrator.fileName (Some fields) from subject in
  test eightDigits name = true
  /\ substring 0 4 name = JsDate.pad 4 (Orchestrator.getFullYear fields)
  /\ substring 4 2 name = JsDate.pad 2 (Orchestrator.getMonth fields + 1).
Proof.
  intros Hy Hm Hd name.
  destruct (fileName_parts fields from subject Hm Hd) as (rest & E).
  rewrite toString_nonneg, decimal_pad4 in E by lia.
  fold name in E.
  set (year := JsDate.pad 4 (Orchestrator.getFullYear fields)) in *.
  set (month := JsDate.pad 2 (Orchestrator.getMonth fields + 1)) in *.
  split; [|split].
  - rewrite test_eightDigits, E.
    rewrite <- !append_assoc.
    replace 8%nat
      with (String.length
              ((year ++ month) ++ JsDate.pad 2 (Orchestrator.getDate fields))).
    + rewrite take_class_append; [reflexivity|].
      unfold year, month. now rewrite !forallb_append, !pad_all_digit.
    + unfold year, month. now rewrite !length_append, !pad_length.
  - rewrite E. rewrite <- (pad_length 4 (Orchestrator.getFullYear fields)).
    apply substring_0_append.
  - rewrite E. rewrite <- (pad_length 4 (Orchestrator.getFullYear fields)) at 1.
    fold year. rewrite substring_skip.
    rewrite <- (pad_length 2 (Orchestrator.getMonth fields + 1)).
    apply substring_0_append.
Qed.

(** The default template filled with a year and a month of digits. *)
Lemma default_template_filled (year month : string) :
  JsString.forallb is_digit year = true ->
  JsString.forallb is_digit month = true ->
  replace (replace "YYYY/YYYY-MM" "YYYY" year) "YYYY-MM" (year ++ "-" ++ month)
  = year ++ "/" ++ year ++ "-" ++ month.
Proof.
  intros Hy Hm.
  assert (Dy : JsString.forallb (Files.is_not "$") year = true).
  { apply (forallb_impl is_digit); [apply is_digit_not_dollar | exact Hy]. }
  assert (Dm : JsString.forallb (Files.is_not "$") month = true).
  { apply (forallb_impl is_digit); [apply is_digit_not_dollar | exact Hm]. }
  assert (Dj : JsString.forallb (Files.is_not "$") (year ++ "-" ++ month) = true).
  { now rewrite forallb_append, Dy, forallb_append, Dm. }
  assert (DY : JsString.forallb (Files.is_not "Y") (year ++ "/") = true).
  { rewrite forallb_append. rewrite andb_true_iff. split; [|reflexivity].
    apply (forallb_impl is_digit); [apply is_digit_not_Y | exact Hy]. }
  assert (E1 : replace "YYYY/YYYY-MM" "YYYY" year = year ++ "/YYYY-MM").
  { exact (replace_at "Y" "YYY" "" "/YYYY-MM" year eq_refl Dy). }
  assert (E2 : replace (year ++ "/YYYY-MM") "YYYY-MM" (year ++ "-" ++ month)
               = (year ++ "/") ++ (year ++ "-" ++ month) ++ "").
  { rewrite <- (replace_at "Y" "YYY-MM" (year ++ "/") "" _ DY Dj).
    now rewrite append_assoc. }
  rewrite E1, E2. now rewrite append_nil_r, append_assoc.
Qed.

(** X15. The name built for a message whose date has a four-digit year
    starts with the eight digits year, month (counted from 1) and day, so
    [saveFileToStack] accepts it.  For a template that [path.join] leaves
    as written and whose tokens stand apart (no token, one [YYYY], or one
    [YYYY] and one [YYYY-MM] after it), the subfolder is
    [Chronological/Email/] followed by the template with the message's own
    year put for the token [YYYY] and its year-month for the token
    [YYYY-MM]; with the default template [YYYY/YYYY-MM] that is
    [Chronological/Email/<year>/<year>-<month>]. *)
Theorem fileName_dated (fields : Orchestrator.LocalFields)
        (from : option string) (subject : string) :
  (1000 <= Orchestrator.getFullYear fields <= 9999)%Z ->
  (0 <= Orchestrator.getMonth fields <= 11)%Z ->
  (1 <= Orchestrator.getDate fields <= 31)%Z ->
  let name := Orchestrator.fileName (Some fields) from subject in
  let year := JsDate.pad 4 (Orchestrator.getFullYear fields) in
  let month := JsDate.pad 2 (Orchestrator.getMonth fields + 1) in
  test eightDigits name = true
  /\ (forall subfolderStructure,
         joinedAsWritten subfolderStructure = true ->
         tokensApart subfolderStructure = true ->
         resolvedSubfolder subfolderStructure name
         = Some (claimedSubfolder subfolderStructure year month))
  /\ resolvedSubfolder "YYYY/YYYY-MM" name
     = Some ("Chronological/Email/" ++ year ++ "/" ++ year ++ "-" ++ month).
Proof.
  intros Hy Hm Hd name year month.
  destruct (fileName_eightDigits fields from subject Hy Hm Hd)
    as (Htest & Hyear & Hmonth).
  fold name year in Htest, Hyear. fold name month in Hmonth.
  split; [exact Htest|]. split.
  - intros t Hj Ht.
    rewrite (resolvedSubfolder_as_claimed _ _ Hj Ht Htest).
    now rewrite Hyear, Hmonth.
  - rewrite (resolvedSubfolder_normal "YYYY/YYYY-MM" name eq_refl Htest).
    rewrite Hyear, Hmonth. do 2 f_equal.
    apply default_template_filled; apply pad_all_digit.
Qed.

Lemma fileName_dated_witness :
  let name :=
    Orchestrator.fileName
      (Some {| Orchestrator.getFullYear := 2024; Orchestrator.getMonth := 2;
               Orchestrator.getDate := 5; Orchestrator.getHours := 9;
               Orchestrator.getMinutes := 7; Orchestrator.getSeconds := 0 |})
      (Some "a@b.com") "Re: plan" in
  name = "20240305_090700 - a@b.com -- Re_ plan.htm"
  /\ resolvedSubfolder "Yearly/YYYY/YYYY-MM/" name
     = Some "Chronological/Email/Yearly/2024/2024-03/"
  /\ resolvedSubfolder "YYYY/YYYY-MM" name
     = Some "Chronological/Email/2024/2024-03".
Proof.
  split; [reflexivity|].
  assert (Hy : (1000 <= 2024 <= 9999)%Z) by (split; discriminate).
  assert (Hm : (0 <= 2 <= 11)%Z) by (split; discriminate).
  assert (Hd : (1 <= 5 <= 31)%Z) by (split; discriminate).
  pose proof (fileName_dated
                {| Orchestrator.getFullYear := 2024; Orchestrator.getMonth := 2;
                   Orchestrator.getDate := 5; Orchestrator.getHours := 9;
                   Orchestrator.getMinutes := 7; Orchestrator.getSeconds := 0 |}
                (Some "a@b.com") "Re: plan" Hy Hm Hd) as H.
  cbv zeta in H. destruct H as (_ & Hgen & Hdef).
  split; [exact (Hgen "Yearly/YYYY/YYYY-MM/" eq_refl eq_refl) | exact Hdef].
Defined.

(** X16. The year goes into the name unpadded: for a date before the year
    1000 the name starts with fewer than eight digits, and [saveFileToStack]
    throws on it before any call of the file system. *)
Theorem fileName_early_year_rejected
        (FS : Type) (fs : Files.FsOps FS)
        (fields : Orchestrator.LocalFields) (from : option string)
        (subject vaultRoot subfolderStructure content : string)
        (w : Files.FsWorld FS) :
  (Orchestrator.getFullYear fields < 1000)%Z ->
  (0 <= Orchestrator.getMonth fields <= 11)%Z ->
  (1 <= Orchestrator.getDate fields <= 31)%Z ->
  Files.saveFileToStack fs vaultRoot subfolderStructure
    (Orchestrator.fileName (Some fields) from subject) content w
  = (Throw (Error "Filename does not contain a valid date."), w).
Proof.
  intros Hy Hm Hd. unfold Files.saveFileToStack.
  rewrite match_dateRegex_none; [reflexivity|].
  rewrite test_eightDigits.
  destruct (fileName_parts fields from subject Hm Hd) as (rest & ->).
  destruct (Z.ltb_spec (Orchestrator.getFullYear fields) 0) as [Hneg|Hpos].
  - cbn [JsNumber.toString]. destruct (Z.ltb_spec (Orchestrator.getFullYear fields) 0);
      [reflexivity | lia].
  - rewrite toString_nonneg by lia. rewrite <- !append_assoc.
    rewrite take_class_short; [reflexivity | reflexivity |].
    rewrite !length_append, !pad_length.
    assert (String.length (JsNumber.decimal (Orchestrator.getFullYear fields)) <= 3)%nat;
      [|lia].
    set (y := Orchestrator.getFullYear fields) in *.
    destruct (Z.ltb_spec y 10); [rewrite decimal_pad1 by lia; rewrite pad_length; lia|].
    destruct (Z.ltb_spec y 100); [rewrite decimal_pad2 by lia; rewrite pad_length; lia|].
    rewrite decimal_pad3 by lia. rewrite pad_length. lia.
Qed.

Lemma fileName_early_year_rejected_witness :
  let name :=
    Orchestrator.fileName
      (Some {| Orchestrator.getFullYear := 999; Orchestrator.getMonth := 11;
               Orchestrator.getDate := 31; Orchestrator.getHours := 23;
               Orchestrator.getMinutes := 59; Orchestrator.getSeconds := 59 |})
      None "Old" in
  name = "9991231_235959 - unknown -- Old.htm"
  /\ Files.saveFileToStack Hosts.memFs "/vault" "YYYY/YYYY-MM" name "<html></html>"
       Hosts.emptyDisk
     = (Throw (Error "Filename does not contain a valid date."), Hosts.emptyDisk).
Proof.
  split; [reflexivity|].
  apply (fileName_early_year_rejected _ Hosts.memFs
           {| Orchestrator.getFullYear := 999; Orchestrator.getMonth := 11;
              Orchestrator.getDate := 31; Orchestrator.getHours := 23;
              Orchestrator.getMinutes := 59; Orchestrator.getSeconds := 59 |});
    cbn; [reflexivity | split; discriminate | split; discriminate].
Defined.

(** X17. Whatever the date, the sender and the subject are, the name built
    for a message holds none of the characters [< > : dquote / \ | ? *]; in
    particular it has no slash and names a file in the target folder
    itself. *)
Theorem fileName_valid (emailDate : option Orchestrator.LocalFields)
        (from : option string) (subject : string) :
  JsString.forallb validFileNameChar
    (Orchestrator.fileName emailDate from subject) = true.
Proof.
  unfold Orchestrator.fileName.
  rewrite !forallb_append, !toString_valid, !twoDigits_valid,
    !removeInvalidFileNameChars_clean_aux.
  reflexivity.
Qed.

(** ** The loop over the messages *)

Lemma writes_app (a b : list Files.FsCall) :
  writes (a ++ b)%list = (writes a + writes b)%nat.
Proof. unfold writes. now rewrite List.filter_app, List.length_app. Qed.

Lemma failureNotice_intro (text : string) :
  failureNotice ("Failed to process email: " ++ text) = true.
Proof. unfold failureNotice, startsWith. now rewrite strip_prefix_append. Qed.

(** [saveFileToStack] adds calls to those made before, at most one of
    them a write, and exactly one when it returns. *)
Lemma saveFileToStack_effects (FS : Type) (fs : Files.FsOps FS)
      (vaultRoot subfolderStructure filename content : string)
      (w : Files.FsWorld FS) :
  exists new,
    Files.calls
      (snd (Files.saveFileToStack fs vaultRoot subfolderStructure filename content w))
    = (Files.calls w ++ new)%list
    /\ (writes new <= 1)%nat
    /\ (forall p,
           fst (Files.saveFileToStack fs vaultRoot subfolderStructure filename
                  content w) = Return p ->
           writes new = 1%nat).
Proof.
  unfold Files.saveFileToStack.
  destruct (match_ Files.dateRegex filename) as [dm|].
  - cbv zeta.
    set (targetFolder := Path.join [vaultRoot; _]).
    set (targetPath := Path.join [targetFolder; filename]).
    unfold bind, try_catch, Files.existsSync, Files.mkdirSync,
      Files.writeFileSync, ret, throw. fs_simpl.
    destruct (Files.fs_existsSync fs (Files.disk w) targetFolder); fs_simpl.
    + destruct (Files.fs_writeFileSync fs (Files.disk w) targetPath content)
        as [[[]|e] d]; cbn [fst snd Files.calls]; rewrite <- app_assoc;
        eexists; (split; [reflexivity|]); unfold writes; cbn;
        (split; [lia | now intros p]).
    + destruct (Files.fs_mkdirSync fs (Files.disk w) targetFolder)
        as [[[]|e] d]; fs_simpl.
      * destruct (Files.fs_writeFileSync fs d targetPath content)
          as [[[]|e] d']; cbn [fst snd Files.calls]; rewrite <- !app_assoc;
          eexists; (split; [reflexivity|]); unfold writes; cbn;
          (split; [lia | now intros p]).
      * cbn [fst snd Files.calls]. rewrite <- !app_assoc.
        eexists. split; [reflexivity|]. unfold writes. cbn.
        split; [lia | now intros p].
  - exists []. unfold throw. cbn [fst snd]. rewrite app_nil_r.
    split; [reflexivity|]. unfold writes. cbn. split; [lia | now intros p].
Qed.

(** With a file system that does not fail, [saveFileToStack] looks for the
    folder, creates it when it is missing and writes the file. *)
Lemma saveFileToStack_succeeds (FS : Type) (fs : Files.FsOps FS)
      (vaultRoot subfolderStructure filename content subfolder : string)
      (w : Files.FsWorld FS) :
  resolvedSubfolder subfolderStructure filename = Some subfolder ->
  (forall d p, exists d', Files.fs_mkdirSync fs d p = (Return tt, d')) ->
  (forall d p c, exists d', Files.fs_writeFileSync fs d p c = (Return tt, d')) ->
  let targetFolder := Path.join [vaultRoot; subfolder] in
  let targetPath := Path.join [targetFolder; filename] in
  exists d',
    Files.saveFileToStack fs vaultRoot subfolderStructure filename content w
    = (Return targetPath,
       {| Files.disk := d';
          Files.calls :=
            (Files.calls w
               ++ Files.ExistsSync targetFolder
               :: (if Files.fs_existsSync fs (Files.disk w) targetFolder
                   then []
                   else [Files.MkdirSync targetFolder])
               ++ [Files.WriteFileSync targetPath content])%list |}).
Proof.
  unfold resolvedSubfolder, Files.saveFileToStack.
  destruct (match_ Files.dateRegex filename) as [dm|]; [|discriminate].
  cbn [option_map]. intros [= <-] Hmk Hwr. cbv zeta.
  set (targetFolder := Path.join [vaultRoot; _]).
  set (targetPath := Path.join [targetFolder; filename]).
  unfold bind, try_catch, Files.existsSync, Files.mkdirSync,
    Files.writeFileSync, ret, throw. fs_simpl.
  destruct (Files.fs_existsSync fs (Files.disk w) targetFolder); fs_simpl.
  - destruct (Hwr (Files.disk w) targetPath content) as [d' ->].
    exists d'. cbn [app]. now rewrite <- app_assoc.
  - destruct (Hmk (Files.disk w) targetFolder) as [d ->]. fs_simpl.
    destruct (Hwr d targetPath content) as [d' ->].
    exists d'. cbn [app]. now rewrite <- !app_assoc.
Qed.

Section Loop.
Context {S N FS : Type}.
Variable service : GmailOps S.
Variable http : Files.HttpOps N.
Variable fs : Files.FsOps FS.
Variable clock : JsDate.DateOps.
Variable localTime : Z -> Orchestrator.LocalFields.
Variable decode : string -> string.

(** One turn of the loop returns; it adds no notice and one call that
    writes, or one failure notice and at most one call that writes. *)
Lemma processMessage_step (vaultRoot subfolderStructure : string)
      (summary : Gmail.MessageSummary) (w : Orchestrator.World S N FS) :
  exists w' added new,
    Orchestrator.processMessage service http fs clock localTime decode
      vaultRoot subfolderStructure summary w = (Return tt, w')
    /\ Orchestrator.notices w' = (Orchestrator.notices w ++ added)%list
    /\ Files.calls (Orchestrator.storage w')
       = (Files.calls (Orchestrator.storage w) ++ new)%list
    /\ handled added new = true.
Proof.
  unfold Orchestrator.processMessage, try_catch, bind, Orchestrator.onMail,
    Orchestrator.onNetwork, Orchestrator.onStorage, Orchestrator.Notice, ret.
  destruct (Files.fetchEmailContent decode service clock
              (Gmail.messageId summary) (Orchestrator.mail w)) as [[email|e] s'].
  - cbn [Orchestrator.mail Orchestrator.network Orchestrator.storage
         Orchestrator.notices].
    destruct (Files.prepareEmailContent http email "" (Orchestrator.network w))
      as [[content|e] n'].
    + cbn [Orchestrator.mail Orchestrator.network Orchestrator.storage
           Orchestrator.notices].
      match goal with
      | |- context [Files.saveFileToStack fs vaultRoot subfolderStructure ?name
                      content (Orchestrator.storage w)] =>
          destruct (saveFileToStack_effects _ fs vaultRoot subfolderStructure
                      name content (Orchestrator.storage w))
            as (new & Hc & Hle & Hret);
          destruct (Files.saveFileToStack fs vaultRoot subfolderStructure name
                      content (Orchestrator.storage w)) as [[p|e] d']
      end; cbn [fst snd] in Hc, Hret.
      * eexists _, [], new. split; [reflexivity|].
        cbn [Orchestrator.notices Orchestrator.storage handled].
        rewrite app_nil_r, (Hret p eq_refl).
        repeat split. exact Hc.
      * eexists _, [_], new. split; [reflexivity|].
        cbn [Orchestrator.notices Orchestrator.storage handled].
        rewrite failureNotice_intro.
        repeat split; [exact Hc | now apply Nat.leb_le].
    + eexists _, [_], []. split; [reflexivity|].
      cbn [Orchestrator.notices Orchestrator.storage handled].
      rewrite failureNotice_intro, app_nil_r. repeat split.
  - eexists _, [_], []. split; [reflexivity|].
    cbn [Orchestrator.notices Orchestrator.storage handled].
    rewrite failureNotice_intro, app_nil_r. repeat split.
Qed.

Lemma handled_bounds (added : list string) (new : list Files.FsCall) :
  handled added new = true ->
  List.forallb failureNotice added = true
  /\ (List.length added <= 1)%nat
  /\ (writes new <= 1)%nat
  /\ (1 <= List.length added + writes new)%nat.
Proof.
  unfold handled. destruct added as [|notice [|other rest]]; [| |discriminate].
  - intros H. apply Nat.eqb_eq in H. cbn. repeat split; lia.
  - intros H. apply andb_prop in H as [Hf Hw]. apply Nat.leb_le in Hw.
    cbn. rewrite Hf. repeat split; lia.
Qed.

(** The loop returns; it keeps the notices and the calls made before and
    adds at most one notice and one writing call per message. *)
Lemma processMessages_grows (vaultRoot subfolderStructure : string)
      (messages : list Gmail.MessageSummary) (w : Orchestrator.World S N FS) :
  exists w' added new,
    Orchestrator.processMessages service http fs clock localTime decode
      vaultRoot subfolderStructure messages w = (Return tt, w')
    /\ Orchestrator.notices w' = (Orchestrator.notices w ++ added)%list
    /\ Files.calls (Orchestrator.storage w')
       = (Files.calls (Orchestrator.storage w) ++ new)%list
    /\ List.forallb failureNotice added = true
    /\ (List.length added <= List.length messages)%nat
    /\ (writes new <= List.length messages)%nat.
Proof.
  revert w. induction messages as [|summary rest IH]; intros w.
  - exists w, [], []. cbn. rewrite !app_nil_r. unfold writes. cbn.
    repeat split; lia.
  - cbn [Orchestrator.processMessages]. unfold bind.
    destruct (processMessage_step vaultRoot subfolderStructure summary w)
      as (w1 & added1 & new1 & -> & Hn1 & Hc1 & Hh).
    destruct (handled_bounds _ _ Hh) as (Hf1 & Ha1 & Hw1 & _).
    destruct (IH w1) as (w2 & added2 & new2 & -> & Hn2 & Hc2 & Hf2 & Ha2 & Hw2).
    exists w2, (added1 ++ added2)%list, (new1 ++ new2)%list.
    split; [reflexivity|].
    rewrite Hn2, Hn1, Hc2, Hc1, <- !app_assoc, List.forallb_app, Hf1, Hf2,
      List.length_app, writes_app.
    cbn [List.length]. repeat split; lia.
Qed.

(** The messages after a part of the list are processed from the world
    that part leaves. *)
Lemma processMessages_app (vaultRoot subfolderStructure : string)
      (rest : list Gmail.MessageSummary) :
  forall (first : list Gmail.MessageSummary) (w w1 : Orchestrator.World S N FS),
    Orchestrator.processMessages service http fs clock localTime decode
      vaultRoot subfolderStructure first w = (Return tt, w1) ->
    Orchestrator.processMessages service http fs clock localTime decode
      vaultRoot subfolderStructure (first ++ rest)%list w
    = Orchestrator.processMessages service http fs clock localTime decode
        vaultRoot subfolderStructure rest w1.
Proof.
  induction first as [|summary first IH]; intros w w1 H.
  - cbn in H. unfold ret in H. now injection H as ->.
  - cbn [app Orchestrator.processMessages] in *. unfold bind in *.
    destruct (Orchestrator.processMessage service http fs clock localTime decode
                vaultRoot subfolderStructure summary w) as [[[]|e] w0];
      [now apply IH | discriminate].
Qed.

(** X18. Whatever the mail service, the network and the file system do,
    and wherever a message stands in the list: the loop reaches it (the
    messages before it are processed and no error leaves them), handles it
    (the loop body returns; it leaves either no notice and exactly one call
    that writes a file, or exactly one [Failed to process email: ...]
    notice and at most one such call) and goes on with the messages after
    it from the world this message left, so a message that fails does not
    stop the others.  The notice and the calls of the message stay, in
    their place, among the notices and calls at the end of the loop; the
    messages before and after add failure notices only, at most one notice
    and one writing call each. *)
Theorem processMessages_total (vaultRoot subfolderStructure : string)
        (before : list Gmail.MessageSummary) (summary : Gmail.MessageSummary)
        (after : list Gmail.MessageSummary) (w : Orchestrator.World S N FS) :
  exists w1 w2 w' added new,
    Orchestrator.processMessages service http fs clock localTime decode
      vaultRoot subfolderStructure before w = (Return tt, w1)
    /\ Orchestrator.processMessage service http fs clock localTime decode
         vaultRoot subfolderStructure summary w1 = (Return tt, w2)
    /\ Orchestrator.processMessages service http fs clock localTime decode
         vaultRoot subfolderStructure after w2 = (Return tt, w')
    /\ Orchestrator.processMessages service http fs clock localTime decode
         vaultRoot subfolderStructure (before ++ summary :: after)%list w
       = (Return tt, w')
    /\ Orchestrator.notices w2 = (Orchestrator.notices w1 ++ added)%list
    /\ Files.calls (Orchestrator.storage w2)
       = (Files.calls (Orchestrator.storage w1) ++ new)%list
    /\ handled added new = true
    /\ (exists pre post,
           Orchestrator.notices w'
           = (Orchestrator.notices w ++ pre ++ added ++ post)%list
           /\ List.forallb failureNotice (pre ++ post)%list = true
           /\ (List.length pre <= List.length before)%nat
           /\ (List.length post <= List.length after)%nat)
    /\ (exists pre post,
           Files.calls (Orchestrator.storage w')
           = (Files.calls (Orchestrator.storage w) ++ pre ++ new ++ post)%list
           /\ (writes pre <= List.length before)%nat
           /\ (writes post <= List.length after)%nat).
Proof.
  destruct (processMessages_grows vaultRoot subfolderStructure before w)
    as (w1 & pre & cpre & E1 & Hn1 & Hc1 & Hf1 & Hl1 & Hw1).
  destruct (processMessage_step vaultRoot subfolderStructure summary w1)
    as (w2 & added & new & E2 & Hn2 & Hc2 & Hh).
  destruct (processMessages_grows vaultRoot subfolderStructure after w2)
    as (w' & post & cpost & E3 & Hn3 & Hc3 & Hf3 & Hl3 & Hw3).
  exists w1, w2, w', added, new.
  split; [exact E1|]. split; [exact E2|]. split; [exact E3|]. split.
  { rewrite (processMessages_app vaultRoot subfolderStructure _ _ _ _ E1).
    cbn [Orchestrator.processMessages]. unfold bind. rewrite E2. exact E3. }
  split; [exact Hn2|]. split; [exact Hc2|]. split; [exact Hh|]. split.
  - exists pre, post. rewrite Hn3, Hn2, Hn1, <- !app_assoc.
    split; [reflexivity|]. rewrite List.forallb_app, Hf1, Hf3.
    repeat split; assumption.
  - exists cpre, cpost. rewrite Hc3, Hc2, Hc1, <- !app_assoc.
    repeat split; assumption.
Qed.

(** X19. One message from end to end: when the message is fetched, its
    date has a four-digit year and the file system does not fail, the file
    is written with the prepared content under
    [<vault>/Chronological/Email/<year>/<year>-<month>/] (default
    template), named as [fileName] says; the folder is looked for first and
    created when missing; no notice is shown. *)
Theorem processMessage_saves (vaultRoot content : string)
        (summary : Gmail.MessageSummary) (email : Files.Email)
        (fields : Orchestrator.LocalFields) (s' : S) (n' : Files.NetWorld N)
        (w : Orchestrator.World S N FS) :
  Files.fetchEmailContent decode service clock (Gmail.messageId summary)
    (Orchestrator.mail w) = (Return email, s') ->
  option_map localTime (Main.emailDate clock email) = Some fields ->
  (1000 <= Orchestrator.getFullYear fields <= 9999)%Z ->
  (0 <= Orchestrator.getMonth fields <= 11)%Z ->
  (1 <= Orchestrator.getDate fields <= 31)%Z ->
  Files.prepareEmailContent http email "" (Orchestrator.network w)
  = (Return content, n') ->
  (forall d p, exists d', Files.fs_mkdirSync fs d p = (Return tt, d')) ->
  (forall d p c, exists d', Files.fs_writeFileSync fs d p c = (Return tt, d')) ->
  let name :=
    Orchestrator.fileName (Some fields) (Files.from email) (Gmail.subject summary) in
  let year := JsDate.pad 4 (Orchestrator.getFullYear fields) in
  let month := JsDate.pad 2 (Orchestrator.getMonth fields + 1) in
  let targetFolder :=
    Path.join [vaultRoot;
               "Chronological/Email/" ++ year ++ "/" ++ year ++ "-" ++ month] in
  let targetPath := Path.join [targetFolder; name] in
  exists d',
    Orchestrator.processMessage service http fs clock localTime decode
      vaultRoot "YYYY/YYYY-MM" summary w
    = (Return tt,
       {| Orchestrator.mail := s';
          Orchestrator.network := n';
          Orchestrator.storage :=
            {| Files.disk := d';
               Files.calls :=
                 (Files.calls (Orchestrator.storage w)
                    ++ Files.ExistsSync targetFolder
                    :: (if Files.fs_existsSync fs
                             (Files.disk (Orchestrator.storage w)) targetFolder
                        then []
                        else [Files.MkdirSync targetFolder])
                    ++ [Files.WriteFileSync targetPath content])%list |};
          Orchestrator.notices := Orchestrator.notices w |}).
Proof.
  intros Hfetch Hdate Hy Hm Hd Hprep Hmk Hwr name year month targetFolder targetPath.
  destruct (fileName_eightDigits fields (Files.from email) (Gmail.subject summary)
              Hy Hm Hd) as (Htest & Hyear & Hmonth).
  fold name in Htest, Hyear, Hmonth.
  assert (Hsub : resolvedSubfolder "YYYY/YYYY-MM" name
                 = Some ("Chronological/Email/" ++ year ++ "/" ++ year ++ "-" ++ month)).
  { rewrite (resolvedSubfolder_normal "YYYY/YYYY-MM" name eq_refl Htest),
      Hyear, Hmonth.
    do 2 f_equal. apply default_template_filled; apply pad_all_digit. }
  destruct (saveFileToStack_succeeds _ fs vaultRoot "YYYY/YYYY-MM" name content _
              (Orchestrator.storage w) Hsub Hmk Hwr) as (d' & Hsave).
  exists d'.
  unfold Orchestrator.processMessage, try_catch, bind, Orchestrator.onMail,
    Orchestrator.onNetwork, Orchestrator.onStorage, ret.
  rewrite Hfetch.
  cbn [Orchestrator.mail Orchestrator.network Orchestrator.storage
       Orchestrator.notices].
  rewrite Hprep.
  cbn [Orchestrator.mail Orchestrator.network Orchestrator.storage
       Orchestrator.notices].
  rewrite Hdate. fold name. rewrite Hsave. reflexivity.
Qed.

(** X20. A message that cannot be fetched costs nothing else: no request
    goes to the network, no call to the file system, and the one notice
    shown carries the message of the error. *)
Theorem processMessage_fetch_failure (vaultRoot subfolderStructure : string)
        (summary : Gmail.MessageSummary) (e : JsError) (s' : S)
        (w : Orchestrator.World S N FS) :
  Files.fetchEmailContent decode service clock (Gmail.messageId summary)
    (Orchestrator.mail w) = (Throw e, s') ->
  Orchestrator.processMessage service http fs clock localTime decode
    vaultRoot subfolderStructure summary w
  = (Return tt,
     {| Orchestrator.mail := s';
        Orchestrator.network := Orchestrator.network w;
        Orchestrator.storage := Orchestrator.storage w;
        Orchestrator.notices :=
          (Orchestrator.notices w
             ++ [("Failed to process email: " ++ Eff.message e)%string])%list |}).
Proof.
  intros H.
  unfold Orchestrator.processMessage, try_catch, bind, Orchestrator.onMail.
  now rewrite H.
Qed.
End Loop.

Lemma processMessage_saves_witness :
  let message :=
    {| id := Some "m1";
       payload := Some (Part (Some "text/plain")
                          (Some [ {| name := "From"; value := "Ann <a@b.com>" |} ])
                          (Some {| data := Some "SGk=" |}) None) |} in
  let service := Hosts.mailbox (Throw (Error "unused")) (fun _ => Return message) in
  let w :=
    {| Orchestrator.mail := tt; Orchestrator.network := Hosts.online [];
       Orchestrator.storage := Hosts.emptyDisk; Orchestrator.notices := [] |} in
  exists d',
    Orchestrator.processMessage service Hosts.scripted Hosts.memFs Hosts.clock
      Hosts.utc Base64.decode_to_string "/vault" "YYYY/YYYY-MM"
      {| Gmail.subject := "Hi"; Gmail.messageId := "m1" |} w
    = (Return tt,
       {| Orchestrator.mail := tt;
          Orchestrator.network := Hosts.online [];
          Orchestrator.storage :=
            {| Files.disk := d';
               Files.calls :=
                 [ Files.ExistsSync "/vault/Chronological/Email/2024/2024-10";
                   Files.MkdirSync "/vault/Chronological/Email/2024/2024-10";
                   Files.WriteFileSync
                     "/vault/Chronological/Email/2024/2024-10/20241027_033320 - a@b.com -- Hi.htm"
                     "<html><body><pre>Hi</pre></body></html>" ] |};
          Orchestrator.notices := [] |}).
Proof.
  intros message service w.
  refine (processMessage_saves service Hosts.scripted Hosts.memFs Hosts.clock
            Hosts.utc Base64.decode_to_string "/vault"
            "<html><body><pre>Hi</pre></body></html>"
            {| Gmail.subject := "Hi"; Gmail.messageId := "m1" |}
            {| Files.HtmlBody := Some ""; Files.TextBody := Some "Hi";
               Files.from := Some "a@b.com"; Files.date := Some "" |}
            (Hosts.utc 1730000000000) tt (Hosts.online []) w
            eq_refl eq_refl _ _ _ eq_refl _ _).
  - vm_compute. split; discriminate.
  - vm_compute. split; discriminate.
  - vm_compute. split; discriminate.
  - intros d p. eexists. reflexivity.
  - intros d p c. eexists. reflexivity.
Defined.

Lemma processMessage_fetch_failure_witness :
  let service :=
    Hosts.mailbox (Throw (Error "unused"))
      (fun _ => Throw (Error "Requested entity was not found.")) in
  let w :=
    {| Orchestrator.mail := tt; Orchestrator.network := Hosts.online [];
       Orchestrator.storage := Hosts.emptyDisk; Orchestrator.notices := [] |} in
  Orchestrator.processMessage service Hosts.scripted Hosts.memFs Hosts.clock
    Hosts.utc Base64.decode_to_string "/vault" "YYYY/YYYY-MM"
    {| Gmail.subject := "Hi"; Gmail.messageId := "m1" |} w
  = (Return tt,
     {| Orchestrator.mail := tt; Orchestrator.network := Hosts.online [];
        Orchestrator.storage := Hosts.emptyDisk;
        Orchestrator.notices :=
          ["Failed to process email: Requested entity was not found."] |}).
Proof.
  intros service w.
  exact (processMessage_fetch_failure service Hosts.scripted Hosts.memFs
           Hosts.clock Hosts.utc Base64.decode_to_string "/vault" "YYYY/YYYY-MM"
           {| Gmail.subject := "Hi"; Gmail.messageId := "m1" |}
           (Error "Requested entity was not found.") tt w eq_refl).
Defined.

(** ** The summaries of the labelled messages *)

Lemma or_else_truthy (o : option string) (d : string) :
  truthy d = true -> truthy (or_else o d) = true.
Proof.
  intros H. destruct o as [x|]; [|exact H]. cbn [or_else].
  destruct (truthy x) eqn:E; [exact E | exact H].
Qed.

Lemma or_else_of_truthy (o : option string) (d : string) :
  truthy_opt o = true -> truthy (or_else o d) = true.
Proof.
  destruct o as [x|]; [|discriminate]. cbn [truthy_opt or_else].
  intros H. now rewrite H.
Qed.

Lemma collectSubjects_named (S : Type) (service : GmailOps S) :
  forall messageIds messages s,
    List.forallb named messages = true ->
    exists result s',
      Gmail.collectSubjects service messageIds messages s = (Return result, s')
      /\ List.forallb named result = true
      /\ (List.length result <= List.length messages + List.length messageIds)%nat.
Proof.
  induction messageIds as [|messageId rest IH]; intros acc s Hacc.
  - cbn [Gmail.collectSubjects]. unfold ret. exists acc, s.
    repeat split; [exact Hacc | lia].
  - cbn [Gmail.collectSubjects List.length].
    destruct (truthy_opt messageId) eqn:Hid; cbn [negb].
    + unfold bind at 1, try_catch, bind, ret.
      destruct (users_messages_get service _ s) as [[message|e] s1].
      * destruct (IH (acc ++ [{| Gmail.subject := Gmail.subjectOf message;
                                 Gmail.messageId := or_else messageId "" |}])%list s1)
          as (result & s' & E & Hn & Hl).
        { rewrite List.forallb_app, Hacc. cbn [List.forallb andb].
          unfold named. cbn [Gmail.subject Gmail.messageId].
          unfold Gmail.subjectOf.
          now rewrite or_else_truthy, or_else_of_truthy. }
        exists result, s'. repeat split; [exact E | exact Hn |].
        rewrite List.length_app in Hl. cbn [List.length] in Hl. lia.
      * destruct (IH acc s1 Hacc) as (result & s' & E & Hn & Hl).
        exists result, s'. repeat split; [exact E | exact Hn | lia].
    + destruct (IH acc s Hacc) as (result & s' & E & Hn & Hl).
      exists result, s'. repeat split; [exact E | exact Hn | lia].
Qed.

(** X21. Whatever the mail service answers, also one that changes from
    call to call, [fetchEmailsWithLabelSubjects] returns summaries that each
    have a subject and a message id that are not empty (a missing or empty
    subject reads [No Subject]), and no more of them than the list query
    gave ids. *)
Theorem fetchEmailsWithLabelSubjects_named
        (S : Type) (service : GmailOps S) (accountName : string) (s : S) :
  exists result s',
    Gmail.fetchEmailsWithLabelSubjects service accountName s = (Return result, s')
    /\ List.forallb named result = true
    /\ (List.length result
        <= listed (fst (users_messages_list service listQuery s)))%nat.
Proof.
  unfold Gmail.fetchEmailsWithLabelSubjects, try_catch, bind, ret.
  fold listQuery.
  destruct (users_messages_list service listQuery s) as [[response|e] s1];
    cbn [fst listed].
  - destruct (negb (status response =? 200)%Z).
    + exists [], s1. repeat split. cbn. lia.
    + fold (messageIdsOf response).
      destruct (collectSubjects_named S service (messageIdsOf response) [] s1 eq_refl)
        as (result & s' & -> & Hn & Hl).
      exists result, s'. repeat split; [exact Hn | exact Hl].
  - exists [], s1. repeat split. cbn. lia.
Qed.
